(** * AB1805_RK: a shallow embedding of the AB1805 RTC / watchdog driver

    The development follows [src/AB1805_RK.cpp] and [src/AB1805_RK.h]:

    - machine integers are [Z] with the conversions of the C++ code written
      out ([u8] for a conversion to [uint8_t], [usize] for [size_t]
      arithmetic, [Z.quot]/[Z.rem] for [/] and [%] on [int]);
    - the chip is a file of 256 eight-bit registers behind the I2C
      transport; a transaction is either acknowledged or not, following a
      schedule carried by the transport;
    - every driver method is a computation in a small state-and-trace
      monad: it threads the driver object and records the bus
      transactions it issues, in order. *)

From Stdlib Require Import ZArith List Bool Lia.
Import ListNotations.
Open Scope Z_scope.

(** ** Machine integers *)

(** Conversion to [uint8_t]. *)
Definition u8 (x : Z) : Z := x mod 256.

(** Arithmetic on [size_t] (32 bits on the Cortex-M targets of the library). *)
Definition usize (x : Z) : Z := x mod 2 ^ 32.

(** ** Register map (the constants of [AB1805_RK.h] used below) *)

Definition REG_HUNDREDTH : Z := 0x00.
Definition REG_HUNDREDTH_ALARM : Z := 0x08.
Definition REG_STATUS : Z := 0x0f.
Definition REG_STATUS_WDT : Z := 0x20.
Definition REG_STATUS_TIM : Z := 0x08.
Definition REG_STATUS_ALM : Z := 0x04.
Definition REG_STATUS_DEFAULT : Z := 0x00.
Definition REG_CTRL_1 : Z := 0x10.
Definition REG_CTRL_1_STOP : Z := 0x80.
Definition REG_CTRL_1_OUT : Z := 0x10.
Definition REG_CTRL_1_RSP : Z := 0x08.
Definition REG_CTRL_1_PWR2 : Z := 0x02.
Definition REG_CTRL_1_WRTC : Z := 0x01.
Definition REG_CTRL_1_DEFAULT : Z := 0x13.
Definition REG_CTRL_2 : Z := 0x11.
Definition REG_CTRL_2_OUT2S_MASK : Z := 0x1c.
Definition REG_CTRL_2_OUT2S_SLEEP : Z := 0x18.
Definition REG_CTRL_2_OUT1S_MASK : Z := 0x03.
Definition REG_CTRL_2_OUT1S_nIRQ : Z := 0x00.
Definition REG_CTRL_2_OUT1S_SQW : Z := 0x01.
Definition REG_CTRL_2_OUT1S_nAIRQ : Z := 0x03.
Definition REG_CTRL_2_DEFAULT : Z := 0x3c.
Definition REG_INT_MASK : Z := 0x12.
Definition REG_INT_MASK_TIE : Z := 0x08.
Definition REG_INT_MASK_AIE : Z := 0x04.
Definition REG_INT_MASK_DEFAULT : Z := 0xe0.
Definition REG_SQW : Z := 0x13.
Definition REG_SQW_DEFAULT : Z := 0x26.
Definition REG_SLEEP_CTRL : Z := 0x17.
Definition REG_SLEEP_CTRL_SLP : Z := 0x80.
Definition REG_SLEEP_CTRL_SLRES : Z := 0x40.
Definition REG_SLEEP_CTRL_SLST : Z := 0x08.
Definition REG_SLEEP_CTRL_DEFAULT : Z := 0x00.
Definition REG_TIMER_CTRL : Z := 0x18.
Definition REG_TIMER_CTRL_TE : Z := 0x80.
Definition REG_TIMER_CTRL_RPT_MASK : Z := 0x1c.
Definition REG_TIMER_CTRL_RPT_DATE : Z := 0x08.
Definition REG_TIMER_CTRL_RPT_DIS : Z := 0x00.
Definition REG_TIMER_CTRL_TFS_1 : Z := 0x02.
Definition REG_TIMER_CTRL_TFS_1_60 : Z := 0x03.
Definition REG_TIMER_CTRL_DEFAULT : Z := 0x23.
Definition REG_TIMER : Z := 0x19.
Definition REG_TIMER_DEFAULT : Z := 0x00.
Definition REG_TIMER_INITIAL : Z := 0x1a.
Definition REG_TIMER_INITIAL_DEFAULT : Z := 0x00.
Definition REG_WDT : Z := 0x1b.
Definition REG_WDT_RESET : Z := 0x80.
Definition REG_WDT_WRB_1_4_HZ : Z := 0x03.
Definition REG_WDT_DEFAULT : Z := 0x00.
Definition REG_OSC_CTRL : Z := 0x1c.
Definition REG_OSC_CTRL_OSEL : Z := 0x80.
Definition REG_OSC_CTRL_FOS : Z := 0x08.
Definition REG_OSC_CTRL_PWGT : Z := 0x04.
Definition REG_OSC_CTRL_DEFAULT : Z := 0x00.
Definition REG_CONFIG_KEY : Z := 0x1f.
Definition REG_CONFIG_KEY_OTHER : Z := 0x9d.
Definition REG_TRICKLE : Z := 0x20.
Definition REG_TRICKLE_DEFAULT : Z := 0x00.
Definition REG_TRICKLE_TCS_ENABLE : Z := 0xa0.
Definition REG_BREF_CTRL : Z := 0x21.
Definition REG_BREF_CTRL_DEFAULT : Z := 0xf0.
Definition REG_AFCTRL : Z := 0x26.
Definition REG_AFCTRL_DEFAULT : Z := 0x00.
Definition REG_BATMODE_IO : Z := 0x27.
Definition REG_BATMODE_IO_DEFAULT : Z := 0x80.
Definition REG_OCTRL : Z := 0x30.
Definition REG_OCTRL_O1EN : Z := 0x01.
Definition REG_OCTRL_DEFAULT : Z := 0x00.
Definition REG_EXT_ADDR : Z := 0x3f.
Definition REG_EXT_ADDR_XADA : Z := 0x04.
Definition REG_ALT_RAM : Z := 0x80.

Definition RESET_PRESERVE_REPEATING_TIMER : Z := 0x00000001.
Definition RESET_DISABLE_XT : Z := 0x00000002.

(** ** Time codec *)

(** [int AB1805::bcdToValue(uint8_t bcd)] *)
Definition bcdToValue (bcd : Z) : Z :=
  Z.shiftr bcd 4 * 10 + Z.land bcd 0x0f.

(** [uint8_t AB1805::valueToBcd(int value)] *)
Definition valueToBcd (value : Z) : Z :=
  let tens := Z.rem (Z.quot value 10) 10 in
  let ones := Z.rem value 10 in
  u8 (Z.lor (Z.shiftl tens 4) ones).

(** [struct tm] of <time.h>. *)
Record tm : Type := mkTm {
  tm_sec : Z;
  tm_min : Z;
  tm_hour : Z;
  tm_mday : Z;
  tm_mon : Z;
  tm_year : Z;
  tm_wday : Z;
  tm_yday : Z;
  tm_isdst : Z
}.

(** [memset(timeptr, 0, sizeof( *timeptr))] *)
Definition tm_zero : tm := mkTm 0 0 0 0 0 0 0 0 0.

(** [AB1805::tmToRegisters]: the bytes stored through [p], in order. *)
Definition tmToRegisters (timeptr : tm) (includeYear : bool) : list Z :=
  [ valueToBcd (tm_sec timeptr);
    valueToBcd (tm_min timeptr);
    valueToBcd (tm_hour timeptr);
    valueToBcd (tm_mday timeptr);
    valueToBcd (tm_mon timeptr + 1) ]
  ++ (if includeYear then [ valueToBcd (Z.rem (tm_year timeptr) 100) ] else [])
  ++ [ valueToBcd (tm_wday timeptr) ].

(** [AB1805::registersToTm]: the struct pointed to by [timeptr] is updated
    in place, so the fields the function does not assign keep the value
    they had in the caller's struct. *)
Definition registersToTm (array : list Z) (timeptr : tm) (includeYear : bool) : tm :=
  let rd (i : nat) := nth i array 0 in
  {| tm_sec := bcdToValue (rd 0%nat);
     tm_min := bcdToValue (rd 1%nat);
     tm_hour := bcdToValue (rd 2%nat);
     tm_mday := bcdToValue (rd 3%nat);
     tm_mon := bcdToValue (rd 4%nat) - 1;
     tm_year := if includeYear then bcdToValue (rd 5%nat) + 100
                else tm_year timeptr;
     tm_wday := bcdToValue (rd (if includeYear then 6 else 5)%nat);
     tm_yday := tm_yday timeptr;
     tm_isdst := tm_isdst timeptr |}.

(** The ranges the header documents for the fields of a calendar time
    ([tm_year] is "years since 1900", with no further bound). *)
Definition tm_documented (t : tm) : Prop :=
  0 <= tm_sec t <= 59 /\ 0 <= tm_min t <= 59 /\ 0 <= tm_hour t <= 23 /\
  1 <= tm_mday t <= 31 /\ 0 <= tm_mon t <= 11 /\ 0 <= tm_wday t <= 6 /\
  0 <= tm_year t.

(** 1970-01-01 00:00:00, a Thursday. *)
Definition tm_epoch : tm := mkTm 0 0 0 1 0 70 4 0 0.

(** 2024-02-29 23:59:58, a Thursday. *)
Definition tm_leap : tm := mkTm 58 59 23 29 1 124 4 59 0.


(** ** The I2C transport and the chip behind it *)

(** One bus transaction addressed to the chip, as the driver issues it:
    a register read of [num] bytes, or a register write of [data], both
    starting at [regAddr]; [ok] tells whether it completed
    ([endTransmission] returned 0 and, for a read, [requestFrom]
    delivered [num] bytes). *)
Inductive Txn : Type :=
| Rd (regAddr : Z) (num : Z) (ok : bool)
| Wr (regAddr : Z) (data : list Z) (ok : bool).

Definition txn_ok (t : Txn) : bool :=
  match t with Rd _ _ ok => ok | Wr _ _ ok => ok end.

Definition txn_addr (t : Txn) : Z :=
  match t with Rd a _ _ => a | Wr a _ _ => a end.

Definition txn_len (t : Txn) : Z :=
  match t with Rd _ n _ => n | Wr _ d _ => Z.of_nat (length d) end.

Definition txn_is_write (t : Txn) : bool :=
  match t with Rd _ _ _ => false | Wr _ _ _ => true end.

(** The [TwoWire] object together with the chip it reaches.  [regs] is the
    chip's register file, a plain memory of bytes; [acks] schedules the
    outcome of the coming transactions, oldest first ([false]: the
    transaction fails), and once it is exhausted every transaction
    completes; [lockDepth] counts the nested [lock()] calls. *)
Record TwoWire : Type := mkWire {
  regs : Z -> Z;
  acks : list bool;
  lockDepth : nat
}.

(** [enum class WakeReason] *)
Inductive WakeReason : Type :=
| UNKNOWN
| WATCHDOG
| DEEP_POWER_DOWN
| COUNTDOWN_TIMER
| ALARM.

(** The members of [class AB1805] the modelled methods use. *)
Record AB1805 : Type := mkAB1805 {
  wire : TwoWire;
  watchdogSecs : Z;
  watchdogUpdatePeriod : Z;
  wakeReason : WakeReason
}.

Definition set_wire (w : TwoWire) (s : AB1805) : AB1805 :=
  mkAB1805 w (watchdogSecs s) (watchdogUpdatePeriod s) (wakeReason s).

Definition set_watchdog (secs period : Z) (s : AB1805) : AB1805 :=
  mkAB1805 (wire s) secs period (wakeReason s).

Definition set_wakeReason (r : WakeReason) (s : AB1805) : AB1805 :=
  mkAB1805 (wire s) (watchdogSecs s) (watchdogUpdatePeriod s) r.

(** The register the chip holds at [regAddr], as a byte. *)
Definition reg (s : AB1805) (regAddr : Z) : Z := u8 (regs (wire s) regAddr).

(** No failure is scheduled: every coming transaction completes. *)
Definition healthy (s : AB1805) : Prop := acks (wire s) = [].

(** A sequential read of [n] registers from [a]; the register pointer of
    the chip increments after each byte. *)
Fixpoint burst (r : Z -> Z) (a : Z) (n : nat) : list Z :=
  match n with
  | O => []
  | S k => u8 (r a) :: burst r (u8 (a + 1)) k
  end.

(** A sequential write of [data] from [a]. *)
Fixpoint store (r : Z -> Z) (a : Z) (data : list Z) : Z -> Z :=
  match data with
  | [] => r
  | v :: rest => store (fun x => if x =? a then u8 v else r x) (u8 (a + 1)) rest
  end.

(** ** The monad of driver methods *)

(** A method takes the driver object and gives its result, the object
    afterwards and the transactions it issued. *)
Definition M (A : Type) : Type := AB1805 -> A * AB1805 * list Txn.

Definition ret {A : Type} (a : A) : M A := fun s => (a, s, []).

Definition bind {A B : Type} (m : M A) (k : A -> M B) : M B :=
  fun s =>
    let '(a, s1, t1) := m s in
    let '(b, s2, t2) := k a s1 in
    (b, s2, t1 ++ t2).

Declare Scope drv_scope.
Delimit Scope drv_scope with drv.
Notation "x <- m ;; k" := (bind m (fun x => k))
  (at level 61, m at next level, right associativity) : drv_scope.
Notation "m ;; k" := (bind m (fun _ => k))
  (at level 61, right associativity) : drv_scope.
Open Scope drv_scope.

Definition result {A : Type} (r : A * AB1805 * list Txn) : A := fst (fst r).
Definition final {A : Type} (r : A * AB1805 * list Txn) : AB1805 := snd (fst r).
Definition trace {A : Type} (r : A * AB1805 * list Txn) : list Txn := snd r.

Definition modify (f : AB1805 -> AB1805) : M unit := fun s => (tt, f s, []).

(** [if (c) { m }] *)
Definition when (c : bool) (m : M unit) : M unit := if c then m else ret tt.

(** [bResult = step; if (!bResult) { _log.error(...); return failed; }]
    followed by [rest]. *)
Definition orFail {A : Type} (failed : A) (step : M bool) (rest : M A) : M A :=
  bResult <- step ;; if bResult then rest else ret failed.

Notation "'must!' step ;; rest" := (orFail false step rest)
  (at level 61, step at next level, right associativity) : drv_scope.

(** *** Transport primitives *)

(** [wire.lock()] *)
Definition wire_lock : M unit :=
  modify (fun s =>
    let w := wire s in set_wire (mkWire (regs w) (acks w) (S (lockDepth w))) s).

(** [wire.unlock()] *)
Definition wire_unlock : M unit :=
  modify (fun s =>
    let w := wire s in set_wire (mkWire (regs w) (acks w) (pred (lockDepth w))) s).

(** The outcome of the next transaction. *)
Definition next_ack (w : TwoWire) : bool := hd true (acks w).

(** The transport moves on to the next scheduled outcome. *)
Definition pop_ack (s : AB1805) : AB1805 :=
  let w := wire s in set_wire (mkWire (regs w) (tl (acks w)) (lockDepth w)) s.

(** The chip's register file becomes [r]. *)
Definition set_regs (r : Z -> Z) (s : AB1805) : AB1805 :=
  let w := wire s in set_wire (mkWire r (acks w) (lockDepth w)) s.

(** [beginTransmission; write(regAddr); endTransmission(false);
    requestFrom(num); read() x num]: the bytes, when the transaction
    completes. *)
Definition bus_read (regAddr num : Z) : M (option (list Z)) :=
  fun s =>
    let ok := next_ack (wire s) in
    (if ok then Some (burst (regs (wire s)) regAddr (Z.to_nat num)) else None,
     pop_ack s,
     [Rd regAddr num ok]).

(** [beginTransmission; write(regAddr); write(array[ii]) x num;
    endTransmission(true)]: the chip stores the bytes when the
    transaction completes. *)
Definition bus_write (regAddr : Z) (array : list Z) : M bool :=
  fun s =>
    let ok := next_ack (wire s) in
    (ok,
     pop_ack (if ok then set_regs (store (regs (wire s)) regAddr array) s else s),
     [Wr regAddr array ok]).

(** ** Register access layer *)

(** [AB1805::readRegisters]; [array] is filled only on success. *)
Definition readRegisters (regAddr num : Z) (lock : bool) : M (option (list Z)) :=
  when lock wire_lock ;;
  r <- bus_read (u8 regAddr) num ;;
  when lock wire_unlock ;;
  ret r.

(** [bool AB1805::readRegister(uint8_t regAddr, uint8_t &value, bool lock)] *)
Definition readRegister (regAddr : Z) (lock : bool) : M (option Z) :=
  r <- readRegisters regAddr 1 lock ;;
  ret (match r with Some (value :: _) => Some value | _ => None end).

(** [uint8_t AB1805::readRegister(uint8_t regAddr, bool lock)]: the value,
    or 0 when the register could not be read. *)
Definition readRegisterValue (regAddr : Z) (lock : bool) : M Z :=
  r <- readRegister regAddr lock ;;
  ret (match r with Some value => value | None => 0 end).

(** [AB1805::writeRegisters]; [num] is the length of [array]. *)
Definition writeRegisters (regAddr : Z) (array : list Z) (lock : bool) : M bool :=
  when lock wire_lock ;;
  bResult <- bus_write (u8 regAddr) array ;;
  when lock wire_unlock ;;
  ret bResult.

(** [AB1805::writeRegister] *)
Definition writeRegister (regAddr value : Z) (lock : bool) : M bool :=
  writeRegisters regAddr [u8 value] lock.

(** [AB1805::maskRegister] *)
Definition maskRegister (regAddr andValue orValue : Z) (lock : bool) : M bool :=
  when lock wire_lock ;;
  r <- readRegister regAddr false ;;
  bResult <- match r with
             | Some value =>
                 let newValue := u8 (Z.lor (Z.land value (u8 andValue)) (u8 orValue)) in
                 if negb (newValue =? value)
                 then writeRegister regAddr newValue false
                 else ret true
             | None => ret false
             end ;;
  when lock wire_unlock ;;
  ret bResult.

(** [AB1805::isBitClear] *)
Definition isBitClear (regAddr bitMask : Z) (lock : bool) : M bool :=
  r <- readRegister regAddr lock ;;
  ret (match r with
       | Some value => Z.land value (u8 bitMask) =? 0
       | None => false
       end).

(** [AB1805::isBitSet] *)
Definition isBitSet (regAddr bitMask : Z) (lock : bool) : M bool :=
  r <- readRegister regAddr lock ;;
  ret (match r with
       | Some value => negb (Z.land value (u8 bitMask) =? 0)
       | None => false
       end).

(** [AB1805::clearRegisterBit] *)
Definition clearRegisterBit (regAddr bitMask : Z) (lock : bool) : M bool :=
  maskRegister regAddr (Z.lnot (u8 bitMask)) 0x00 lock.

(** [AB1805::setRegisterBit] *)
Definition setRegisterBit (regAddr bitMask : Z) (lock : bool) : M bool :=
  maskRegister regAddr 0xff bitMask lock.

(** [bool isRTCSet()] of the header. *)
Definition isRTCSet : M bool := isBitClear REG_CTRL_1 REG_CTRL_1_WRTC true.

(** ** Driver methods *)

(** [AB1805::resetConfig]: the result of every register operation is
    dropped. *)
Definition resetConfig (flags : Z) : M bool :=
  wire_lock ;;
  writeRegister REG_STATUS REG_STATUS_DEFAULT false ;;
  writeRegister REG_CTRL_1 REG_CTRL_1_DEFAULT false ;;
  writeRegister REG_CTRL_2 REG_CTRL_2_DEFAULT false ;;
  writeRegister REG_INT_MASK REG_INT_MASK_DEFAULT false ;;
  writeRegister REG_SQW REG_SQW_DEFAULT false ;;
  writeRegister REG_SLEEP_CTRL REG_SLEEP_CTRL_DEFAULT false ;;
  (if negb (Z.land flags RESET_PRESERVE_REPEATING_TIMER =? 0)
   then maskRegister REG_TIMER_CTRL (Z.lnot REG_TIMER_CTRL_RPT_MASK)
          (Z.land REG_TIMER_CTRL_DEFAULT (Z.lnot REG_TIMER_CTRL_RPT_MASK)) false
   else writeRegister REG_TIMER_CTRL REG_TIMER_CTRL_DEFAULT false) ;;
  writeRegister REG_TIMER REG_TIMER_DEFAULT false ;;
  writeRegister REG_TIMER_INITIAL REG_TIMER_INITIAL_DEFAULT false ;;
  writeRegister REG_WDT REG_WDT_DEFAULT false ;;
  let oscCtrl :=
    if negb (Z.land flags RESET_DISABLE_XT =? 0)
    then u8 (Z.lor REG_OSC_CTRL_DEFAULT (Z.lor REG_OSC_CTRL_OSEL REG_OSC_CTRL_FOS))
    else REG_OSC_CTRL_DEFAULT in
  writeRegister REG_OSC_CTRL oscCtrl false ;;
  writeRegister REG_TRICKLE REG_TRICKLE_DEFAULT false ;;
  writeRegister REG_BREF_CTRL REG_BREF_CTRL_DEFAULT false ;;
  writeRegister REG_AFCTRL REG_AFCTRL_DEFAULT false ;;
  writeRegister REG_BATMODE_IO REG_BATMODE_IO_DEFAULT false ;;
  writeRegister REG_OCTRL REG_OCTRL_DEFAULT false ;;
  wire_unlock ;;
  ret true.

(** [AB1805::updateWakeReason] *)
Definition updateWakeReason : M bool :=
  r <- readRegister REG_STATUS true ;;
  match r with
  | None => ret false
  | Some status =>
      (if negb (Z.land status REG_STATUS_WDT =? 0) then
         modify (set_wakeReason WATCHDOG) ;;
         clearRegisterBit REG_STATUS REG_STATUS_WDT true ;;
         ret tt
       else
         slst <- isBitSet REG_SLEEP_CTRL REG_SLEEP_CTRL_SLST true ;;
         if slst then
           modify (set_wakeReason DEEP_POWER_DOWN)
         else if negb (Z.land status REG_STATUS_TIM =? 0) then
           modify (set_wakeReason COUNTDOWN_TIMER) ;;
           clearRegisterBit REG_STATUS REG_STATUS_TIM true ;;
           ret tt
         else if negb (Z.land status REG_STATUS_ALM =? 0) then
           modify (set_wakeReason ALARM) ;;
           clearRegisterBit REG_STATUS REG_STATUS_ALM true ;;
           ret tt
         else ret tt) ;;
      ret true
  end.

(** The value [setWDT] gives [fourSecs] for a non-zero period. *)
Definition wdtFourSecs (seconds : Z) : Z :=
  let fourSecs := Z.quot seconds 4 in
  let fourSecs := if fourSecs <? 1 then 1 else fourSecs in
  if fourSecs >? 31 then 31 else fourSecs.

(** [AB1805::setWDT] *)
Definition setWDT (seconds : Z) : M bool :=
  fun s =>
    let seconds := if seconds <? 0 then watchdogSecs s else seconds in
    if seconds =? 0 then
      (bResult <- writeRegister REG_WDT 0x00 true ;;
       modify (set_watchdog 0 0) ;;
       ret bResult) s
    else
      let fourSecs := wdtFourSecs seconds in
      (bResult <- writeRegister REG_WDT
                    (Z.lor (Z.lor REG_WDT_RESET (Z.shiftl fourSecs 2))
                           REG_WDT_WRB_1_4_HZ) true ;;
       modify (set_watchdog seconds (fourSecs * 2000)) ;;
       ret bResult) s.

(** [AB1805::setRtcFromTm] *)
Definition setRtcFromTm (timeptr : tm) (lock : bool) : M bool :=
  when lock wire_lock ;;
  let array := 0x00 :: tmToRegisters timeptr true in
  bResult <- setRegisterBit REG_CTRL_1 REG_CTRL_1_WRTC true ;;
  bResult <- (if bResult then
                bResult <- writeRegisters REG_HUNDREDTH array false ;;
                (if bResult
                 then clearRegisterBit REG_CTRL_1 REG_CTRL_1_WRTC true ;; ret tt
                 else ret tt) ;;
                ret bResult
              else ret false) ;;
  when lock wire_unlock ;;
  ret bResult.

(** [AB1805::getRtcAsTm]: the result and the caller's struct afterwards. *)
Definition getRtcAsTm (timeptr : tm) : M (bool * tm) :=
  isClear <- isBitClear REG_CTRL_1 REG_CTRL_1_WRTC true ;;
  r <- (if isClear then
          r <- readRegisters REG_HUNDREDTH 8 true ;;
          ret (match r with
               | Some array => (true, registersToTm (tl array) timeptr true)
               | None => (false, timeptr)
               end)
        else ret (false, timeptr)) ;;
  ret (if fst r then r else (false, tm_zero)).

(** [AB1805::setCountdownTimer] *)
Definition setCountdownTimer (value : Z) (minutes : bool) : M bool :=
  must! writeRegister REG_STATUS REG_STATUS_DEFAULT true ;;
  must! writeRegister REG_TIMER_CTRL REG_TIMER_CTRL_DEFAULT true ;;
  let value := if value <? 1 then 1 else value in
  let value := if value >? 255 then 255 else value in
  must! writeRegister REG_TIMER value true ;;
  must! setRegisterBit REG_INT_MASK REG_INT_MASK_TIE true ;;
  let tfs := if minutes then REG_TIMER_CTRL_TFS_1_60 else REG_TIMER_CTRL_TFS_1 in
  must! writeRegister REG_TIMER_CTRL (Z.lor REG_TIMER_CTRL_TE tfs) true ;;
  ret true.

(** [AB1805::repeatingInterrupt]; the two reads after the alarm write are
    the block marked TESTING in the source, whose results are only logged. *)
Definition repeatingInterrupt (timeptr : tm) (rptValue : Z) : M bool :=
  must! setWDT 0 ;;
  must! clearRegisterBit REG_STATUS REG_STATUS_ALM true ;;
  let array := 0x00 :: tmToRegisters timeptr false in
  must! writeRegisters REG_HUNDREDTH_ALARM array true ;;
  readRegisters REG_HUNDREDTH_ALARM 7 true ;;
  readRegisters REG_HUNDREDTH 8 true ;;
  must! maskRegister REG_CTRL_2 (Z.lnot REG_CTRL_2_OUT1S_MASK)
          REG_CTRL_2_OUT1S_nAIRQ true ;;
  must! setRegisterBit REG_INT_MASK REG_INT_MASK_AIE true ;;
  must! maskRegister REG_TIMER_CTRL (Z.lnot REG_TIMER_CTRL_RPT_MASK)
          (Z.land (u8 rptValue) REG_TIMER_CTRL_RPT_MASK) true ;;
  ret true.

(** [AB1805::interruptAtTm] *)
Definition interruptAtTm (timeptr : tm) : M bool :=
  repeatingInterrupt timeptr REG_TIMER_CTRL_RPT_DATE.

(** [AB1805::clearRepeatingInterrupt] *)
Definition clearRepeatingInterrupt : M bool :=
  must! maskRegister REG_CTRL_2 (Z.lnot REG_CTRL_2_OUT1S_MASK)
          REG_CTRL_2_OUT1S_nIRQ true ;;
  must! clearRegisterBit REG_INT_MASK REG_INT_MASK_AIE true ;;
  must! maskRegister REG_TIMER_CTRL (Z.lnot REG_TIMER_CTRL_RPT_MASK)
          REG_TIMER_CTRL_RPT_DIS true ;;
  ret true.

(** [AB1805::interruptCountdownTimer] *)
Definition interruptCountdownTimer (value : Z) (minutes : bool) : M bool :=
  must! setWDT 0 ;;
  must! maskRegister REG_CTRL_2 (Z.lnot REG_CTRL_2_OUT1S_MASK)
          REG_CTRL_2_OUT1S_nIRQ true ;;
  must! setCountdownTimer value minutes ;;
  ret true.

(** [AB1805::setTrickle] *)
Definition setTrickle (diodeAndRout : Z) : M bool :=
  must! writeRegister REG_CONFIG_KEY REG_CONFIG_KEY_OTHER true ;;
  let regValue :=
    if negb (u8 diodeAndRout =? 0)
    then u8 (Z.lor REG_TRICKLE_TCS_ENABLE (u8 diodeAndRout))
    else 0x00 in
  must! writeRegister REG_TRICKLE regValue true ;;
  ret true.

(** How a call of [deepPowerDown] ends: it returns, or the host is reset
    by [System.reset()]. *)
Inductive Outcome : Type :=
| Returned (bResult : bool)
| HostReset.

(** The polling loop of [deepPowerDown]; the clock decides how many times
    its condition [millis() - start < seconds * 1000] holds. *)
Fixpoint pollSleepCtrl (polls : nat) : M unit :=
  match polls with
  | O => ret tt
  | S k => readRegisterValue REG_SLEEP_CTRL true ;; pollSleepCtrl k
  end.

(** [AB1805::deepPowerDown], compiled with [SET_D8_LOW] as the source
    defines it. *)
Definition deepPowerDown (seconds : Z) (polls : nat) : M Outcome :=
  let failed := Returned false in
  orFail failed (setWDT 0) (
  orFail failed (setRegisterBit REG_OCTRL REG_OCTRL_O1EN true) (
  orFail failed (clearRegisterBit REG_CTRL_1 REG_CTRL_1_OUT true) (
  orFail failed (writeRegister REG_SQW REG_SQW_DEFAULT true) (
  orFail failed (maskRegister REG_CTRL_2 (Z.lnot REG_CTRL_2_OUT1S_MASK)
                   REG_CTRL_2_OUT1S_SQW true) (
  orFail failed (setCountdownTimer seconds false) (
  orFail failed (maskRegister REG_CTRL_1
                   (u8 (Z.lnot (Z.lor REG_CTRL_1_STOP REG_CTRL_1_RSP)))
                   REG_CTRL_1_PWR2 true) (
  orFail failed (setRegisterBit REG_OSC_CTRL REG_OSC_CTRL_PWGT true) (
  orFail failed (maskRegister REG_CTRL_2 (u8 (Z.lnot REG_CTRL_2_OUT2S_MASK))
                   REG_CTRL_2_OUT2S_SLEEP true) (
  orFail failed (writeRegister REG_SLEEP_CTRL
                   (Z.lor REG_SLEEP_CTRL_SLP REG_SLEEP_CTRL_SLRES) true) (
  pollSleepCtrl polls ;;
  ret HostReset)))))))))).

(** *** RAM store *)

(** The loop of [AB1805::readRam].  [data] holds the bytes stored in the
    caller's buffer so far.  Each round consumes at least one byte, so
    [fuel] bounds the rounds; [None] means the fuel ran out. *)
Fixpoint readRam_loop (fuel : nat) (ramAddr dataLen : Z) (data : list Z)
  : M (option (bool * list Z)) :=
  if dataLen >? 0 then
    match fuel with
    | O => ret None
    | S fuel' =>
        let count := dataLen in
        let count := if count >? 32 then 32 else count in
        let count :=
          if (ramAddr <? 128) && (usize (ramAddr + count) >? 128)
          then usize (128 - ramAddr) else count in
        (if ramAddr <? 128
         then clearRegisterBit REG_EXT_ADDR REG_EXT_ADDR_XADA true
         else setRegisterBit REG_EXT_ADDR REG_EXT_ADDR_XADA true) ;;
        r <- readRegisters (REG_ALT_RAM + Z.land ramAddr 0x7f) count false ;;
        match r with
        | None => ret (Some (false, data))
        | Some bytes =>
            readRam_loop fuel' (usize (ramAddr + count))
                         (usize (dataLen - count)) (data ++ bytes)
        end
    end
  else ret (Some (true, data)).

(** [AB1805::readRam]: the result and the bytes read. *)
Definition readRam (ramAddr dataLen : Z) (lock : bool)
  : M (option (bool * list Z)) :=
  when lock wire_lock ;;
  r <- readRam_loop (Z.to_nat dataLen) ramAddr dataLen [] ;;
  when lock wire_unlock ;;
  ret r.

(** The loop of [AB1805::writeRam]; [data] is what the advancing pointer
    still has in front of it. *)
Fixpoint writeRam_loop (fuel : nat) (ramAddr : Z) (data : list Z) (dataLen : Z)
  : M (option bool) :=
  if dataLen >? 0 then
    match fuel with
    | O => ret None
    | S fuel' =>
        let count := dataLen in
        let count := if count >? 31 then 31 else count in
        let count :=
          if (ramAddr <? 128) && (usize (ramAddr + count) >? 128)
          then usize (128 - ramAddr) else count in
        (if ramAddr <? 128
         then clearRegisterBit REG_EXT_ADDR REG_EXT_ADDR_XADA true
         else setRegisterBit REG_EXT_ADDR REG_EXT_ADDR_XADA true) ;;
        bResult <- writeRegisters (REG_ALT_RAM + Z.land ramAddr 0x7f)
                     (firstn (Z.to_nat count) data) false ;;
        if bResult
        then writeRam_loop fuel' (usize (ramAddr + count))
               (skipn (Z.to_nat count) data) (usize (dataLen - count))
        else ret (Some false)
    end
  else ret (Some true).

(** [AB1805::writeRam] *)
Definition writeRam (ramAddr : Z) (data : list Z) (dataLen : Z) (lock : bool)
  : M (option bool) :=
  when lock wire_lock ;;
  r <- writeRam_loop (Z.to_nat dataLen) ramAddr data dataLen ;;
  when lock wire_unlock ;;
  ret r.

(** ** Vocabulary of the properties *)

(** [(v & mask) != 0] *)
Definition bit_set (v mask : Z) : bool := negb (Z.land v mask =? 0).

(** *** Transactions and failures *)

(** Every transaction a method can issue satisfies [P], whatever the
    state it starts from. *)
Definition emits {A : Type} (P : Txn -> Prop) (m : M A) : Prop :=
  forall s, Forall P (trace (m s)).

(** A call that issued [tr] stopped at the first failure among the
    transactions selected by [critical]: such a failed transaction is the
    last one issued, and the call reported failure. *)
Definition stops_at_failure (critical : Txn -> bool) (failed : bool)
    (tr : list Txn) : Prop :=
  forall pre t post,
    tr = pre ++ t :: post ->
    critical t = true -> txn_ok t = false ->
    post = [] /\ failed = true.

(** The same, read along the trace. *)
Fixpoint stops_along (critical : Txn -> bool) (failed : bool)
    (tr : list Txn) : Prop :=
  match tr with
  | [] => True
  | t :: rest =>
      (critical t = true -> txn_ok t = false -> rest = [] /\ failed = true)
      /\ stops_along critical failed rest
  end.

(** No critical transaction of [tr] failed. *)
Definition unfailed (critical : Txn -> bool) (tr : list Txn) : Prop :=
  Forall (fun t => critical t = true -> txn_ok t = true) tr.

(** A method aborts on the first failed critical transaction, from
    whatever state it starts; [failed] tells which results report
    failure. *)
Definition fail_fast_by {A : Type} (failed : A -> bool)
    (critical : Txn -> bool) (m : M A) : Prop :=
  forall s, stops_at_failure critical (failed (result (m s))) (trace (m s)).

(** For a method returning [bool], failure is [false]. *)
Definition fail_fast (critical : Txn -> bool) (m : M bool) : Prop :=
  fail_fast_by negb critical m.

(** [deepPowerDown] reports failure by returning [false]. *)
Definition returned_false (o : Outcome) : bool :=
  match o with
  | Returned false => true
  | _ => false
  end.

(** Every transaction counts. *)
Definition every_txn (t : Txn) : bool := true.

(** The read-backs of the TESTING block of [repeatingInterrupt]. *)
Definition is_readback (t : Txn) : bool :=
  match t with
  | Rd a _ _ => (a =? REG_HUNDREDTH_ALARM) || (a =? REG_HUNDREDTH)
  | Wr _ _ _ => false
  end.

(** The polls of the sleep-control register in [deepPowerDown]. *)
Definition is_sleep_poll (t : Txn) : bool :=
  match t with
  | Rd a _ _ => a =? REG_SLEEP_CTRL
  | Wr _ _ _ => false
  end.

(** The only byte sent to the timer register is [value] clamped to
    1..255. *)
Definition timer_clamped (value : Z) (t : Txn) : Prop :=
  txn_addr t = REG_TIMER ->
  exists ok, t = Wr REG_TIMER [Z.min 255 (Z.max 1 value)] ok.

(** *** Wake-reason priority, in the words of the specification *)

(** The conditions in priority order, each with the reason it stands for
    and the status bit that resolving it consumes (none for deep power
    down, whose bit is a state flag). *)
Definition wake_priority (status sleepCtrl : Z) : list (bool * WakeReason * Z) :=
  [ (bit_set status REG_STATUS_WDT, WATCHDOG, REG_STATUS_WDT);
    (bit_set sleepCtrl REG_SLEEP_CTRL_SLST, DEEP_POWER_DOWN, 0);
    (bit_set status REG_STATUS_TIM, COUNTDOWN_TIMER, REG_STATUS_TIM);
    (bit_set status REG_STATUS_ALM, ALARM, REG_STATUS_ALM) ].

(** The first condition that holds wins. *)
Definition first_wake (status sleepCtrl : Z) : option (bool * WakeReason * Z) :=
  find (fun c => fst (fst c)) (wake_priority status sleepCtrl).

(** *** The "RTC has been set" flag *)

(** The WRTC bit of control register 1, as the chip holds it. *)
Definition wrtc (s : AB1805) : bool :=
  bit_set (reg s REG_CTRL_1) REG_CTRL_1_WRTC.

(** A write to control register 1 that leaves WRTC clear. *)
Definition clears_wrtc (t : Txn) : bool :=
  match t with
  | Wr a [v] _ => (a =? REG_CTRL_1) && negb (bit_set v REG_CTRL_1_WRTC)
  | _ => false
  end.

(** *** Chunked RAM transfers, in the words of the specification *)

(** The chip's registers after a transaction: a completed write stores
    its bytes, anything else changes nothing. *)
Definition chip_after (r : Z -> Z) (t : Txn) : Z -> Z :=
  match t with
  | Wr a d true => store r a d
  | _ => r
  end.

(** The chip's registers after a sequence of transactions. *)
Definition replay (tr : list Txn) (r : Z -> Z) : Z -> Z :=
  fold_left chip_after tr r.

(** The bank-select bit XADA of the extension-address register. *)
Definition bank (r : Z -> Z) : bool :=
  bit_set (u8 (r REG_EXT_ADDR)) REG_EXT_ADDR_XADA.

(** A chunk of [c] bytes at RAM address [a], with [len] bytes to go, is
    within the burst limit and within one 128-byte bank. *)
Definition fits (limit a len c : Z) : Prop :=
  1 <= c /\ c <= limit /\ c <= len /\ a / 128 = (a + c - 1) / 128.

(** The traffic [sel] is an access to the bank-select bit for RAM address
    [a]: it addresses the extension-address register only, and when
    every transaction of it completes it leaves the bit set exactly when
    [a] is 128 or above.  When one of them fails nothing is said about
    the bit: the code does not look at the outcome of this access and
    moves the chunk all the same. *)
Definition bank_access (a : Z) (r : Z -> Z) (sel : list Txn) : Prop :=
  Forall (fun x => txn_addr x = REG_EXT_ADDR) sel
  /\ (Forall (fun x => txn_ok x = true) sel ->
      bank (replay sel r) = (128 <=? a)).

(** The transaction [t] carries the chunk of [c] bytes at RAM address
    [a]: a write or a read as [wr] says, of [c] bytes, at register
    address [REG_ALT_RAM + a mod 128]. *)
Definition carries (wr : bool) (a c : Z) (t : Txn) : Prop :=
  txn_is_write t = wr /\ txn_addr t = REG_ALT_RAM + a mod 128 /\ txn_len t = c.

(** [chunked limit wr a len r tr]: starting with the chip registers [r],
    the transactions [tr] move the [len] bytes at RAM address [a] chunk
    by chunk.  Each chunk fits, is preceded by an access to the
    bank-select bit (a [bank_access], which leaves the bank of the chunk
    selected when it completes), and is carried by one transaction; the
    transfer goes on to the next chunk when that transaction completes
    and stops when it fails. *)
Inductive chunked (limit : Z) (wr : bool) : Z -> Z -> (Z -> Z) -> list Txn -> Prop :=
| chunked_done a r :
    chunked limit wr a 0 r []
| chunked_chunk a len c r sel t rest :
    fits limit a len c -> bank_access a r sel -> carries wr a c t ->
    txn_ok t = true ->
    chunked limit wr (a + c) (len - c) (replay (sel ++ [t]) r) rest ->
    chunked limit wr a len r (sel ++ t :: rest)
| chunked_abort a len c r sel t :
    fits limit a len c -> bank_access a r sel -> carries wr a c t ->
    txn_ok t = false ->
    chunked limit wr a len r (sel ++ [t]).

(** ** Sample states and inputs *)

(** A chip with the register file [r], on a transport with the schedule
    [schedule], behind a freshly constructed driver object. *)
Definition driver_on (r : Z -> Z) (schedule : list bool) : AB1805 :=
  mkAB1805 (mkWire r schedule 0) 0 0 UNKNOWN.

(** All registers zero, no failure scheduled. *)
Definition idle : AB1805 := driver_on (fun _ => 0) [].

(** All registers zero; the first transaction fails. *)
Definition first_fails : AB1805 := driver_on (fun _ => 0) [false].

(** All registers zero; the second transaction fails. *)
Definition second_fails : AB1805 := driver_on (fun _ => 0) [true; false].

(** All registers zero; the fourth transaction fails. *)
Definition fourth_fails : AB1805 :=
  driver_on (fun _ => 0) [true; true; true; false].

(** A chip after a cold power-up, as far as control register 1 goes: it
    holds its default, with WRTC set; the other registers read zero. *)
Definition cold_regs : Z -> Z :=
  fun a => if a =? REG_CTRL_1 then REG_CTRL_1_DEFAULT else 0.

(** The driver in front of a cold chip, no failure scheduled. *)
Definition cold : AB1805 := driver_on cold_regs [].

(** A cold chip on a transport whose second transaction fails. *)
Definition cold_second_fails : AB1805 := driver_on cold_regs [true; false].

(** A cold chip on a transport whose third transaction fails. *)
Definition cold_third_fails : AB1805 := driver_on cold_regs [true; true; false].

(** A chip whose clock was programmed earlier (WRTC clear), on a
    transport whose next transaction fails. *)
Definition set_before_then_fault : AB1805 :=
  driver_on (fun a => if a =? REG_CTRL_1 then 0x12 else 0) [false].

(** A chip whose status register has both the watchdog and the alarm bit
    set. *)
Definition wdt_and_alarm : AB1805 :=
  driver_on (fun a => if a =? REG_STATUS then 0x24 else 0) [].

(** A chip that went through deep power down (SLST set) while its
    countdown timer also fired (TIM set). *)
Definition slept_and_timer : AB1805 :=
  driver_on (fun a => if a =? REG_SLEEP_CTRL then REG_SLEEP_CTRL_SLST
                      else if a =? REG_STATUS then REG_STATUS_TIM else 0) [].

(** The same chip on a transport whose second transaction fails. *)
Definition slept_and_timer_unread : AB1805 :=
  driver_on (fun a => if a =? REG_SLEEP_CTRL then REG_SLEEP_CTRL_SLST
                      else if a =? REG_STATUS then REG_STATUS_TIM else 0)
            [true; false].

(** A chip whose watchdog flag is set, on a transport whose third
    transaction fails. *)
Definition wdt_then_fault : AB1805 :=
  driver_on (fun a => if a =? REG_STATUS then REG_STATUS_WDT else 0)
            [true; true; false].

(** The bytes 0, 1, ..., n-1. *)
Definition ramp (n : nat) : list Z := map Z.of_nat (seq 0 n).


(** ** The remaining methods of the driver *)

(** *** Register map, continued *)

Definition REG_OSC_STATUS : Z := 0x1d.

Definition REG_OSC_STATUS_OMODE : Z := 0x01.

Definition REG_ID0 : Z := 0x28.

Definition REG_ID0_AB18XX : Z := 0x18.

Definition REG_ID1 : Z := 0x29.

Definition REG_ID1_ABXX05 : Z := 0x05.

Definition REG_ASTAT : Z := 0x2f.

Definition REG_ASTAT_BBOD : Z := 0x80.

Definition REG_ASTAT_BMIN : Z := 0x40.

(** *** Chip detection and status queries *)

(** The wait for FOUT at the head of [detectChip]: [samples] are the
    levels [digitalRead(foutPin)] gives on the rounds the clock allows
    ([true] for HIGH); the value is the local [ready]. *)
Fixpoint waitFOUT (samples : list bool) : bool :=
  match samples with
  | [] => false
  | level :: rest => if level then true else waitFOUT rest
  end.

(** [AB1805::detectChip].  [fout] is [None] when [foutPin] is
    [PIN_INVALID] and holds the samples of the pin otherwise; the source
    uses [ready] for logging only. *)
Definition detectChip (fout : option (list bool)) : M bool :=
  let ready := match fout with
               | Some samples => waitFOUT samples
               | None => false
               end in
  r <- readRegister REG_ID0 true ;;
  match r with
  | Some value =>
      if value =? REG_ID0_AB18XX then
        r <- readRegister REG_ID1 true ;;
        ret (match r with
             | Some value => value =? REG_ID1_ABXX05
             | None => false
             end)
      else ret false
  | None => ret false
  end.

(** [AB1805::usingRCOscillator] *)
Definition usingRCOscillator : M bool :=
  r <- readRegister REG_OSC_STATUS true ;;
  ret (match r with
       | Some value => negb (Z.land value REG_OSC_STATUS_OMODE =? 0)
       | None => false
       end).

(** [AB1805::checkVBAT]: the result and [isAbove]. *)
Definition checkVBAT (mask : Z) : M (bool * bool) :=
  r <- readRegister REG_TRICKLE true ;;
  match r with
  | None => ret (false, false)
  | Some trickleValue =>
      (if negb (trickleValue =? 0) then setTrickle 0 ;; ret tt else ret tt) ;;
      r <- readRegister REG_ASTAT true ;;
      let isAbove := match r with
                     | Some aStatus => negb (Z.land aStatus (u8 mask) =? 0)
                     | None => false
                     end in
      (if negb (trickleValue =? 0)
       then setTrickle trickleValue ;; ret tt else ret tt) ;;
      ret (true, isAbove)
  end.

(** [bool isVBATAboveMin()] of the header. *)
Definition isVBATAboveMin : M bool :=
  r <- checkVBAT REG_ASTAT_BMIN ;; ret (snd r).

(** [bool isVBATAboveBREF()] of the header. *)
Definition isVBATAboveBREF : M bool :=
  r <- checkVBAT REG_ASTAT_BBOD ;; ret (snd r).

(** *** Watchdog helpers *)

(** [bool stopWDT()] of the header. *)
Definition stopWDT : M bool := setWDT 0.

(** [bool resumeWDT()] of the header. *)
Definition resumeWDT : M bool := setWDT (-1).

(** [system_event_t], as far as the driver tells the events apart. *)
Inductive system_event_t : Type :=
| reset
| other_event.

(** [AB1805::systemEvent] *)
Definition systemEvent (event : system_event_t) (param : Z) : M unit :=
  fun s =>
    match event with
    | reset =>
        if negb (watchdogSecs s =? 0) then (setWDT 0 ;; ret tt) s else ret tt s
    | other_event => ret tt s
    end.

(** *** Erasing the RAM *)

(** The [for] loop of [AB1805::eraseRam] from index [ii] on, [rounds]
    rounds being left; a failed write breaks out of it. *)
Fixpoint eraseRam_loop (rounds : nat) (ii : Z) : M (option bool) :=
  match rounds with
  | O => ret (Some true)
  | S rounds' =>
      r <- writeRam (usize (ii * 16)) (repeat 0 16) 16 false ;;
      match r with
      | Some true => eraseRam_loop rounds' (ii + 1)
      | _ => ret r
      end
  end.

(** [AB1805::eraseRam] *)
Definition eraseRam (lock : bool) : M (option bool) :=
  when lock wire_lock ;;
  r <- eraseRam_loop 16 0 ;;
  when lock wire_unlock ;;
  ret r.

(** ** Vocabulary of the further properties *)

(** A byte holding two decimal digits. *)
Definition is_bcd (b : Z) : bool :=
  (0 <=? b) && (b <? 256) && (Z.shiftr b 4 <=? 9) && (Z.land b 0x0f <=? 9).

(** A method gives the I2C lock back as often as it takes it. *)
Definition keeps_lock {A : Type} (m : M A) : Prop :=
  forall s, lockDepth (wire (final (m s))) = lockDepth (wire s).

(** The members of the driver object besides the transport. *)
Definition members (s : AB1805) : Z * Z * WakeReason :=
  (watchdogSecs s, watchdogUpdatePeriod s, wakeReason s).

(** [s'] is [s] after the chip stored [data] from register [a] on, with
    nothing else changed and no failure scheduled. *)
Definition stored (a : Z) (data : list Z) (s s' : AB1805) : Prop :=
  healthy s' /\ members s' = members s
  /\ forall x, reg s' x = store (reg s) a data x.

(** The number of nested locks a method leaves behind, as a function of
    the number it found. *)
Definition lock_effect {A : Type} (f : nat -> nat) (m : M A) : Prop :=
  forall s, lockDepth (wire (final (m s))) = f (lockDepth (wire s)).

(** ** Further sample states *)

(** A chip whose trickle charger is on (enable code, 0.3 V diode, 3 k)
    and whose battery is above both thresholds. *)
Definition trickle_on : AB1805 :=
  driver_on (fun a => if a =? REG_TRICKLE then 0xa5
                      else if a =? REG_ASTAT then 0xc0 else 0) [].

(** [Q] holds of the result, the driver object and the transactions of
    the method [m] run from [s]. *)
Definition after {A : Type} (m : M A) (s : AB1805)
    (Q : A -> AB1805 -> list Txn -> Prop) : Prop :=
  Q (result (m s)) (final (m s)) (trace (m s)).


(** A chip in use: clock set, countdown timer running every minute,
    watchdog armed at 124 s, a byte in the first RAM register. *)
Definition in_use : AB1805 :=
  mkAB1805
    (mkWire (fun a => if a =? REG_CTRL_1 then 0x12
                      else if a =? REG_TIMER_CTRL then 0xc3
                      else if a =? REG_WDT then 0xff
                      else if a =? REG_ALT_RAM then 0x5a else 0) [] 0)
    124 62000 UNKNOWN.

(** The bytes a completed write into the RAM window carried. *)
Definition ram_payload (t : Txn) : list Z :=
  match t with
  | Wr a d true => if REG_ALT_RAM <=? a then d else []
  | _ => []
  end.

(** The transaction addresses the RAM window. *)
Definition in_window (t : Txn) : bool := REG_ALT_RAM <=? txn_addr t.

(** ** The service routine *)

(** Arithmetic on [unsigned long] and [system_tick_t], both 32 bits wide
    on the devices the library runs on. *)
Definition ulong (x : Z) : Z := x mod 2 ^ 32.

(** The driver object together with the two members of [class AB1805]
    that only [loop] uses. *)
Record Service : Type := mkService {
  object : AB1805;
  timeSet : bool;
  lastWatchdogMillis : Z
}.

(** What one call of [loop] takes from its surroundings: the answers of
    [Time.isValid()] and [Particle.timeSyncedLast()], the calendar
    fields [gmtime] computes from [Time.now()], the two readings of
    [millis()], and what the uninitialised [tmstruct] of [getRtcAsTime]
    happens to hold. *)
Record Surroundings : Type := mkSurroundings {
  timeValid : bool;
  timeSyncedLast : Z;
  timeNow : tm;
  millisFirst : Z;
  millisSecond : Z;
  tmstruct : tm
}.

(** [AB1805::setRtcFromTime], from the fields [gmtime] computes. *)
Definition setRtcFromTime (fields : tm) (lock : bool) : M bool :=
  setRtcFromTm fields lock.

(** [AB1805::getRtcAsTime]: the result and, when it is [true], the
    fields [mktime] is applied to. *)
Definition getRtcAsTime (local : tm) : M (bool * option tm) :=
  r <- getRtcAsTm local ;;
  ret (fst r, if fst r then Some (snd r) else None).

(** [AB1805::loop]: the object afterwards and the transactions issued. *)
Definition loop (env : Surroundings) (l : Service) : Service * list Txn :=
  let a :=
    if negb (timeSet l) && timeValid env && negb (timeSyncedLast env =? 0)
    then
      let set := setRtcFromTime (timeNow env) true (object l) in
      let get := getRtcAsTime (tmstruct env) (final set) in
      (mkService (final get) true (lastWatchdogMillis l),
       trace set ++ trace get)
    else (l, []) in
  if negb (watchdogUpdatePeriod (object (fst a)) =? 0) then
    if ulong (millisFirst env - lastWatchdogMillis (fst a))
       >=? watchdogUpdatePeriod (object (fst a))
    then
      let tap := setWDT (-1) (object (fst a)) in
      (mkService (final tap) (timeSet (fst a)) (millisSecond env),
       snd a ++ trace tap)
    else a
  else a.

(** Surroundings in which the time is valid and synchronised and
    [millis()] reads [now]. *)
Definition synced_at (now : Z) : Surroundings :=
  mkSurroundings true 1 tm_leap now now tm_zero.
(** * Properties *)

(** ** Machine integers *)

Lemma u8_range x : 0 <= u8 x < 256.
Proof. unfold u8. apply Z.mod_pos_bound. lia. Qed.

Lemma u8_small x : 0 <= x < 256 -> u8 x = x.
Proof. intros H. unfold u8. apply Z.mod_small. exact H. Qed.

Lemma u8_idem x : u8 (u8 x) = u8 x.
Proof. apply u8_small, u8_range. Qed.

Lemma usize_small x : 0 <= x < 2 ^ 32 -> usize x = x.
Proof. intros H. unfold usize. apply Z.mod_small. exact H. Qed.

Lemma usize_range x : 0 <= usize x < 2 ^ 32.
Proof. unfold usize. apply Z.mod_pos_bound. reflexivity. Qed.

(** A property checked on every integer of [0 .. n-1] holds on that range. *)
Lemma checked_below (p : Z -> bool) (n : nat) :
  forallb (fun i => p (Z.of_nat i)) (seq 0 n) = true ->
  forall v, 0 <= v < Z.of_nat n -> p v = true.
Proof.
  intros Hall v Hv.
  rewrite forallb_forall in Hall.
  specialize (Hall (Z.to_nat v)).
  rewrite Z2Nat.id in Hall by lia.
  apply Hall. apply in_seq. lia.
Qed.

Lemma clear_bit_byte old mask :
  0 <= old < 256 -> 0 <= mask < 256 ->
  u8 (Z.lor (Z.land old (u8 (Z.lnot (u8 mask)))) (u8 0x00))
    = Z.land old (Z.lnot mask).
Proof.
  intros Ho Hm.
  pose (p := fun m => forallb (fun i =>
      u8 (Z.lor (Z.land (Z.of_nat i) (u8 (Z.lnot (u8 m)))) (u8 0x00))
        =? Z.land (Z.of_nat i) (Z.lnot m)) (seq 0 256)).
  assert (Hp : p mask = true).
  { apply (checked_below p 256); [vm_compute; reflexivity | lia]. }
  apply Z.eqb_eq.
  apply (checked_below (fun o =>
      u8 (Z.lor (Z.land o (u8 (Z.lnot (u8 mask)))) (u8 0x00))
        =? Z.land o (Z.lnot mask)) 256); [exact Hp | lia].
Qed.

Lemma set_bit_byte old mask :
  0 <= old < 256 -> 0 <= mask < 256 ->
  u8 (Z.lor (Z.land old (u8 0xff)) (u8 mask)) = Z.lor old mask.
Proof.
  intros Ho Hm.
  pose (p := fun m => forallb (fun i =>
      u8 (Z.lor (Z.land (Z.of_nat i) (u8 0xff)) (u8 m))
        =? Z.lor (Z.of_nat i) m) (seq 0 256)).
  assert (Hp : p mask = true).
  { apply (checked_below p 256); [vm_compute; reflexivity | lia]. }
  apply Z.eqb_eq.
  apply (checked_below (fun o =>
      u8 (Z.lor (Z.land o (u8 0xff)) (u8 mask)) =? Z.lor o mask) 256);
    [exact Hp | lia].
Qed.

Lemma land_lnot_0 v : Z.land v (Z.lnot 0) = v.
Proof. change (Z.lnot 0) with (-1). apply Z.land_m1_r. Qed.

(** ** Time codec *)

Lemma bcd_inverse v : 0 <= v <= 99 -> bcdToValue (valueToBcd v) = v.
Proof.
  intros Hv.
  apply Z.eqb_eq.
  apply (checked_below (fun x => bcdToValue (valueToBcd x) =? x) 100).
  - vm_compute. reflexivity.
  - lia.
Qed.

Lemma rem_100_century y : 100 <= y <= 199 -> Z.rem y 100 = y - 100.
Proof.
  intros Hy.
  rewrite Z.rem_mod_nonneg by lia.
  replace y with ((y - 100) + 1 * 100) by ring.
  rewrite Z.mod_add by lia.
  rewrite Z.mod_small by lia. ring.
Qed.

(** C6: for every [v] in 0..99, decoding the BCD encoding of [v] gives
    [v] back. *)
Theorem bcdToValue_valueToBcd (v : Z) :
  0 <= v <= 99 -> bcdToValue (valueToBcd v) = v.
Proof. exact (bcd_inverse v). Qed.

Lemma bcdToValue_valueToBcd_witness :
  0 <= 59 <= 99 /\ bcdToValue (valueToBcd 59) = 59.
Proof. split; [lia | apply (bcdToValue_valueToBcd 59); lia]. Defined.

(** 2024-02-29 23:59:58 (a Thursday) on the wire. *)
Example tmToRegisters_leap :
  tmToRegisters tm_leap true = [0x58; 0x59; 0x23; 0x29; 0x02; 0x24; 0x04]
  /\ tmToRegisters tm_leap false = [0x58; 0x59; 0x23; 0x29; 0x02; 0x04].
Proof. split; reflexivity. Qed.

(** C1 as stated fails: the epoch year 70 comes back as 170. *)
Lemma tm_roundtrip_epoch_differs :
  tm_documented tm_epoch /\
  registersToTm (tmToRegisters tm_epoch true) tm_epoch true <> tm_epoch /\
  tm_year (registersToTm (tmToRegisters tm_epoch true) tm_epoch true) = 170.
Proof.
  split; [|split].
  - unfold tm_documented; simpl; lia.
  - intros H. apply (f_equal tm_year) in H. vm_compute in H. discriminate H.
  - vm_compute. reflexivity.
Qed.

(** C1 (amended): for a calendar time whose fields are in the documented
    ranges and whose year lies in 2000..2099 ([tm_year] in 100..199),
    encoding with the year and decoding with the year restores the seven
    calendar fields; the two fields the codec never touches ([tm_yday],
    [tm_isdst]) are those of the struct decoded into, so decoding into
    the original struct yields it again. *)
Theorem registersToTm_tmToRegisters (t t0 : tm) :
  tm_documented t -> 100 <= tm_year t <= 199 ->
  registersToTm (tmToRegisters t true) t0 true =
    mkTm (tm_sec t) (tm_min t) (tm_hour t) (tm_mday t) (tm_mon t)
         (tm_year t) (tm_wday t) (tm_yday t0) (tm_isdst t0)
  /\ registersToTm (tmToRegisters t true) t true = t.
Proof.
  intros (Hs & Hmi & Hh & Hd & Hmo & Hw & _) Hy.
  assert (E : forall t1, registersToTm (tmToRegisters t true) t1 true =
    mkTm (tm_sec t) (tm_min t) (tm_hour t) (tm_mday t) (tm_mon t)
         (tm_year t) (tm_wday t) (tm_yday t1) (tm_isdst t1)).
  { intros t1. unfold registersToTm, tmToRegisters. cbn [app nth].
    rewrite (rem_100_century _ Hy).
    rewrite !bcd_inverse by lia.
    f_equal; lia. }
  split.
  - apply E.
  - rewrite E. destruct t; reflexivity.
Qed.

Lemma registersToTm_tmToRegisters_witness :
  tm_documented tm_leap /\ 100 <= tm_year tm_leap <= 199 /\
  registersToTm (tmToRegisters tm_leap true) tm_zero true =
    mkTm 58 59 23 29 1 124 4 0 0
  /\ registersToTm (tmToRegisters tm_leap true) tm_leap true = tm_leap.
Proof.
  assert (Hd : tm_documented tm_leap) by (unfold tm_documented; simpl; lia).
  assert (Hy : 100 <= tm_year tm_leap <= 199) by (simpl; lia).
  split; [exact Hd | split; [exact Hy |]].
  exact (registersToTm_tmToRegisters tm_leap tm_zero Hd Hy).
Defined.

(** ** The monad of driver methods *)

(** The monad laws, state by state. *)
Lemma bind_ret_l {A B} (a : A) (k : A -> M B) s : bind (ret a) k s = k a s.
Proof. unfold bind, ret. destruct (k a s) as [[b s2] t2]. reflexivity. Qed.

Lemma bind_ret_r {A} (m : M A) s : bind m ret s = m s.
Proof.
  unfold bind, ret. destruct (m s) as [[a s1] t1].
  rewrite app_nil_r. reflexivity.
Qed.

Lemma bind_assoc {A B C} (m : M A) (f : A -> M B) (g : B -> M C) s :
  bind (bind m f) g s = bind m (fun x => bind (f x) g) s.
Proof.
  unfold bind. destruct (m s) as [[a s1] t1].
  destruct (f a s1) as [[b s2] t2]. destruct (g b s2) as [[c s3] t3].
  rewrite app_assoc. reflexivity.
Qed.

(** The projections of a run, through [bind] and [ret]. *)
Lemma trace_bind {A B} (m : M A) (k : A -> M B) s :
  trace (bind m k s) = trace (m s) ++ trace (k (result (m s)) (final (m s))).
Proof.
  unfold bind, trace, result, final.
  destruct (m s) as [[a s1] t1]. cbn [fst snd].
  destruct (k a s1) as [[b s2] t2]. reflexivity.
Qed.

Lemma result_bind {A B} (m : M A) (k : A -> M B) s :
  result (bind m k s) = result (k (result (m s)) (final (m s))).
Proof.
  unfold bind, trace, result, final.
  destruct (m s) as [[a s1] t1]. cbn [fst snd].
  destruct (k a s1) as [[b s2] t2]. reflexivity.
Qed.

Lemma final_bind {A B} (m : M A) (k : A -> M B) s :
  final (bind m k s) = final (k (result (m s)) (final (m s))).
Proof.
  unfold bind, trace, result, final.
  destruct (m s) as [[a s1] t1]. cbn [fst snd].
  destruct (k a s1) as [[b s2] t2]. reflexivity.
Qed.

Lemma result_ret {A} (a : A) s : result (ret a s) = a.
Proof. reflexivity. Qed.

Lemma trace_ret {A} (a : A) s : trace (ret a s) = [].
Proof. reflexivity. Qed.

Lemma final_ret {A} (a : A) s : final (ret a s) = s.
Proof. reflexivity. Qed.

Lemma final_modify f s : final (modify f s) = f s.
Proof. reflexivity. Qed.

(** Push the projections of a run through [bind] and [ret]. *)
Ltac mnorm :=
  repeat first
    [ rewrite result_bind | rewrite trace_bind | rewrite final_bind
    | rewrite final_ret | rewrite trace_ret | rewrite result_ret ].

Lemma emits_ret {A} P (a : A) : emits P (ret a).
Proof. intros s. constructor. Qed.

Lemma emits_modify P f : emits P (modify f).
Proof. intros s. constructor. Qed.

Lemma emits_bind {A B} P (m : M A) (k : A -> M B) :
  emits P m -> (forall a, emits P (k a)) -> emits P (bind m k).
Proof.
  intros Hm Hk s. rewrite trace_bind.
  apply Forall_app. split; [apply Hm | apply Hk].
Qed.

Lemma emits_orFail {A} P (failed : A) step rest :
  emits P step -> emits P rest -> emits P (orFail failed step rest).
Proof.
  intros Hs Hr. apply emits_bind; [exact Hs|].
  intros []; [exact Hr | apply emits_ret].
Qed.

(** ** The transport and the chip *)

(** Locking and unlocking leave the chip and the schedule alone. *)
Lemma when_lock_bus c m s :
  m = wire_lock \/ m = wire_unlock ->
  regs (wire (final (when c m s))) = regs (wire s)
  /\ acks (wire (final (when c m s))) = acks (wire s)
  /\ trace (when c m s) = [].
Proof.
  destruct s as [[r a d] ws wp wr].
  intros [-> | ->]; destruct c; repeat split; reflexivity.
Qed.

Lemma regs_pop_ack s : regs (wire (pop_ack s)) = regs (wire s).
Proof. destruct s as [[r a d] ws wp wr]. reflexivity. Qed.

Lemma regs_set_regs r s : regs (wire (set_regs r s)) = r.
Proof. destruct s as [[r0 a d] ws wp wr]. reflexivity. Qed.

Lemma store_one r a v x : store r a [v] x = if x =? a then u8 v else r x.
Proof. reflexivity. Qed.

Lemma reg_set_regs r s x : reg (set_regs r s) x = u8 (r x).
Proof. unfold reg. rewrite regs_set_regs. reflexivity. Qed.

Lemma reg_range s a : 0 <= reg s a < 256.
Proof. apply u8_range. Qed.

Lemma burst_length r a n : length (burst r a n) = n.
Proof.
  revert a. induction n as [|n IH]; intros a; cbn [burst length];
    [reflexivity | rewrite IH; reflexivity].
Qed.

Lemma replay_app t1 t2 r : replay (t1 ++ t2) r = replay t2 (replay t1 r).
Proof. apply fold_left_app. Qed.

Lemma healthy_next_ack s : healthy s -> next_ack (wire s) = true.
Proof. unfold healthy, next_ack. intros ->. reflexivity. Qed.

Lemma healthy_pop_ack s : healthy s -> pop_ack s = s.
Proof.
  destruct s as [[r a d] ws wp wr]. unfold healthy. cbn. intros ->. reflexivity.
Qed.

Lemma healthy_set_regs r s : healthy s -> healthy (set_regs r s).
Proof. destruct s as [[r0 a d] ws wp wr]. exact (fun H => H). Qed.

Lemma healthy_set_watchdog a b s : healthy s -> healthy (set_watchdog a b s).
Proof. destruct s as [[r0 a0 d] ws wp wr]. exact (fun H => H). Qed.

Lemma healthy_set_wakeReason w s : healthy s -> healthy (set_wakeReason w s).
Proof. destruct s as [[r0 a0 d] ws wp wr]. exact (fun H => H). Qed.

Lemma healthy_when_lock c m s :
  m = wire_lock \/ m = wire_unlock -> healthy s -> healthy (final (when c m s)).
Proof.
  intros Hm H. unfold healthy.
  destruct (when_lock_bus c m s Hm) as (_ & -> & _). exact H.
Qed.

Create HintDb drv.
#[local] Hint Resolve healthy_set_regs healthy_set_watchdog
  healthy_set_wakeReason : drv.

(** ** Register access layer *)

(** *** What one register operation does, for any schedule *)

Lemma readRegisters_run regAddr num lock s :
  readRegisters regAddr num lock s =
    (if next_ack (wire s)
     then Some (burst (regs (wire s)) (u8 regAddr) (Z.to_nat num)) else None,
     pop_ack s,
     [Rd (u8 regAddr) num (next_ack (wire s))]).
Proof. destruct s as [[r a d] ws wp wr]. destruct lock; reflexivity. Qed.

Lemma readRegister_run regAddr lock s :
  readRegister regAddr lock s =
    (if next_ack (wire s) then Some (reg s (u8 regAddr)) else None,
     pop_ack s,
     [Rd (u8 regAddr) 1 (next_ack (wire s))]).
Proof.
  unfold readRegister, bind. rewrite readRegisters_run.
  destruct (next_ack (wire s)); reflexivity.
Qed.

Lemma writeRegisters_run regAddr array lock s :
  writeRegisters regAddr array lock s =
    (next_ack (wire s),
     pop_ack (if next_ack (wire s)
              then set_regs (store (regs (wire s)) (u8 regAddr) array) s else s),
     [Wr (u8 regAddr) array (next_ack (wire s))]).
Proof.
  destruct s as [[r a d] ws wp wr].
  destruct lock; destruct a as [|[] a']; reflexivity.
Qed.

Lemma writeRegister_run regAddr value lock s :
  writeRegister regAddr value lock s =
    (next_ack (wire s),
     pop_ack (if next_ack (wire s)
              then set_regs (store (regs (wire s)) (u8 regAddr) [u8 value]) s else s),
     [Wr (u8 regAddr) [u8 value] (next_ack (wire s))]).
Proof. apply writeRegisters_run. Qed.

(** [maskRegister]: a read, then a write when the read completed and the
    byte changes. *)
Lemma maskRegister_run regAddr andValue orValue lock s :
  let old := reg s (u8 regAddr) in
  let newValue := u8 (Z.lor (Z.land old (u8 andValue)) (u8 orValue)) in
  let ack1 := next_ack (wire s) in
  let ack2 := next_ack (wire (pop_ack s)) in
  maskRegister regAddr andValue orValue lock s =
    if ack1 then
      if negb (newValue =? old) then
        (ack2,
         pop_ack (pop_ack (if ack2
                           then set_regs (store (regs (wire s)) (u8 regAddr) [newValue]) s
                           else s)),
         [Rd (u8 regAddr) 1 true; Wr (u8 regAddr) [newValue] ack2])
      else (true, pop_ack s, [Rd (u8 regAddr) 1 true])
    else (false, pop_ack s, [Rd (u8 regAddr) 1 false]).
Proof.
  cbv zeta.
  destruct s as [[r a d] ws wp wr].
  destruct lock; destruct a as [|b1 [|b2 a'']];
    try destruct b1; try destruct b2;
    lazy -[u8 Z.lor Z.land Z.eqb negb];
    rewrite ?u8_idem;
    try destruct (negb _); reflexivity.
Qed.

(** C7: [maskRegister] always issues the read first; when the read
    completes it computes [(old & andValue) | orValue] and issues the
    write-back exactly when that differs from the value read; when it does
    not differ nothing is written, the chip is untouched and the call
    reports success.  [ack1] and [ack2] are the outcomes the transport
    has scheduled for the first and second transaction. *)
Theorem maskRegister_writes_iff_changed
    (regAddr andValue orValue : Z) (lock : bool) (s : AB1805) :
  let old := reg s (u8 regAddr) in
  let newValue := u8 (Z.lor (Z.land old (u8 andValue)) (u8 orValue)) in
  let ack1 := hd true (acks (wire s)) in
  let ack2 := hd true (tl (acks (wire s))) in
  let changed := negb (newValue =? old) in
  let run := maskRegister regAddr andValue orValue lock s in
  trace run =
    Rd (u8 regAddr) 1 ack1 ::
    (if ack1 && changed then [Wr (u8 regAddr) [newValue] ack2] else [])
  /\ result run = ack1 && (if changed then ack2 else true)
  /\ regs (wire (final run)) =
       (if ack1 && changed && ack2
        then store (regs (wire s)) (u8 regAddr) [newValue]
        else regs (wire s)).
Proof.
  cbv zeta. rewrite maskRegister_run.
  change (hd true (acks (wire s))) with (next_ack (wire s)).
  change (hd true (tl (acks (wire s)))) with (next_ack (wire (pop_ack s))).
  destruct (next_ack (wire s)); [|repeat split; reflexivity].
  destruct (negb _); [|repeat split; reflexivity].
  destruct (next_ack (wire (pop_ack s))); repeat split; reflexivity.
Qed.

(** What a one-byte [maskRegister] leaves behind: its traffic is on the
    register only, the chip is the replay of that traffic and, when all
    of it completes, the register holds the new value. *)
Lemma maskRegister_effect regAddr andValue orValue lock s :
  let old := reg s (u8 regAddr) in
  let newValue := u8 (Z.lor (Z.land old (u8 andValue)) (u8 orValue)) in
  let run := maskRegister regAddr andValue orValue lock s in
  Forall (fun x => txn_addr x = u8 regAddr) (trace run)
  /\ regs (wire (final run)) = replay (trace run) (regs (wire s))
  /\ (Forall (fun x => txn_ok x = true) (trace run) ->
      u8 (replay (trace run) (regs (wire s)) (u8 regAddr)) = newValue).
Proof.
  cbv zeta.
  pose proof (maskRegister_run regAddr andValue orValue lock s) as E.
  cbv zeta in E. rewrite E. clear E.
  destruct (next_ack (wire s)).
  - destruct (Z.eqb_spec
      (u8 (Z.lor (Z.land (reg s (u8 regAddr)) (u8 andValue)) (u8 orValue)))
      (reg s (u8 regAddr))) as [Eq|Ne]; cbn [negb].
    + unfold final, trace; cbn [fst snd replay fold_left chip_after].
      split; [repeat constructor | split; [apply regs_pop_ack|]].
      intros _. symmetry. exact Eq.
    + destruct (next_ack (wire (pop_ack s)));
        unfold final, trace; cbn [fst snd replay fold_left chip_after].
      * split; [repeat constructor | split].
        -- rewrite !regs_pop_ack, regs_set_regs. reflexivity.
        -- intros _. rewrite store_one, Z.eqb_refl, !u8_idem. reflexivity.
      * split; [repeat constructor | split].
        -- rewrite !regs_pop_ack. reflexivity.
        -- intros Hok. inversion Hok as [|? ? _ Hok']; subst.
           inversion Hok' as [|? ? Hx _]; subst. discriminate Hx.
  - unfold final, trace; cbn [fst snd replay fold_left chip_after].
    split; [repeat constructor | split; [apply regs_pop_ack|]].
    intros Hok. inversion Hok as [|? ? Hx _]; subst. discriminate Hx.
Qed.

Lemma emits_readRegisters P regAddr num lock :
  (forall ok, P (Rd (u8 regAddr) num ok)) ->
  emits P (readRegisters regAddr num lock).
Proof.
  intros H s. rewrite readRegisters_run. cbn. constructor; [apply H | constructor].
Qed.

Lemma emits_readRegister P regAddr lock :
  (forall ok, P (Rd (u8 regAddr) 1 ok)) ->
  emits P (readRegister regAddr lock).
Proof.
  intros H s. rewrite readRegister_run. cbn. constructor; [apply H | constructor].
Qed.

Lemma emits_writeRegisters P regAddr array lock :
  (forall ok, P (Wr (u8 regAddr) array ok)) ->
  emits P (writeRegisters regAddr array lock).
Proof.
  intros H s. rewrite writeRegisters_run. cbn. constructor; [apply H | constructor].
Qed.

Lemma emits_writeRegister P regAddr value lock :
  (forall ok, P (Wr (u8 regAddr) [u8 value] ok)) ->
  emits P (writeRegister regAddr value lock).
Proof. apply emits_writeRegisters. Qed.

Lemma emits_maskRegister P regAddr andValue orValue lock :
  (forall ok, P (Rd (u8 regAddr) 1 ok)) ->
  (forall v ok, P (Wr (u8 regAddr) [u8 v] ok)) ->
  emits P (maskRegister regAddr andValue orValue lock).
Proof.
  intros Hr Hw s. pose proof (maskRegister_run regAddr andValue orValue lock s) as E.
  cbv zeta in E. rewrite E.
  destruct (next_ack (wire s)); [destruct (negb _)|]; cbn;
    repeat constructor; auto.
Qed.

(** The polls of [deepPowerDown] are reads of the sleep-control register. *)
Lemma emits_pollSleepCtrl polls :
  emits (fun t => negb (is_sleep_poll t) = false) (pollSleepCtrl polls).
Proof.
  induction polls as [|k IH]; cbn [pollSleepCtrl]; [apply emits_ret|].
  apply emits_bind; [|intros _; exact IH].
  unfold readRegisterValue.
  apply emits_bind; [|intros; apply emits_ret].
  apply emits_readRegister. intros ok. reflexivity.
Qed.

(** *** Register operations when no failure is scheduled *)

Lemma readRegisters_healthy regAddr num lock s :
  healthy s ->
  readRegisters regAddr num lock s =
    (Some (burst (regs (wire s)) (u8 regAddr) (Z.to_nat num)), s,
     [Rd (u8 regAddr) num true]).
Proof.
  intros H. rewrite readRegisters_run.
  rewrite healthy_next_ack, healthy_pop_ack by assumption. reflexivity.
Qed.

Lemma readRegister_healthy regAddr lock s :
  healthy s ->
  readRegister regAddr lock s =
    (Some (reg s (u8 regAddr)), s, [Rd (u8 regAddr) 1 true]).
Proof.
  intros H. rewrite readRegister_run.
  rewrite healthy_next_ack, healthy_pop_ack by assumption. reflexivity.
Qed.

Lemma writeRegisters_healthy regAddr array lock s :
  healthy s ->
  writeRegisters regAddr array lock s =
    (true, set_regs (store (regs (wire s)) (u8 regAddr) array) s,
     [Wr (u8 regAddr) array true]).
Proof.
  intros H. rewrite writeRegisters_run.
  rewrite healthy_next_ack by assumption.
  rewrite healthy_pop_ack by auto with drv. reflexivity.
Qed.

Lemma writeRegister_healthy regAddr value lock s :
  healthy s ->
  writeRegister regAddr value lock s =
    (true, set_regs (store (regs (wire s)) (u8 regAddr) [u8 value]) s,
     [Wr (u8 regAddr) [u8 value] true]).
Proof. apply writeRegisters_healthy. Qed.

Lemma maskRegister_healthy regAddr andValue orValue lock s :
  healthy s ->
  let old := reg s (u8 regAddr) in
  let newValue := u8 (Z.lor (Z.land old (u8 andValue)) (u8 orValue)) in
  maskRegister regAddr andValue orValue lock s =
    if negb (newValue =? old)
    then (true, set_regs (store (regs (wire s)) (u8 regAddr) [newValue]) s,
          [Rd (u8 regAddr) 1 true; Wr (u8 regAddr) [newValue] true])
    else (true, s, [Rd (u8 regAddr) 1 true]).
Proof.
  intros H. cbv zeta.
  pose proof (maskRegister_run regAddr andValue orValue lock s) as E.
  cbv zeta in E. rewrite E. clear E.
  rewrite (healthy_pop_ack s H), (healthy_next_ack s H).
  rewrite (healthy_pop_ack (set_regs _ s)) by auto with drv.
  rewrite (healthy_pop_ack (set_regs _ s)) by auto with drv.
  reflexivity.
Qed.

Lemma isBit_healthy regAddr bitMask lock s :
  healthy s ->
  isBitSet regAddr bitMask lock s =
    (negb (Z.land (reg s (u8 regAddr)) (u8 bitMask) =? 0), s,
     [Rd (u8 regAddr) 1 true])
  /\ isBitClear regAddr bitMask lock s =
    (Z.land (reg s (u8 regAddr)) (u8 bitMask) =? 0, s,
     [Rd (u8 regAddr) 1 true]).
Proof.
  intros H. unfold isBitSet, isBitClear, bind.
  rewrite readRegister_healthy by assumption. split; reflexivity.
Qed.

(** [clearRegisterBit] on a transport with no failure scheduled: the
    register ends up with the bits of [mask] cleared. *)
Lemma clearRegisterBit_healthy regAddr mask lock s :
  healthy s -> 0 <= mask < 256 ->
  let run := clearRegisterBit regAddr mask lock s in
  result run = true /\ healthy (final run)
  /\ wakeReason (final run) = wakeReason s
  /\ forall x, reg (final run) x =
       if x =? u8 regAddr then Z.land (reg s (u8 regAddr)) (Z.lnot mask)
       else reg s x.
Proof.
  intros H Hm. cbv zeta. unfold clearRegisterBit.
  rewrite maskRegister_healthy by assumption. cbv zeta.
  rewrite (clear_bit_byte _ mask (reg_range _ _) Hm).
  destruct (Z.eqb_spec (Z.land (reg s (u8 regAddr)) (Z.lnot mask))
                       (reg s (u8 regAddr))) as [E|E];
    cbn [negb]; unfold result, final; cbn [fst snd].
  - split; [reflexivity | split; [assumption | split; [reflexivity |]]].
    intros x.
    destruct (Z.eqb_spec x (u8 regAddr)); [subst x; symmetry; exact E | reflexivity].
  - split; [reflexivity | split; [auto with drv | split]].
    + destruct s as [[r a d] ws wp wr]; reflexivity.
    + intros x. rewrite reg_set_regs, store_one.
      destruct (x =? u8 regAddr); [|reflexivity].
      rewrite u8_idem. apply u8_small.
      rewrite <- (clear_bit_byte _ mask (reg_range _ _) Hm). apply u8_range.
Qed.

(** A transaction at another register address says nothing about the
    address asked for. *)
Ltac off_addr :=
  intros;
  match goal with
  | Hx : txn_addr _ = _ |- _ =>
      cbn [txn_addr] in Hx; vm_compute in Hx; discriminate Hx
  end.

(** Run one register operation of a sequence with the lemma [lem]. *)
Ltac hrun lem :=
  rewrite lem by auto with drv; cbv beta iota; rewrite ?regs_set_regs.

(** Decide the comparisons between register addresses. *)
Ltac eval_eqb :=
  repeat match goal with
  | |- context [?a =? ?b] =>
      let v := eval vm_compute in (a =? b) in
      match v with
      | true => change (a =? b) with true
      | false => change (a =? b) with false
      end
  end;
  cbv beta iota.

(** *** Stopping at the first failure *)

Section FailFast.

(** The transactions whose failure must abort the call. *)
Variable critical : Txn -> bool.

Lemma stops_along_iff failed tr :
  stops_along critical failed tr <-> stops_at_failure critical failed tr.
Proof.
  split.
  - intros H pre. revert tr H.
    induction pre as [|a pre IH]; intros tr H t post E; subst tr.
    + cbn in H. apply (proj1 H).
    + cbn in H. apply (IH _ (proj2 H) t post eq_refl).
  - induction tr as [|t rest IH]; intros H; cbn.
    + exact I.
    + split.
      * apply (H [] t rest eq_refl).
      * apply IH. intros pre t' post E. apply (H (t :: pre) t' post).
        cbn. rewrite E. reflexivity.
Qed.

Lemma unfailed_of_success tr :
  stops_along critical false tr -> unfailed critical tr.
Proof.
  induction tr as [|t rest IH]; intros H; constructor.
  - intros Hc. destruct (txn_ok t) eqn:Ek; [reflexivity|].
    destruct (proj1 H Hc Ek) as [_ Hx]. discriminate Hx.
  - apply IH, (proj2 H).
Qed.

Lemma stops_along_app failed t1 t2 :
  unfailed critical t1 -> stops_along critical failed t2 ->
  stops_along critical failed (t1 ++ t2).
Proof.
  induction 1 as [|t rest Ht Hrest IH]; intros H2; cbn; [exact H2|].
  split; [|apply IH, H2].
  intros Hc Hk. rewrite (Ht Hc) in Hk. discriminate Hk.
Qed.

Lemma unfailed_noncritical tr :
  Forall (fun t => critical t = false) tr -> unfailed critical tr.
Proof.
  apply Forall_impl. intros t -> Hx. discriminate Hx.
Qed.

Lemma fail_fast_ret {A} (failed : A -> bool) (a : A) :
  fail_fast_by failed critical (ret a).
Proof. intros s. apply stops_along_iff. exact I. Qed.

(** The early-return pattern preserves the property. *)
Lemma fail_fast_orFail {A} (failed : A -> bool) (failv : A) step rest :
  failed failv = true ->
  fail_fast critical step -> fail_fast_by failed critical rest ->
  fail_fast_by failed critical (orFail failv step rest).
Proof.
  intros Hf Hs Hr s. unfold orFail. rewrite result_bind, trace_bind.
  specialize (Hs s). apply stops_along_iff in Hs. apply stops_along_iff.
  destruct (result (step s)); cbn [negb] in Hs.
  - apply stops_along_app; [apply unfailed_of_success, Hs|].
    apply stops_along_iff, Hr.
  - rewrite result_ret, trace_ret, app_nil_r, Hf. exact Hs.
Qed.

(** So does running first a step none of whose transactions is critical. *)
Lemma fail_fast_after {A B} (failed : B -> bool) (m : M A) (k : A -> M B) :
  emits (fun t => critical t = false) m ->
  (forall a, fail_fast_by failed critical (k a)) ->
  fail_fast_by failed critical (bind m k).
Proof.
  intros Hm Hk s. rewrite result_bind, trace_bind.
  apply stops_along_iff, stops_along_app.
  - apply unfailed_noncritical, Hm.
  - apply stops_along_iff, Hk.
Qed.

Lemma fail_fast_writeRegisters regAddr array lock :
  fail_fast critical (writeRegisters regAddr array lock).
Proof.
  intros s. rewrite writeRegisters_run. apply stops_along_iff.
  unfold result, trace; cbn [fst snd stops_along txn_ok].
  split; [|exact I]. intros _ ->. split; reflexivity.
Qed.

Lemma fail_fast_writeRegister regAddr value lock :
  fail_fast critical (writeRegister regAddr value lock).
Proof. apply fail_fast_writeRegisters. Qed.

Lemma fail_fast_maskRegister regAddr andValue orValue lock :
  fail_fast critical (maskRegister regAddr andValue orValue lock).
Proof.
  intros s.
  pose proof (maskRegister_run regAddr andValue orValue lock s) as E.
  cbv zeta in E. rewrite E. clear E. apply stops_along_iff.
  destruct (next_ack (wire s));
    [destruct (negb (_ =? _)); [destruct (next_ack (wire (pop_ack s)))|]|];
    unfold result, trace; cbn [fst snd stops_along txn_ok negb];
    repeat split; congruence.
Qed.

Lemma fail_fast_setWDT seconds : fail_fast critical (setWDT seconds).
Proof.
  intros s. unfold setWDT.
  destruct (_ =? 0); mnorm; rewrite app_nil_r;
    apply fail_fast_writeRegister.
Qed.

Lemma fail_fast_setCountdownTimer value minutes :
  fail_fast critical (setCountdownTimer value minutes).
Proof.
  unfold setCountdownTimer, setRegisterBit, fail_fast.
  repeat (apply fail_fast_orFail;
          [ reflexivity
          | first [ apply fail_fast_writeRegister
                  | apply fail_fast_maskRegister ] |]).
  apply fail_fast_ret.
Qed.

End FailFast.

(** ** Watchdog controller *)

Lemma emits_setWDT P seconds :
  (forall v ok, P (Wr REG_WDT [u8 v] ok)) -> emits P (setWDT seconds).
Proof.
  intros H s. unfold setWDT.
  destruct (_ =? 0);
    (apply emits_bind; [apply emits_writeRegister; intros ok; apply H |]);
    intros b; (apply emits_bind; [apply emits_modify | intros; apply emits_ret]).
Qed.

Lemma wdtFourSecs_clamp seconds :
  0 < seconds -> wdtFourSecs seconds = Z.min 31 (Z.max 1 (seconds / 4)).
Proof.
  intros H. unfold wdtFourSecs.
  rewrite Z.quot_div_nonneg by lia.
  destruct (Z.ltb_spec (seconds / 4) 1);
    [destruct (Z.gtb_spec 1 31) | destruct (Z.gtb_spec (seconds / 4) 31)]; lia.
Qed.

Lemma wdt_byte fourSecs :
  1 <= fourSecs <= 31 ->
  let value := 0x80 + 4 * fourSecs + 0x03 in
  u8 (Z.lor (Z.lor REG_WDT_RESET (Z.shiftl fourSecs 2)) REG_WDT_WRB_1_4_HZ) = value
  /\ Z.land value REG_WDT_RESET = REG_WDT_RESET
  /\ Z.land (Z.shiftr value 2) 0x1f = fourSecs
  /\ Z.land value 0x03 = REG_WDT_WRB_1_4_HZ.
Proof.
  intros H.
  pose (p := fun f =>
    let value := 0x80 + 4 * f + 0x03 in
    (u8 (Z.lor (Z.lor REG_WDT_RESET (Z.shiftl f 2)) REG_WDT_WRB_1_4_HZ) =? value)
    && (Z.land value REG_WDT_RESET =? REG_WDT_RESET)
    && (Z.land (Z.shiftr value 2) 0x1f =? f)
    && (Z.land value 0x03 =? REG_WDT_WRB_1_4_HZ)).
  assert (Hp : p fourSecs = true).
  { apply (checked_below p 32); [vm_compute; reflexivity | lia]. }
  unfold p in Hp. cbv zeta in Hp.
  rewrite !andb_true_iff, !Z.eqb_eq in Hp.
  cbv zeta. tauto.
Qed.

(** C5: for [seconds > 0], [setWDT] quantizes the period to
    [fourSecs = seconds / 4] clamped to 1..31, an effective period
    [4 * fourSecs] within 4..124 seconds, and issues one write of the
    watchdog register carrying the reset-enable bit, [fourSecs] in the
    period field and the 1/4 Hz clock selection. *)
Theorem setWDT_quantizes (seconds : Z) (s : AB1805) :
  0 < seconds ->
  let fourSecs := Z.min 31 (Z.max 1 (seconds / 4)) in
  let value := 0x80 + 4 * fourSecs + 0x03 in
  let run := setWDT seconds s in
  4 <= 4 * fourSecs <= 124
  /\ trace run = [Wr REG_WDT [value] (next_ack (wire s))]
  /\ result run = next_ack (wire s)
  /\ Z.land value REG_WDT_RESET = REG_WDT_RESET
  /\ Z.land (Z.shiftr value 2) 0x1f = fourSecs
  /\ Z.land value 0x03 = REG_WDT_WRB_1_4_HZ
  /\ watchdogUpdatePeriod (final run) = 4 * fourSecs * 1000 / 2.
Proof.
  intros Hpos. cbv zeta.
  set (fourSecs := Z.min 31 (Z.max 1 (seconds / 4))).
  assert (Hf : 1 <= fourSecs <= 31) by (unfold fourSecs; lia).
  destruct (wdt_byte fourSecs Hf) as (Hb & Hr & Hp & Hw). cbv zeta in Hb, Hr, Hp, Hw.
  assert (Hrun : setWDT seconds s =
    (next_ack (wire s),
     set_watchdog seconds (fourSecs * 2000)
       (pop_ack (if next_ack (wire s)
                 then set_regs (store (regs (wire s)) REG_WDT
                                  [0x80 + 4 * fourSecs + 0x03]) s
                 else s)),
     [Wr REG_WDT [0x80 + 4 * fourSecs + 0x03] (next_ack (wire s))])).
  { unfold setWDT.
    destruct (Z.ltb_spec seconds 0); [lia|].
    destruct (Z.eqb_spec seconds 0); [lia|].
    rewrite (wdtFourSecs_clamp seconds Hpos). fold fourSecs.
    unfold bind. rewrite writeRegister_run. rewrite Hb.
    change (u8 REG_WDT) with REG_WDT.
    reflexivity. }
  rewrite Hrun. unfold trace, result, final. cbn [fst snd].
  repeat split; try assumption; try lia.
  unfold set_watchdog. cbn [watchdogUpdatePeriod].
  replace (4 * fourSecs * 1000) with (fourSecs * 2000 * 2) by ring.
  rewrite Z.div_mul by lia. reflexivity.
Qed.

Lemma setWDT_quantizes_witness :
  (0 < 3 /\ trace (setWDT 3 idle) = [Wr REG_WDT [0x87] true])
  /\ (0 < 200 /\ trace (setWDT 200 idle) = [Wr REG_WDT [0xff] true]).
Proof.
  split; (split; [lia|]).
  - destruct (setWDT_quantizes 3 idle) as (_ & H & _); [lia | exact H].
  - destruct (setWDT_quantizes 200 idle) as (_ & H & _); [lia | exact H].
Defined.

(** Re-arming with [setWDT(-1)] uses the period configured before. *)
Example setWDT_rearm :
  trace (setWDT (-1) (set_watchdog 60 30000 idle)) = [Wr REG_WDT [0xbf] true]
  /\ trace (setWDT 0 idle) = [Wr REG_WDT [0x00] true].
Proof. split; vm_compute; reflexivity. Qed.

(** ** Countdown timer *)

Lemma countdown_clamp value :
  (let value := if value <? 1 then 1 else value in
   if value >? 255 then 255 else value) = Z.min 255 (Z.max 1 value).
Proof.
  cbv zeta.
  destruct (Z.ltb_spec value 1);
    [destruct (Z.gtb_spec 1 255) | destruct (Z.gtb_spec value 255)]; lia.
Qed.

Lemma emits_setCountdownTimer value minutes :
  emits (timer_clamped value) (setCountdownTimer value minutes).
Proof.
  pose proof (countdown_clamp value) as Hc. cbv zeta in Hc.
  unfold setCountdownTimer, setRegisterBit, timer_clamped. rewrite Hc.
  repeat (apply emits_orFail;
          [first [ apply emits_writeRegister | apply emits_maskRegister ]|]);
    try apply emits_ret; try off_addr.
  intros ok _. exists ok. rewrite (u8_small (Z.min _ _)) by lia. reflexivity.
Qed.

(** C8: the countdown-timer arming path writes the timer register with
    [value] clamped to 1..255, whichever clock unit is selected: neither
    [setCountdownTimer] nor its callers [interruptCountdownTimer] and
    [deepPowerDown] ever send another byte to the timer register, and
    when no failure is scheduled the third transaction of
    [setCountdownTimer] is that write, the call succeeds and the timer
    register holds the clamped value. *)
Theorem setCountdownTimer_clamps (value : Z) (minutes : bool) (s : AB1805) :
  let clamped := Z.min 255 (Z.max 1 value) in
  let run := setCountdownTimer value minutes s in
  1 <= clamped <= 255
  /\ Forall (timer_clamped value) (trace run)
  /\ Forall (timer_clamped value) (trace (interruptCountdownTimer value minutes s))
  /\ (forall polls,
        Forall (timer_clamped value) (trace (deepPowerDown value polls s)))
  /\ (healthy s ->
      result run = true
      /\ nth_error (trace run) 2 = Some (Wr REG_TIMER [clamped] true)
      /\ reg (final run) REG_TIMER = clamped).
Proof.
  cbv zeta.
  pose proof (countdown_clamp value) as Hc. cbv zeta in Hc.
  assert (Hr : 1 <= Z.min 255 (Z.max 1 value) <= 255) by lia.
  split; [exact Hr | split; [|split; [|split]]].
  - apply emits_setCountdownTimer.
  - revert s. change (emits (timer_clamped value)
                        (interruptCountdownTimer value minutes)).
    unfold interruptCountdownTimer.
    apply emits_orFail;
      [apply emits_setWDT; unfold timer_clamped; off_addr|].
    apply emits_orFail;
      [apply emits_maskRegister; unfold timer_clamped; off_addr|].
    apply emits_orFail; [apply emits_setCountdownTimer | apply emits_ret].
  - intros polls. revert s.
    change (emits (timer_clamped value) (deepPowerDown value polls)).
    unfold deepPowerDown, setRegisterBit, clearRegisterBit. cbv zeta.
    repeat (apply emits_orFail;
            [first [ apply emits_setCountdownTimer
                   | apply emits_setWDT; unfold timer_clamped; off_addr
                   | apply emits_writeRegister; unfold timer_clamped; off_addr
                   | apply emits_maskRegister; unfold timer_clamped; off_addr ]|]).
    apply emits_bind; [|intros; apply emits_ret].
    generalize (emits_pollSleepCtrl polls). unfold emits.
    intros Hp s. specialize (Hp s). revert Hp. apply Forall_impl.
    intros [a n ok|a d ok]; cbn [is_sleep_poll negb]; intros Hx.
    + apply negb_false_iff, Z.eqb_eq in Hx. subst a.
      unfold timer_clamped. off_addr.
    + discriminate Hx.
  - intros H. unfold setCountdownTimer. rewrite Hc.
    unfold orFail, bind, setRegisterBit.
    hrun writeRegister_healthy. hrun writeRegister_healthy.
    hrun writeRegister_healthy.
    rewrite maskRegister_healthy by auto with drv. cbv zeta.
    destruct (negb _); cbv beta iota;
      hrun writeRegister_healthy;
      unfold result, final, trace, ret; cbn [fst snd app nth_error];
      rewrite (u8_small (Z.min _ _)) by lia;
      (split; [reflexivity | split; [reflexivity |]]);
      rewrite reg_set_regs, !store_one; eval_eqb;
      rewrite u8_idem; apply u8_small; lia.
Qed.

Lemma setCountdownTimer_clamps_witness :
  healthy idle
  /\ nth_error (trace (setCountdownTimer 0 false idle)) 2
       = Some (Wr REG_TIMER [1] true)
  /\ nth_error (trace (setCountdownTimer 9000 true idle)) 2
       = Some (Wr REG_TIMER [255] true).
Proof.
  assert (H : healthy idle) by reflexivity.
  split; [exact H | split].
  - destruct (setCountdownTimer_clamps 0 false idle) as (_ & _ & _ & _ & K).
    destruct (K H) as (_ & E & _). exact E.
  - destruct (setCountdownTimer_clamps 9000 true idle) as (_ & _ & _ & _ & K).
    destruct (K H) as (_ & E & _). exact E.
Defined.

(** [setCountdownTimer] gives up at the failed second write. *)
Example setCountdownTimer_aborts :
  result (setCountdownTimer 10 false second_fails) = false
  /\ trace (setCountdownTimer 10 false second_fails)
     = [Wr REG_STATUS [0x00] true; Wr REG_TIMER_CTRL [0x23] false].
Proof. split; vm_compute; reflexivity. Qed.

(** ** Wake-reason resolver *)

(** The branch of [updateWakeReason] that records [reason] and clears
    the status bit [mask]. *)
Lemma consume_status_healthy reason mask s :
  healthy s -> 0 <= mask < 256 ->
  let run := (modify (set_wakeReason reason) ;;
              clearRegisterBit REG_STATUS mask true ;;
              ret tt) s in
  wakeReason (final run) = reason
  /\ forall x, reg (final run) x =
       if x =? REG_STATUS then Z.land (reg s REG_STATUS) (Z.lnot mask)
       else reg s x.
Proof.
  intros H Hm. cbv zeta.
  rewrite !final_bind, final_ret, final_modify.
  destruct (clearRegisterBit_healthy REG_STATUS mask true
              (set_wakeReason reason s)) as (_ & _ & Hw & Hr);
    auto with drv.
Qed.

Lemma alarm_survives_watchdog status :
  0 <= status < 256 ->
  bit_set (Z.land status (Z.lnot REG_STATUS_WDT)) REG_STATUS_ALM
    = bit_set status REG_STATUS_ALM.
Proof.
  intros H.
  apply (checked_below (fun v =>
    Bool.eqb (bit_set (Z.land v (Z.lnot REG_STATUS_WDT)) REG_STATUS_ALM)
             (bit_set v REG_STATUS_ALM)) 256) in H;
    [|vm_compute; reflexivity].
  apply eqb_prop in H. exact H.
Qed.

(** X29: on a transport where no failure is scheduled, [updateWakeReason]
    reports the first condition that holds in the order Watchdog,
    DeepPowerDown, CountdownTimer, Alarm; the status bit of the reported
    condition is cleared, except for DeepPowerDown, whose bit in the
    sleep-control register is left as it was; in particular, with both
    the watchdog and the alarm bit set the result is Watchdog and the
    alarm bit is still set afterwards. *)
Theorem updateWakeReason_priority (s : AB1805) :
  healthy s ->
  let status := reg s REG_STATUS in
  let sleepCtrl := reg s REG_SLEEP_CTRL in
  let run := updateWakeReason s in
  result run = true
  /\ wakeReason (final run) =
       match first_wake status sleepCtrl with
       | Some (_, reason, _) => reason
       | None => wakeReason s
       end
  /\ reg (final run) REG_STATUS =
       match first_wake status sleepCtrl with
       | Some (_, _, consumed) => Z.land status (Z.lnot consumed)
       | None => status
       end
  /\ reg (final run) REG_SLEEP_CTRL = sleepCtrl
  /\ (bit_set status REG_STATUS_WDT = true ->
      bit_set status REG_STATUS_ALM = true ->
      wakeReason (final run) = WATCHDOG
      /\ bit_set (reg (final run) REG_STATUS) REG_STATUS_ALM = true).
Proof.
  intros H. cbv zeta.
  assert (Hres : result (updateWakeReason s) = true).
  { unfold updateWakeReason. rewrite result_bind.
    rewrite readRegister_healthy by assumption.
    unfold result at 2; cbn [fst snd]. rewrite result_bind. reflexivity. }
  assert (Hfin : final (updateWakeReason s) =
    final ((if bit_set (reg s REG_STATUS) REG_STATUS_WDT then
              modify (set_wakeReason WATCHDOG) ;;
              clearRegisterBit REG_STATUS REG_STATUS_WDT true ;; ret tt
            else if bit_set (reg s REG_SLEEP_CTRL) REG_SLEEP_CTRL_SLST then
              modify (set_wakeReason DEEP_POWER_DOWN)
            else if bit_set (reg s REG_STATUS) REG_STATUS_TIM then
              modify (set_wakeReason COUNTDOWN_TIMER) ;;
              clearRegisterBit REG_STATUS REG_STATUS_TIM true ;; ret tt
            else if bit_set (reg s REG_STATUS) REG_STATUS_ALM then
              modify (set_wakeReason ALARM) ;;
              clearRegisterBit REG_STATUS REG_STATUS_ALM true ;; ret tt
            else ret tt) s)).
  { unfold updateWakeReason. rewrite final_bind.
    rewrite readRegister_healthy by assumption.
    unfold result at 1, final at 2; cbn [fst snd].
    rewrite final_bind, final_ret.
    change (u8 REG_STATUS) with REG_STATUS. fold (bit_set (reg s REG_STATUS) REG_STATUS_WDT).
    destruct (bit_set (reg s REG_STATUS) REG_STATUS_WDT); [reflexivity|].
    rewrite final_bind.
    destruct (isBit_healthy REG_SLEEP_CTRL REG_SLEEP_CTRL_SLST true s H) as [E _].
    rewrite E. unfold result, final at 2; cbn [fst snd].
    change (u8 REG_SLEEP_CTRL) with REG_SLEEP_CTRL.
    change (u8 REG_SLEEP_CTRL_SLST) with REG_SLEEP_CTRL_SLST.
    fold (bit_set (reg s REG_SLEEP_CTRL) REG_SLEEP_CTRL_SLST).
    reflexivity. }
  split; [exact Hres|].
  rewrite Hfin. clear Hfin Hres.
  unfold first_wake, wake_priority. cbn [find fst snd].
  pose proof (consume_status_healthy WATCHDOG REG_STATUS_WDT s H) as Cw.
  pose proof (consume_status_healthy COUNTDOWN_TIMER REG_STATUS_TIM s H) as Ct.
  pose proof (consume_status_healthy ALARM REG_STATUS_ALM s H) as Ca.
  cbv zeta in Cw, Ct, Ca.
  destruct Cw as [Cw1 Cw2]; [vm_compute; intuition discriminate|].
  destruct Ct as [Ct1 Ct2]; [vm_compute; intuition discriminate|].
  destruct Ca as [Ca1 Ca2]; [vm_compute; intuition discriminate|].
  destruct (bit_set (reg s REG_STATUS) REG_STATUS_WDT) eqn:Ew.
  - rewrite Cw1, !Cw2. eval_eqb.
    split; [reflexivity | split; [reflexivity | split; [reflexivity |]]].
    intros _ Ha. split; [reflexivity|].
    rewrite alarm_survives_watchdog by apply reg_range. exact Ha.
  - destruct (bit_set (reg s REG_SLEEP_CTRL) REG_SLEEP_CTRL_SLST) eqn:Es;
      [|destruct (bit_set (reg s REG_STATUS) REG_STATUS_TIM) eqn:Et;
        [|destruct (bit_set (reg s REG_STATUS) REG_STATUS_ALM) eqn:Ea]];
      rewrite ?final_modify, ?final_ret, ?Ct1, ?Ct2, ?Ca1, ?Ca2, ?land_lnot_0;
      eval_eqb;
      (split; [reflexivity | split; [reflexivity | split; [reflexivity |]]]);
      intros Hx; discriminate Hx.
Qed.

Lemma updateWakeReason_priority_witness :
  healthy wdt_and_alarm
  /\ wakeReason (final (updateWakeReason wdt_and_alarm)) = WATCHDOG
  /\ reg (final (updateWakeReason wdt_and_alarm)) REG_STATUS = 0x04
  /\ bit_set (reg (final (updateWakeReason wdt_and_alarm)) REG_STATUS)
       REG_STATUS_ALM = true.
Proof.
  assert (H : healthy wdt_and_alarm) by reflexivity.
  split; [exact H|].
  destruct (updateWakeReason_priority wdt_and_alarm H) as (_ & E1 & E2 & _ & K).
  split; [exact E1 | split; [exact E2 |]].
  apply K; reflexivity.
Defined.

(** The sleep flag outranks the timer flag, and nothing is written. *)
Example updateWakeReason_deep_power_down :
  wakeReason (final (updateWakeReason slept_and_timer)) = DEEP_POWER_DOWN
  /\ trace (updateWakeReason slept_and_timer)
     = [Rd REG_STATUS 1 true; Rd REG_SLEEP_CTRL 1 true].
Proof. split; vm_compute; reflexivity. Qed.

(** Without any flag the wake reason is left as it was. *)
Example updateWakeReason_no_flag :
  wakeReason (final (updateWakeReason (set_wakeReason ALARM idle))) = ALARM.
Proof. vm_compute. reflexivity. Qed.

(** C2, at the failing inputs.  Only the first read of [updateWakeReason]
    is checked.  With the watchdog flag set and the write that clears it
    failing, the call reports success and Watchdog while the flag stays
    set in the chip.  With SLST and TIM set and the read of the
    sleep-control register failing, the call reports success and
    CountdownTimer and clears TIM, although the condition of
    DeepPowerDown holds in the chip. *)
Theorem updateWakeReason_unchecked_steps :
  (bit_set (reg wdt_then_fault REG_STATUS) REG_STATUS_WDT = true
   /\ trace (updateWakeReason wdt_then_fault)
      = [Rd REG_STATUS 1 true; Rd REG_STATUS 1 true;
         Wr REG_STATUS [0x00] false]
   /\ result (updateWakeReason wdt_then_fault) = true
   /\ wakeReason (final (updateWakeReason wdt_then_fault)) = WATCHDOG
   /\ bit_set (reg (final (updateWakeReason wdt_then_fault)) REG_STATUS)
              REG_STATUS_WDT = true)
  /\ (bit_set (reg slept_and_timer_unread REG_SLEEP_CTRL) REG_SLEEP_CTRL_SLST
      = true
      /\ trace (updateWakeReason slept_and_timer_unread)
         = [Rd REG_STATUS 1 true; Rd REG_SLEEP_CTRL 1 false;
            Rd REG_STATUS 1 true; Wr REG_STATUS [0x00] true]
      /\ result (updateWakeReason slept_and_timer_unread) = true
      /\ wakeReason (final (updateWakeReason slept_and_timer_unread))
         = COUNTDOWN_TIMER
      /\ reg (final (updateWakeReason slept_and_timer_unread)) REG_SLEEP_CTRL
         = REG_SLEEP_CTRL_SLST).
Proof. repeat split; vm_compute; reflexivity. Qed.

(** ** Reading the clock *)

(** C9: while the WRTC bit is set (the clock was never programmed),
    [getRtcAsTm] reads control register 1 and nothing else, so no
    calendar register is read, and leaves the caller's struct zeroed in
    every field; [isRTCSet], which tests the same bit, reports the
    condition beforehand. *)
Theorem getRtcAsTm_unset_zeroes (timeptr : tm) (s : AB1805) :
  wrtc s = true ->
  let run := getRtcAsTm timeptr s in
  snd (result run) = tm_zero
  /\ fst (result run) = false
  /\ trace run = [Rd REG_CTRL_1 1 (next_ack (wire s))]
  /\ result (isRTCSet s) = false.
Proof.
  unfold wrtc. intros Hw. cbv zeta.
  apply negb_true_iff in Hw.
  unfold getRtcAsTm, isRTCSet, isBitClear, bind.
  rewrite readRegister_run.
  change (u8 REG_CTRL_1) with REG_CTRL_1.
  change (u8 REG_CTRL_1_WRTC) with REG_CTRL_1_WRTC.
  destruct (next_ack (wire s)); cbv beta iota; rewrite ?Hw;
    repeat split; reflexivity.
Qed.

Lemma getRtcAsTm_unset_zeroes_witness :
  wrtc cold = true
  /\ result (getRtcAsTm tm_leap cold) = (false, tm_zero)
  /\ trace (getRtcAsTm tm_leap cold) = [Rd REG_CTRL_1 1 true].
Proof.
  assert (H : wrtc cold = true) by reflexivity.
  split; [exact H|].
  destruct (getRtcAsTm_unset_zeroes tm_leap cold H) as (E1 & E2 & E3 & _).
  split; [|exact E3].
  destruct (result (getRtcAsTm tm_leap cold)) as [b t].
  cbn [fst snd] in E1, E2. rewrite E1, E2. reflexivity.
Defined.

(** ** Setting the clock *)

Lemma isRTCSet_result s :
  result (isRTCSet s) = next_ack (wire s) && negb (wrtc s).
Proof.
  unfold isRTCSet, isBitClear. rewrite result_bind, readRegister_run.
  unfold result, wrtc, bit_set. cbn [fst snd].
  change (u8 REG_CTRL_1) with REG_CTRL_1.
  change (u8 REG_CTRL_1_WRTC) with REG_CTRL_1_WRTC.
  destruct (next_ack (wire s)); cbn [andb]; [|reflexivity].
  rewrite negb_involutive. reflexivity.
Qed.

(** The steps of [setRtcFromTm], one after the other. *)
Lemma setRtcFromTm_steps timeptr lock s :
  let s0 := final (when lock wire_lock s) in
  let array := 0x00 :: tmToRegisters timeptr true in
  let r1 := setRegisterBit REG_CTRL_1 REG_CTRL_1_WRTC true s0 in
  let r2 := writeRegisters REG_HUNDREDTH array false (final r1) in
  let r3 := clearRegisterBit REG_CTRL_1 REG_CTRL_1_WRTC true (final r2) in
  let run := setRtcFromTm timeptr lock s in
  let last := if result r1 then (if result r2 then final r3 else final r2)
              else final r1 in
  result run = result r1 && result r2
  /\ trace run =
       trace r1 ++
       (if result r1
        then trace r2 ++ (if result r2 then trace r3 else [])
        else [])
  /\ regs (wire (final run)) = regs (wire last)
  /\ acks (wire (final run)) = acks (wire last).
Proof.
  cbv zeta. unfold setRtcFromTm.
  destruct (when_lock_bus lock wire_lock s (or_introl eq_refl)) as (_ & _ & T0).
  set (s0 := final (when lock wire_lock s)) in *.
  set (array := 0x00 :: tmToRegisters timeptr true).
  rewrite result_bind, trace_bind, final_bind, T0. fold s0. cbn [app].
  rewrite result_bind, trace_bind, final_bind.
  set (r1 := setRegisterBit REG_CTRL_1 REG_CTRL_1_WRTC true s0).
  rewrite result_bind, trace_bind, final_bind.
  destruct (result r1); mnorm.
  - set (r2 := writeRegisters REG_HUNDREDTH array false (final r1)).
    destruct (result r2); mnorm.
    + set (r3 := clearRegisterBit REG_CTRL_1 REG_CTRL_1_WRTC true (final r2)).
      destruct (when_lock_bus lock wire_unlock (final r3) (or_intror eq_refl))
        as (R & A & T).
      rewrite T, R, A, ?app_nil_r. repeat split; reflexivity.
    + destruct (when_lock_bus lock wire_unlock (final r2) (or_intror eq_refl))
        as (R & A & T).
      rewrite T, R, A, ?app_nil_r. repeat split; reflexivity.
  - destruct (when_lock_bus lock wire_unlock (final r1) (or_intror eq_refl))
      as (R & A & T).
    rewrite T, R, A, ?app_nil_r. repeat split; reflexivity.
Qed.

Lemma wrtc_regs s1 s2 : regs (wire s1) = regs (wire s2) -> wrtc s1 = wrtc s2.
Proof. unfold wrtc, reg. intros ->. reflexivity. Qed.

Lemma wrtc_after_set old :
  0 <= old < 256 -> bit_set (Z.lor old REG_CTRL_1_WRTC) REG_CTRL_1_WRTC = true.
Proof.
  intros H.
  apply (checked_below (fun o =>
    bit_set (Z.lor o REG_CTRL_1_WRTC) REG_CTRL_1_WRTC) 256);
    [vm_compute; reflexivity | lia].
Qed.

(** Setting WRTC: a failure leaves the chip as it was, a success leaves
    WRTC set, and no write that clears WRTC goes out. *)
Lemma setRegisterBit_wrtc s :
  let r1 := setRegisterBit REG_CTRL_1 REG_CTRL_1_WRTC true s in
  (result r1 = false -> regs (wire (final r1)) = regs (wire s))
  /\ (result r1 = true -> wrtc (final r1) = true)
  /\ Forall (fun t => clears_wrtc t = false) (trace r1).
Proof.
  cbv zeta. unfold setRegisterBit.
  pose proof (maskRegister_run REG_CTRL_1 0xff REG_CTRL_1_WRTC true s) as E.
  cbv zeta in E. rewrite E. clear E.
  change (u8 REG_CTRL_1) with REG_CTRL_1.
  rewrite (set_bit_byte _ REG_CTRL_1_WRTC (reg_range _ _))
    by (vm_compute; intuition discriminate).
  pose proof (wrtc_after_set (reg s REG_CTRL_1) (reg_range _ _)) as Hset.
  assert (Hrange : 0 <= Z.lor (reg s REG_CTRL_1) REG_CTRL_1_WRTC < 256).
  { rewrite <- (set_bit_byte _ REG_CTRL_1_WRTC (reg_range _ _))
      by (vm_compute; intuition discriminate).
    apply u8_range. }
  set (new := Z.lor (reg s REG_CTRL_1) REG_CTRL_1_WRTC) in *.
  destruct (next_ack (wire s)).
  - destruct (Z.eqb_spec new (reg s REG_CTRL_1)) as [Eq|Ne]; cbn [negb].
    + unfold result, final, trace; cbn [fst snd].
      split; [intros; apply regs_pop_ack | split].
      * intros _. rewrite (wrtc_regs _ s) by apply regs_pop_ack.
        unfold wrtc. rewrite <- Eq. exact Hset.
      * repeat constructor.
    + destruct (next_ack (wire (pop_ack s)));
        unfold result, final, trace; cbn [fst snd].
      * split; [intros Hx; discriminate Hx | split].
        -- intros _. unfold wrtc.
           unfold reg at 1. rewrite !regs_pop_ack, regs_set_regs, store_one.
           change (REG_CTRL_1 =? REG_CTRL_1) with true. cbv beta iota.
           rewrite u8_idem, u8_small by exact Hrange. exact Hset.
        -- repeat constructor. cbn [clears_wrtc]. rewrite Hset. reflexivity.
      * split; [intros _; rewrite !regs_pop_ack; reflexivity | split].
        -- intros Hx; discriminate Hx.
        -- repeat constructor. cbn [clears_wrtc]. rewrite Hset. reflexivity.
  - unfold result, final, trace; cbn [fst snd].
    split; [intros; apply regs_pop_ack | split].
    + intros Hx; discriminate Hx.
    + repeat constructor.
Qed.

(** Writing the calendar registers never touches control register 1. *)
Lemma writeCalendar_wrtc timeptr s :
  let array := 0x00 :: tmToRegisters timeptr true in
  let r2 := writeRegisters REG_HUNDREDTH array false s in
  wrtc (final r2) = wrtc s
  /\ (result r2 = false -> regs (wire (final r2)) = regs (wire s))
  /\ trace r2 = [Wr REG_HUNDREDTH array (result r2)].
Proof.
  cbv zeta. rewrite writeRegisters_run.
  unfold result, final, trace; cbn [fst snd].
  change (u8 REG_HUNDREDTH) with REG_HUNDREDTH.
  split; [|split; [|reflexivity]].
  - unfold wrtc, reg. rewrite regs_pop_ack.
    destruct (next_ack (wire s)); [|reflexivity].
    rewrite regs_set_regs. unfold tmToRegisters. cbn [app store].
    eval_eqb. reflexivity.
  - intros ->. apply regs_pop_ack.
Qed.

Lemma split_after {A} (P : A -> Prop) l1 l2 pre t post :
  Forall P l1 -> ~ P t -> l1 ++ l2 = pre ++ t :: post ->
  exists pre', pre = l1 ++ pre' /\ l2 = pre' ++ t :: post.
Proof.
  intros Hall Hn. revert pre.
  induction Hall as [|a l1 Ha Hall IH]; intros pre E.
  - exists pre. split; [reflexivity | exact E].
  - destruct pre as [|b pre]; cbn in E; injection E as E1 E2.
    + subst. contradiction.
    + destruct (IH pre E2) as (pre' & -> & ->).
      exists pre'. subst. split; reflexivity.
Qed.

(** C10 as stated fails: a clock that was already set stays reported as
    set after a time-setting attempt that failed at its first step. *)
Lemma setRtcFromTm_failed_yet_reported_set :
  wrtc set_before_then_fault = false
  /\ result (setRtcFromTm tm_leap true set_before_then_fault) = false
  /\ result (isRTCSet (final (setRtcFromTm tm_leap true set_before_then_fault)))
     = true.
Proof. split; [|split]; vm_compute; reflexivity. Qed.

(** A failure of the last step, the write-back that clears WRTC, is not
    reported: the call returns [true] and WRTC stays set. *)
Lemma setRtcFromTm_clear_failure_unreported :
  let run := setRtcFromTm tm_leap true cold_third_fails in
  result run = true
  /\ trace run =
       [Rd REG_CTRL_1 1 true;
        Wr REG_HUNDREDTH (0x00 :: tmToRegisters tm_leap true) true;
        Rd REG_CTRL_1 1 false]
  /\ wrtc (final run) = true.
Proof. split; [|split]; vm_compute; reflexivity. Qed.

(** C10 (amended): [setRtcFromTm] issues a write that clears WRTC only
    after the calendar registers were written successfully; when setting
    WRTC or writing the calendar registers fails, the call returns
    [false], no write clearing WRTC has gone out, and the chip either has
    WRTC set or is as it was before the call; so a clock that was not set
    before the attempt (WRTC set) is not reported as set by [isRTCSet]
    after a failed attempt. *)
Theorem setRtcFromTm_failure_keeps_wrtc (timeptr : tm) (lock : bool) (s : AB1805) :
  let run := setRtcFromTm timeptr lock s in
  let array := 0x00 :: tmToRegisters timeptr true in
  (forall pre t post,
      trace run = pre ++ t :: post -> clears_wrtc t = true ->
      In (Wr REG_HUNDREDTH array true) pre)
  /\ (result run = false ->
      Forall (fun t => clears_wrtc t = false) (trace run)
      /\ (wrtc (final run) = true \/ regs (wire (final run)) = regs (wire s))
      /\ (wrtc s = true ->
          wrtc (final run) = true /\ result (isRTCSet (final run)) = false)).
Proof.
  cbv zeta.
  destruct (setRtcFromTm_steps timeptr lock s) as (Hres & Htr & Hregs & _).
  cbv zeta in Hres, Htr, Hregs.
  destruct (when_lock_bus lock wire_lock s (or_introl eq_refl)) as (R0 & _ & _).
  set (s0 := final (when lock wire_lock s)) in *.
  destruct (setRegisterBit_wrtc s0) as (F1 & T1 & C1). cbv zeta in F1, T1, C1.
  set (r1 := setRegisterBit REG_CTRL_1 REG_CTRL_1_WRTC true s0) in *.
  destruct (writeCalendar_wrtc timeptr (final r1)) as (W2 & F2 & Tr2).
  cbv zeta in W2, F2, Tr2.
  set (array := 0x00 :: tmToRegisters timeptr true) in *.
  set (r2 := writeRegisters REG_HUNDREDTH array false (final r1)) in *.
  assert (C2 : Forall (fun t => clears_wrtc t = false) (trace r2)).
  { rewrite Tr2. repeat constructor. }
  assert (Hno : forall t, clears_wrtc t = true -> ~ clears_wrtc t = false)
    by (intros t -> ; discriminate).
  split.
  - intros pre t post E Hc. rewrite Htr in E.
    destruct (split_after _ _ _ _ _ _ C1 (Hno t Hc) E) as (pre1 & -> & E1).
    destruct (result r1); [|destruct pre1; discriminate E1].
    destruct (split_after _ _ _ _ _ _ C2 (Hno t Hc) E1) as (pre2 & -> & E2).
    destruct (result r2) eqn:Er2; [|destruct pre2; discriminate E2].
    rewrite Tr2. apply in_or_app. right. left. reflexivity.
  - intros Hfalse. rewrite Hres in Hfalse.
    assert (Hw : wrtc (final (setRtcFromTm timeptr lock s)) =
                 wrtc (if result r1
                       then if result r2
                            then final (clearRegisterBit REG_CTRL_1
                                          REG_CTRL_1_WRTC true (final r2))
                            else final r2
                       else final r1))
      by (apply wrtc_regs; exact Hregs).
    rewrite isRTCSet_result, Hw, Hregs, Htr. clear Hw Hregs Htr Hres.
    destruct (result r1) eqn:Er1.
    + cbn [andb] in Hfalse. rewrite Hfalse in *.
      assert (Hset : wrtc (final r2) = true) by (rewrite W2; auto).
      rewrite Hset, andb_false_r, app_nil_r.
      split; [apply Forall_app; split; assumption | split; [left|]];
        auto.
    + assert (Hsame : regs (wire (final r1)) = regs (wire s))
        by (rewrite F1, R0; reflexivity).
      rewrite app_nil_r, (wrtc_regs _ _ Hsame).
      split; [exact C1 | split; [right; exact Hsame |]].
      intros ->. split; [reflexivity | apply andb_false_r].
Qed.

Lemma setRtcFromTm_failure_keeps_wrtc_witness :
  let run := setRtcFromTm tm_leap true cold_second_fails in
  result run = false /\ wrtc cold_second_fails = true
  /\ wrtc (final run) = true /\ result (isRTCSet (final run)) = false.
Proof.
  cbv zeta.
  assert (Hf : result (setRtcFromTm tm_leap true cold_second_fails) = false)
    by (vm_compute; reflexivity).
  assert (Hw : wrtc cold_second_fails = true) by reflexivity.
  split; [exact Hf | split; [exact Hw |]].
  destruct (setRtcFromTm_failure_keeps_wrtc tm_leap true cold_second_fails)
    as (_ & K).
  destruct (K Hf) as (_ & _ & L).
  exact (L Hw).
Defined.

(** ** Composite operations and failures *)

(** [resetConfig] drops the result of every register operation: with the
    very first write failing it goes on through the whole sequence and
    returns [true]. *)
Lemma resetConfig_ignores_failures :
  result (resetConfig 0 first_fails) = true
  /\ hd_error (trace (resetConfig 0 first_fails))
     = Some (Wr REG_STATUS [REG_STATUS_DEFAULT] false)
  /\ length (trace (resetConfig 0 first_fails)) = 16%nat.
Proof. split; [|split]; vm_compute; reflexivity. Qed.

(** C4 as stated fails: [repeatingInterrupt] carries on after a failed
    read-back of the alarm registers and returns [true], and
    [resetConfig] carries on after any failure and returns [true]. *)
Lemma composite_operations_not_all_fail_fast :
  (let run := repeatingInterrupt tm_leap REG_TIMER_CTRL_RPT_DATE fourth_fails in
   result run = true
   /\ nth_error (trace run) 3 = Some (Rd REG_HUNDREDTH_ALARM 7 false)
   /\ length (trace run) = 11%nat
   /\ ~ stops_at_failure every_txn (negb (result run)) (trace run))
  /\ ~ stops_at_failure every_txn
         (negb (result (resetConfig 0 first_fails)))
         (trace (resetConfig 0 first_fails)).
Proof.
  assert (E1 : repeatingInterrupt tm_leap REG_TIMER_CTRL_RPT_DATE fourth_fails
               = (true,
                  final (repeatingInterrupt tm_leap REG_TIMER_CTRL_RPT_DATE
                           fourth_fails),
                  [Wr 27 [0] true; Rd 15 1 true;
                   Wr 8 [0; 88; 89; 35; 41; 2; 4] true]
                  ++ Rd 8 7 false
                  :: [Rd 0 8 true; Rd 17 1 true; Wr 17 [3] true; Rd 18 1 true;
                      Wr 18 [4] true; Rd 24 1 true; Wr 24 [8] true]))
    by (vm_compute; reflexivity).
  assert (E2 : result (resetConfig 0 first_fails) = true
               /\ trace (resetConfig 0 first_fails)
                  = [] ++ Wr 15 [0] false
                    :: [Wr 16 [19] true; Wr 17 [60] true; Wr 18 [224] true;
                        Wr 19 [38] true; Wr 23 [0] true; Wr 24 [35] true;
                        Wr 25 [0] true; Wr 26 [0] true; Wr 27 [0] true;
                        Wr 28 [0] true; Wr 32 [0] true; Wr 33 [240] true;
                        Wr 38 [0] true; Wr 39 [128] true; Wr 48 [0] true])
    by (split; vm_compute; reflexivity).
  cbv zeta. rewrite E1. destruct E2 as [E2 E3]. rewrite E2, E3.
  unfold result, trace. cbn [fst snd].
  split; [split; [reflexivity | split; [reflexivity | split; [reflexivity |]]]|].
  - intros H. destruct (H _ _ _ eq_refl eq_refl eq_refl) as [Hx _].
    discriminate Hx.
  - intros H. destruct (H _ _ _ eq_refl eq_refl eq_refl) as [Hx _].
    discriminate Hx.
Qed.

(** C4 (amended): [setCountdownTimer], [interruptCountdownTimer],
    [clearRepeatingInterrupt] and [setTrickle] return [false] and issue
    nothing further as soon as one of their register operations fails;
    [repeatingInterrupt] does so for every operation but the two
    read-backs of its TESTING block, whose failures are ignored;
    [deepPowerDown] does so for every operation of its configuration
    sequence, and once that sequence has completed it only polls the
    sleep-control register and resets the host, so it never returns
    [true]. *)
Theorem composite_operations_fail_fast :
  (forall value minutes, fail_fast every_txn (setCountdownTimer value minutes))
  /\ (forall value minutes,
        fail_fast every_txn (interruptCountdownTimer value minutes))
  /\ fail_fast every_txn clearRepeatingInterrupt
  /\ (forall diodeAndRout, fail_fast every_txn (setTrickle diodeAndRout))
  /\ (forall timeptr rptValue,
        fail_fast (fun t => negb (is_readback t))
                  (repeatingInterrupt timeptr rptValue))
  /\ (forall seconds polls,
        fail_fast_by returned_false (fun t => negb (is_sleep_poll t))
                     (deepPowerDown seconds polls))
  /\ (forall seconds polls s,
        result (deepPowerDown seconds polls s) <> Returned true).
Proof.
  repeat match goal with |- _ /\ _ => split end.
  - intros. apply fail_fast_setCountdownTimer.
  - intros. unfold interruptCountdownTimer, fail_fast.
    repeat (apply fail_fast_orFail;
            [ reflexivity
            | first [ apply fail_fast_writeRegister
                    | apply fail_fast_writeRegisters
                    | apply fail_fast_maskRegister
                    | apply fail_fast_setWDT
                    | apply fail_fast_setCountdownTimer ] |]).
    apply fail_fast_ret.
  - unfold clearRepeatingInterrupt, clearRegisterBit, fail_fast.
    repeat (apply fail_fast_orFail;
            [ reflexivity
            | first [ apply fail_fast_writeRegister
                    | apply fail_fast_writeRegisters
                    | apply fail_fast_maskRegister
                    | apply fail_fast_setWDT
                    | apply fail_fast_setCountdownTimer ] |]).
    apply fail_fast_ret.
  - intros. unfold setTrickle, fail_fast.
    repeat (apply fail_fast_orFail;
            [ reflexivity
            | first [ apply fail_fast_writeRegister
                    | apply fail_fast_writeRegisters
                    | apply fail_fast_maskRegister
                    | apply fail_fast_setWDT
                    | apply fail_fast_setCountdownTimer ] |]).
    apply fail_fast_ret.
  - intros. unfold repeatingInterrupt, clearRegisterBit, setRegisterBit, fail_fast.
    repeat (apply fail_fast_orFail;
            [ reflexivity
            | first [ apply fail_fast_writeRegister
                    | apply fail_fast_writeRegisters
                    | apply fail_fast_maskRegister
                    | apply fail_fast_setWDT
                    | apply fail_fast_setCountdownTimer ] |]).
    apply fail_fast_after;
      [apply emits_readRegisters; intros ok; reflexivity | intros _].
    apply fail_fast_after;
      [apply emits_readRegisters; intros ok; reflexivity | intros _].
    repeat (apply fail_fast_orFail;
            [ reflexivity
            | first [ apply fail_fast_writeRegister
                    | apply fail_fast_writeRegisters
                    | apply fail_fast_maskRegister
                    | apply fail_fast_setWDT
                    | apply fail_fast_setCountdownTimer ] |]).
    apply fail_fast_ret.
  - intros. unfold deepPowerDown, clearRegisterBit, setRegisterBit.
    cbv zeta.
    repeat (apply fail_fast_orFail;
            [ reflexivity
            | first [ apply fail_fast_writeRegister
                    | apply fail_fast_writeRegisters
                    | apply fail_fast_maskRegister
                    | apply fail_fast_setWDT
                    | apply fail_fast_setCountdownTimer ] |]).
    apply fail_fast_after; [apply emits_pollSleepCtrl | intros _].
    apply fail_fast_ret.
  - intros seconds polls s. unfold deepPowerDown. cbv zeta.
    unfold orFail. mnorm.
    repeat match goal with
    | |- context [if ?b then _ else _] => destruct b; mnorm
    end; discriminate.
Qed.

(** [deepPowerDown] on a responsive chip: the configuration sequence,
    then the polls, then the host reset. *)
Example deepPowerDown_resets :
  result (deepPowerDown 30 2 idle) = HostReset
  /\ skipn 19 (trace (deepPowerDown 30 2 idle))
     = [Wr REG_SLEEP_CTRL [0xc0] true;
        Rd REG_SLEEP_CTRL 1 true; Rd REG_SLEEP_CTRL 1 true]
  /\ result (deepPowerDown 30 2 first_fails) = Returned false.
Proof. split; [|split]; vm_compute; reflexivity. Qed.

(** ** RAM store *)

Lemma xada_after_clear old :
  0 <= old < 256 ->
  bit_set (Z.land old (Z.lnot REG_EXT_ADDR_XADA)) REG_EXT_ADDR_XADA = false.
Proof.
  intros H. apply negb_true_iff.
  apply (checked_below (fun o =>
    negb (bit_set (Z.land o (Z.lnot REG_EXT_ADDR_XADA)) REG_EXT_ADDR_XADA)) 256);
    [vm_compute; reflexivity | lia].
Qed.

Lemma xada_after_set old :
  0 <= old < 256 ->
  bit_set (Z.lor old REG_EXT_ADDR_XADA) REG_EXT_ADDR_XADA = true.
Proof.
  intros H.
  apply (checked_below (fun o =>
    bit_set (Z.lor o REG_EXT_ADDR_XADA) REG_EXT_ADDR_XADA) 256);
    [vm_compute; reflexivity | lia].
Qed.

(** Selecting the bank for RAM address [a], on any transport. *)
Lemma select_bank a s :
  let run := (if a <? 128
              then clearRegisterBit REG_EXT_ADDR REG_EXT_ADDR_XADA true
              else setRegisterBit REG_EXT_ADDR REG_EXT_ADDR_XADA true) s in
  bank_access a (regs (wire s)) (trace run)
  /\ regs (wire (final run)) = replay (trace run) (regs (wire s)).
Proof.
  cbv zeta. unfold clearRegisterBit, setRegisterBit, bank_access.
  destruct (Z.ltb_spec a 128) as [Hlt|Hge].
  - destruct (maskRegister_effect REG_EXT_ADDR
                (Z.lnot (u8 REG_EXT_ADDR_XADA)) 0x00 true s) as (Ht & Hr & Hv).
    cbv zeta in Hv. change (u8 REG_EXT_ADDR) with REG_EXT_ADDR in *.
    split; [split; [exact Ht|] | exact Hr].
    intros Hok. unfold bank. rewrite (Hv Hok).
    rewrite (clear_bit_byte _ REG_EXT_ADDR_XADA (reg_range _ _))
      by (vm_compute; intuition discriminate).
    rewrite xada_after_clear by apply reg_range.
    symmetry. apply Z.leb_gt. exact Hlt.
  - destruct (maskRegister_effect REG_EXT_ADDR
                0xff REG_EXT_ADDR_XADA true s) as (Ht & Hr & Hv).
    cbv zeta in Hv. change (u8 REG_EXT_ADDR) with REG_EXT_ADDR in *.
    split; [split; [exact Ht|] | exact Hr].
    intros Hok. unfold bank. rewrite (Hv Hok).
    rewrite (set_bit_byte _ REG_EXT_ADDR_XADA (reg_range _ _))
      by (vm_compute; intuition discriminate).
    rewrite xada_after_set by apply reg_range.
    symmetry. apply Z.leb_le. exact Hge.
Qed.

(** When nothing fails, selecting the bank succeeds, all its traffic
    completes and the transport stays free of failures. *)
Lemma select_bank_healthy a s :
  healthy s ->
  let run := (if a <? 128
              then clearRegisterBit REG_EXT_ADDR REG_EXT_ADDR_XADA true
              else setRegisterBit REG_EXT_ADDR REG_EXT_ADDR_XADA true) s in
  healthy (final run) /\ Forall (fun x => txn_ok x = true) (trace run).
Proof.
  intros H. cbv zeta. unfold clearRegisterBit, setRegisterBit.
  destruct (a <? 128); rewrite maskRegister_healthy by assumption; cbv zeta;
    destruct (negb _); unfold final, trace; cbn [fst snd];
    (split; [auto with drv | repeat constructor]).
Qed.

Lemma bank_of_low x : 0 <= x < 128 -> x / 128 = 0.
Proof. intros H. apply Z.div_small. exact H. Qed.

Lemma bank_of_high x : 128 <= x < 256 -> x / 128 = 1.
Proof.
  intros H. symmetry. apply (Z.div_unique x 128 1 (x - 128)); lia.
Qed.

(** The size of the chunk the loops pick, for a transfer inside the RAM. *)
Lemma chunk_count limit a len :
  1 <= limit <= 32 -> 0 <= a -> 0 < len -> a + len <= 256 ->
  let count := if len >? limit then limit else len in
  let count := if (a <? 128) && (usize (a + count) >? 128)
               then usize (128 - a) else count in
  fits limit a len count
  /\ usize (a + count) = a + count
  /\ usize (len - count) = len - count.
Proof.
  intros Hl Ha Hlen Hfit. cbv zeta.
  set (c0 := if len >? limit then limit else len).
  assert (Hc0 : 1 <= c0 <= limit /\ c0 <= len).
  { unfold c0. destruct (Z.gtb_spec len limit); lia. }
  assert (P32 : 2 ^ 32 = 4294967296) by reflexivity.
  rewrite (usize_small (a + c0)) by lia.
  destruct (Z.ltb_spec a 128) as [Hlow|Hhigh]; cbn [andb].
  - destruct (Z.gtb_spec (a + c0) 128) as [Hx|Hx].
    + rewrite (usize_small (128 - a)) by lia.
      rewrite !usize_small by lia.
      unfold fits. repeat split; try lia.
      rewrite !bank_of_low by lia. reflexivity.
    + rewrite !usize_small by lia.
      unfold fits. repeat split; try lia.
      rewrite !bank_of_low by lia. reflexivity.
  - rewrite !usize_small by lia.
    unfold fits. repeat split; try lia.
    rewrite !bank_of_high by lia. reflexivity.
Qed.

Lemma ram_window a :
  0 <= a -> u8 (REG_ALT_RAM + Z.land a 0x7f) = REG_ALT_RAM + a mod 128.
Proof.
  intros Ha. change 0x7f with (Z.ones 7).
  rewrite Z.land_ones by lia. change (2 ^ 7) with 128.
  pose proof (Z.mod_pos_bound a 128 ltac:(lia)).
  apply u8_small. unfold REG_ALT_RAM. lia.
Qed.

(** The loop of [readRam] for a range inside the RAM, on any transport. *)
Lemma readRam_loop_chunked fuel :
  forall ramAddr dataLen data s,
    0 <= ramAddr -> 0 <= dataLen -> ramAddr + dataLen <= 256 ->
    (Z.to_nat dataLen <= fuel)%nat ->
    chunked 32 false ramAddr dataLen (regs (wire s))
            (trace (readRam_loop fuel ramAddr dataLen data s)).
Proof.
  induction fuel as [|fuel IH]; intros ramAddr dataLen data s Ha Hl Hfit Hfuel.
  - assert (dataLen = 0) by lia. subst dataLen. constructor.
  - cbn [readRam_loop].
    destruct (Z.gtb_spec dataLen 0) as [Hpos|Hzero].
    2:{ assert (dataLen = 0) by lia. subst dataLen. constructor. }
    destruct (chunk_count 32 ramAddr dataLen) as (C1 & C5 & C6); try lia.
    cbv zeta in C1, C5, C6.
    set (count := if (ramAddr <? 128) &&
                     (usize (ramAddr + (if dataLen >? 32 then 32 else dataLen)) >? 128)
                  then usize (128 - ramAddr)
                  else if dataLen >? 32 then 32 else dataLen) in *.
    destruct (select_bank ramAddr s) as (Hsel & Hregs).
    cbv zeta in Hsel, Hregs.
    rewrite C5, C6. unfold bind.
    destruct ((if ramAddr <? 128
               then clearRegisterBit REG_EXT_ADDR REG_EXT_ADDR_XADA true
               else setRegisterBit REG_EXT_ADDR REG_EXT_ADDR_XADA true) s)
      as [[b1 s1] sel].
    unfold final, trace in Hsel, Hregs. cbn [fst snd] in Hsel, Hregs.
    rewrite readRegisters_run, ram_window by exact Ha.
    assert (Hcar : forall ok, carries false ramAddr count
                     (Rd (REG_ALT_RAM + ramAddr mod 128) count ok))
      by (intros ok; repeat split).
    destruct (next_ack (wire s1)).
    + set (bytes := burst (regs (wire s1)) (REG_ALT_RAM + ramAddr mod 128)
                          (Z.to_nat count)).
      destruct C1 as (Hc1 & Hc2 & Hc3 & Hc4).
      pose proof (IH (ramAddr + count) (dataLen - count) (data ++ bytes)
                     (pop_ack s1) ltac:(lia) ltac:(lia) ltac:(lia) ltac:(lia))
        as Hch.
      destruct (readRam_loop fuel (ramAddr + count) (dataLen - count)
                  (data ++ bytes) (pop_ack s1)) as [[r2 s2] t2].
      unfold trace in Hch |- *. cbn [fst snd app] in Hch |- *.
      apply (chunked_chunk 32 false ramAddr dataLen count); auto.
      * unfold fits. auto.
      * rewrite replay_app. cbn [replay fold_left chip_after].
        fold (replay sel (regs (wire s))).
        rewrite <- Hregs, <- (regs_pop_ack s1). exact Hch.
    + unfold trace. cbn [fst snd app].
      apply (chunked_abort 32 false ramAddr dataLen count); auto.
Qed.

(** The loop of [writeRam] for a range inside the RAM, on any transport. *)
Lemma writeRam_loop_chunked fuel :
  forall ramAddr dataLen data s,
    0 <= ramAddr -> 0 <= dataLen -> ramAddr + dataLen <= 256 ->
    dataLen <= Z.of_nat (length data) ->
    (Z.to_nat dataLen <= fuel)%nat ->
    chunked 31 true ramAddr dataLen (regs (wire s))
            (trace (writeRam_loop fuel ramAddr data dataLen s)).
Proof.
  induction fuel as [|fuel IH];
    intros ramAddr dataLen data s Ha Hl Hfit Hdata Hfuel.
  - assert (dataLen = 0) by lia. subst dataLen. constructor.
  - cbn [writeRam_loop].
    destruct (Z.gtb_spec dataLen 0) as [Hpos|Hzero].
    2:{ assert (dataLen = 0) by lia. subst dataLen. constructor. }
    destruct (chunk_count 31 ramAddr dataLen) as (C1 & C5 & C6); try lia.
    cbv zeta in C1, C5, C6.
    set (count := if (ramAddr <? 128) &&
                     (usize (ramAddr + (if dataLen >? 31 then 31 else dataLen)) >? 128)
                  then usize (128 - ramAddr)
                  else if dataLen >? 31 then 31 else dataLen) in *.
    destruct (select_bank ramAddr s) as (Hsel & Hregs).
    cbv zeta in Hsel, Hregs.
    rewrite C5, C6. unfold bind.
    destruct ((if ramAddr <? 128
               then clearRegisterBit REG_EXT_ADDR REG_EXT_ADDR_XADA true
               else setRegisterBit REG_EXT_ADDR REG_EXT_ADDR_XADA true) s)
      as [[b1 s1] sel].
    unfold final, trace in Hsel, Hregs. cbn [fst snd] in Hsel, Hregs.
    rewrite writeRegisters_run, ram_window by exact Ha.
    destruct C1 as (Hc1 & Hc2 & Hc3 & Hc4).
    set (chunk := firstn (Z.to_nat count) data).
    assert (Hcar : forall ok, carries true ramAddr count
                     (Wr (REG_ALT_RAM + ramAddr mod 128) chunk ok)).
    { intros ok. repeat split. cbn [txn_len]. unfold chunk.
      rewrite length_firstn. lia. }
    destruct (next_ack (wire s1)).
    + set (s1' := pop_ack (set_regs (store (regs (wire s1))
                             (REG_ALT_RAM + ramAddr mod 128) chunk) s1)).
      assert (Hd' : dataLen - count
                    <= Z.of_nat (length (skipn (Z.to_nat count) data)))
        by (rewrite length_skipn; lia).
      pose proof (IH (ramAddr + count) (dataLen - count)
                     (skipn (Z.to_nat count) data) s1'
                     ltac:(lia) ltac:(lia) ltac:(lia) Hd' ltac:(lia)) as Hch.
      destruct (writeRam_loop fuel (ramAddr + count)
                  (skipn (Z.to_nat count) data) (dataLen - count) s1')
        as [[r2 s2] t2].
      unfold trace in Hch |- *. cbn [fst snd app] in Hch |- *.
      apply (chunked_chunk 31 true ramAddr dataLen count); auto.
      * unfold fits. auto.
      * rewrite replay_app. cbn [replay fold_left chip_after].
        fold (replay sel (regs (wire s))). rewrite <- Hregs.
        unfold s1' in Hch. rewrite regs_pop_ack, regs_set_regs in Hch.
        exact Hch.
    + unfold trace. cbn [fst snd app].
      apply (chunked_abort 31 true ramAddr dataLen count); auto.
      unfold fits. auto.
Qed.

(** When nothing fails the loops run to the end: every transaction
    completes, the result is [true] and a read delivers [dataLen] bytes. *)
Lemma readRam_loop_healthy fuel :
  forall ramAddr dataLen data s,
    healthy s -> 0 <= ramAddr -> 0 <= dataLen -> ramAddr + dataLen <= 256 ->
    (Z.to_nat dataLen <= fuel)%nat ->
    let run := readRam_loop fuel ramAddr dataLen data s in
    (exists bytes, result run = Some (true, data ++ bytes)
                   /\ Z.of_nat (length bytes) = dataLen)
    /\ Forall (fun x => txn_ok x = true) (trace run).
Proof.
  induction fuel as [|fuel IH]; intros ramAddr dataLen data s H Ha Hl Hfit Hfuel;
    cbv zeta.
  - assert (dataLen = 0) by lia. subst dataLen. cbn.
    split; [exists []; rewrite app_nil_r; split; reflexivity | constructor].
  - cbn [readRam_loop].
    destruct (Z.gtb_spec dataLen 0) as [Hpos|Hzero].
    2:{ assert (dataLen = 0) by lia. subst dataLen.
        split; [exists []; rewrite app_nil_r; split; reflexivity | constructor]. }
    destruct (chunk_count 32 ramAddr dataLen) as (C1 & C5 & C6); try lia.
    cbv zeta in C1, C5, C6. destruct C1 as (Hc1 & Hc2 & Hc3 & Hc4).
    set (count := if (ramAddr <? 128) &&
                     (usize (ramAddr + (if dataLen >? 32 then 32 else dataLen)) >? 128)
                  then usize (128 - ramAddr)
                  else if dataLen >? 32 then 32 else dataLen) in *.
    destruct (select_bank_healthy ramAddr s H) as (Hh & Hok).
    cbv zeta in Hh, Hok.
    rewrite C5, C6. unfold bind.
    destruct ((if ramAddr <? 128
               then clearRegisterBit REG_EXT_ADDR REG_EXT_ADDR_XADA true
               else setRegisterBit REG_EXT_ADDR REG_EXT_ADDR_XADA true) s)
      as [[b1 s1] sel].
    unfold final, trace in Hh, Hok. cbn [fst snd] in Hh, Hok.
    rewrite readRegisters_healthy by exact Hh.
    set (bytes := burst (regs (wire s1)) (u8 (REG_ALT_RAM + Z.land ramAddr 127))
                        (Z.to_nat count)).
    destruct (IH (ramAddr + count) (dataLen - count) (data ++ bytes) s1)
      as ((more & Eres & Elen) & Hall); try lia; try exact Hh.
    cbv zeta in Eres, Hall.
    destruct (readRam_loop fuel (ramAddr + count) (dataLen - count)
                (data ++ bytes) s1) as [[r2 s2] t2].
    unfold result, trace in Eres, Hall |- *. cbn [fst snd] in Eres, Hall |- *.
    split.
    + exists (bytes ++ more). rewrite Eres, app_assoc. split; [reflexivity|].
      rewrite length_app, Nat2Z.inj_add, Elen. unfold bytes.
      rewrite burst_length, Z2Nat.id by lia. lia.
    + apply Forall_app. split; [exact Hok|].
      constructor; [reflexivity | exact Hall].
Qed.

Lemma writeRam_loop_healthy fuel :
  forall ramAddr dataLen data s,
    healthy s -> 0 <= ramAddr -> 0 <= dataLen -> ramAddr + dataLen <= 256 ->
    (Z.to_nat dataLen <= fuel)%nat ->
    let run := writeRam_loop fuel ramAddr data dataLen s in
    result run = Some true
    /\ Forall (fun x => txn_ok x = true) (trace run).
Proof.
  induction fuel as [|fuel IH]; intros ramAddr dataLen data s H Ha Hl Hfit Hfuel;
    cbv zeta.
  - assert (dataLen = 0) by lia. subst dataLen. cbn.
    split; [reflexivity | constructor].
  - cbn [writeRam_loop].
    destruct (Z.gtb_spec dataLen 0) as [Hpos|Hzero].
    2:{ assert (dataLen = 0) by lia. subst dataLen.
        split; [reflexivity | constructor]. }
    destruct (chunk_count 31 ramAddr dataLen) as (C1 & C5 & C6); try lia.
    cbv zeta in C1, C5, C6. destruct C1 as (Hc1 & Hc2 & Hc3 & Hc4).
    set (count := if (ramAddr <? 128) &&
                     (usize (ramAddr + (if dataLen >? 31 then 31 else dataLen)) >? 128)
                  then usize (128 - ramAddr)
                  else if dataLen >? 31 then 31 else dataLen) in *.
    destruct (select_bank_healthy ramAddr s H) as (Hh & Hok).
    cbv zeta in Hh, Hok.
    rewrite C5, C6. unfold bind.
    destruct ((if ramAddr <? 128
               then clearRegisterBit REG_EXT_ADDR REG_EXT_ADDR_XADA true
               else setRegisterBit REG_EXT_ADDR REG_EXT_ADDR_XADA true) s)
      as [[b1 s1] sel].
    unfold final, trace in Hh, Hok. cbn [fst snd] in Hh, Hok.
    rewrite writeRegisters_healthy by exact Hh.
    match goal with
    | |- context [writeRam_loop fuel ?a ?d ?l ?x] =>
        destruct (IH a l d x) as (Eres & Hall); try lia; auto with drv;
        cbv zeta in Eres, Hall;
        destruct (writeRam_loop fuel a d l x) as [[r2 s2] t2]
    end.
    unfold result, trace in Eres, Hall |- *. cbn [fst snd] in Eres, Hall |- *.
    split; [exact Eres|].
    apply Forall_app. split; [exact Hok|].
    constructor; [reflexivity | exact Hall].
Qed.

(** X30: for a transfer inside the 256 bytes of RAM, [readRam] and
    [writeRam] move the bytes in chunks of at most 32 (read) or 31
    (write) bytes, none crossing the 128-byte bank boundary; before each
    chunk only the extension-address register is accessed, and that
    access, when it completes, leaves the XADA bit set exactly when the
    chunk starts at 128 or above; the chunk goes to register address
    [REG_ALT_RAM + (address mod 128)].  On a transport where no failure
    is scheduled every one of these transactions completes, the calls
    succeed and a read delivers [dataLen] bytes. *)
Theorem ram_transfers_chunked (ramAddr dataLen : Z) (lock : bool) (s : AB1805) :
  0 <= ramAddr -> 0 <= dataLen -> ramAddr + dataLen <= 256 ->
  chunked 32 false ramAddr dataLen (regs (wire s))
          (trace (readRam ramAddr dataLen lock s))
  /\ (forall data,
        dataLen <= Z.of_nat (length data) ->
        chunked 31 true ramAddr dataLen (regs (wire s))
                (trace (writeRam ramAddr data dataLen lock s)))
  /\ (healthy s ->
      Forall (fun x => txn_ok x = true) (trace (readRam ramAddr dataLen lock s))
      /\ (exists bytes,
            result (readRam ramAddr dataLen lock s) = Some (true, bytes)
            /\ Z.of_nat (length bytes) = dataLen)
      /\ forall data,
           Forall (fun x => txn_ok x = true)
                  (trace (writeRam ramAddr data dataLen lock s))
           /\ result (writeRam ramAddr data dataLen lock s) = Some true).
Proof.
  intros Ha Hl Hfit.
  destruct (when_lock_bus lock wire_lock s (or_introl eq_refl)) as (R0 & _ & T0).
  assert (Tu : forall x, trace (when lock wire_unlock x) = []).
  { intros x. apply (when_lock_bus lock wire_unlock x (or_intror eq_refl)). }
  assert (Er : trace (readRam ramAddr dataLen lock s) =
               trace (readRam_loop (Z.to_nat dataLen) ramAddr dataLen []
                        (final (when lock wire_lock s)))).
  { unfold readRam. mnorm. rewrite T0, Tu, app_nil_r. reflexivity. }
  assert (Ew : forall data, trace (writeRam ramAddr data dataLen lock s) =
               trace (writeRam_loop (Z.to_nat dataLen) ramAddr data dataLen
                        (final (when lock wire_lock s)))).
  { intros data. unfold writeRam. mnorm. rewrite T0, Tu, app_nil_r. reflexivity. }
  split; [|split].
  - rewrite Er, <- R0. apply readRam_loop_chunked; auto.
  - intros data Hd. rewrite Ew, <- R0. apply writeRam_loop_chunked; auto.
  - intros H.
    pose proof (healthy_when_lock lock wire_lock s (or_introl eq_refl) H) as H0.
    split; [|split].
    + rewrite Er. apply readRam_loop_healthy; auto.
    + destruct (readRam_loop_healthy (Z.to_nat dataLen) ramAddr dataLen []
                  (final (when lock wire_lock s))) as ((bytes & E & L) & _); auto.
      exists bytes. split; [|exact L]. unfold readRam. mnorm. exact E.
    + intros data.
      destruct (writeRam_loop_healthy (Z.to_nat dataLen) ramAddr dataLen data
                  (final (when lock wire_lock s))) as (E & A); auto.
      split; [rewrite Ew; exact A | unfold writeRam; mnorm; exact E].
Qed.

Lemma ram_transfers_chunked_witness :
  0 <= 120 /\ 0 <= 20 /\ 120 + 20 <= 256
  /\ chunked 32 false 120 20 (regs (wire idle)) (trace (readRam 120 20 true idle))
  /\ chunked 31 true 120 20 (regs (wire second_fails))
       (trace (writeRam 120 (ramp 20) 20 true second_fails))
  /\ result (writeRam 120 (ramp 20) 20 true idle) = Some true.
Proof.
  split; [lia | split; [lia | split; [lia|]]].
  destruct (ram_transfers_chunked 120 20 true idle) as (C & _ & K); try lia.
  destruct (ram_transfers_chunked 120 20 true second_fails) as (_ & W & _);
    try lia.
  split; [exact C | split].
  - apply (W (ramp 20)). cbn. lia.
  - destruct (K eq_refl) as (_ & _ & L). apply (L (ramp 20)).
Defined.

(** The transactions of a read and of a write across the bank boundary. *)
Example readRam_across_banks :
  trace (readRam 120 20 true idle) =
    [Rd REG_EXT_ADDR 1 true; Rd 0xf8 8 true;
     Rd REG_EXT_ADDR 1 true; Wr REG_EXT_ADDR [0x04] true; Rd 0x80 12 true]
  /\ result (readRam 120 20 true idle)
     = Some (true, repeat 0 20).
Proof. split; vm_compute; reflexivity. Qed.

Example writeRam_in_bursts :
  map txn_len (filter txn_is_write (trace (writeRam 100 (ramp 70) 70 true idle)))
    = [28; 1; 31; 11]
  /\ map txn_addr (filter txn_is_write (trace (writeRam 100 (ramp 70) 70 true idle)))
    = [0xe4; REG_EXT_ADDR; 0x80; 0x9f].
Proof. split; vm_compute; reflexivity. Qed.

(** C3, at the failing input.  The outcome of the bank selection is not
    looked at: when the read of the extension-address register fails,
    the chunk at RAM address 130 is still moved, through the window of
    the bank that happens to be selected (here the lower one, so the
    bytes of RAM address 2 are read or overwritten), and the call
    reports success. *)
Theorem ram_bank_selection_unchecked :
  (trace (readRam 130 2 true first_fails)
   = [Rd REG_EXT_ADDR 1 false; Rd 0x82 2 true]
   /\ result (readRam 130 2 true first_fails) = Some (true, [0; 0])
   /\ bank (regs (wire first_fails)) = false
   /\ bank (regs (wire (final (readRam 130 2 true first_fails)))) = false)
  /\ (trace (writeRam 130 [7; 9] 2 true first_fails)
      = [Rd REG_EXT_ADDR 1 false; Wr 0x82 [7; 9] true]
      /\ result (writeRam 130 [7; 9] 2 true first_fails) = Some true
      /\ bank (regs (wire (final (writeRam 130 [7; 9] 2 true first_fails))))
         = false).
Proof. repeat split; vm_compute; reflexivity. Qed.

(** *** The loops terminate *)

(** Whatever the transport does, a round consumes at least one byte and
    never more than what is left. *)
Lemma chunk_count_progress limit a len :
  1 <= limit <= 32 -> 0 <= a < 2 ^ 32 -> 0 < len < 2 ^ 32 ->
  let count := if len >? limit then limit else len in
  let count := if (a <? 128) && (usize (a + count) >? 128)
               then usize (128 - a) else count in
  1 <= count <= len.
Proof.
  intros Hl Ha Hlen. cbv zeta.
  set (c0 := if len >? limit then limit else len).
  assert (Hc0 : 1 <= c0 <= limit /\ c0 <= len).
  { unfold c0. destruct (Z.gtb_spec len limit); lia. }
  assert (P32 : 2 ^ 32 = 4294967296) by reflexivity.
  destruct (Z.ltb_spec a 128) as [Hlow|Hhigh]; cbn [andb]; [|lia].
  rewrite (usize_small (a + c0)) by lia.
  destruct (Z.gtb_spec (a + c0) 128); [|lia].
  rewrite usize_small by lia. lia.
Qed.

Lemma readRam_loop_total fuel :
  forall ramAddr dataLen data s,
    0 <= ramAddr < 2 ^ 32 -> 0 <= dataLen < 2 ^ 32 ->
    (Z.to_nat dataLen <= fuel)%nat ->
    result (readRam_loop fuel ramAddr dataLen data s) <> None.
Proof.
  induction fuel as [|fuel IH]; intros ramAddr dataLen data s Ha Hl Hfuel.
  - assert (dataLen = 0) by lia. subst dataLen. discriminate.
  - cbn [readRam_loop].
    destruct (Z.gtb_spec dataLen 0) as [Hpos|Hzero]; [|discriminate].
    pose proof (chunk_count_progress 32 ramAddr dataLen) as C.
    cbv zeta in C.
    set (count := if (ramAddr <? 128) &&
                     (usize (ramAddr + (if dataLen >? 32 then 32 else dataLen)) >? 128)
                  then usize (128 - ramAddr)
                  else if dataLen >? 32 then 32 else dataLen) in *.
    assert (Hc : 1 <= count <= dataLen) by (apply C; lia).
    mnorm.
    match goal with
    | |- context [result (readRegisters ?a ?n ?l ?x)] =>
        destruct (result (readRegisters a n l x))
    end; [|discriminate].
    apply IH; [apply usize_range | apply usize_range |].
    rewrite usize_small by lia. lia.
Qed.

Lemma writeRam_loop_total fuel :
  forall ramAddr dataLen data s,
    0 <= ramAddr < 2 ^ 32 -> 0 <= dataLen < 2 ^ 32 ->
    (Z.to_nat dataLen <= fuel)%nat ->
    result (writeRam_loop fuel ramAddr data dataLen s) <> None.
Proof.
  induction fuel as [|fuel IH]; intros ramAddr dataLen data s Ha Hl Hfuel.
  - assert (dataLen = 0) by lia. subst dataLen. discriminate.
  - cbn [writeRam_loop].
    destruct (Z.gtb_spec dataLen 0) as [Hpos|Hzero]; [|discriminate].
    pose proof (chunk_count_progress 31 ramAddr dataLen) as C.
    cbv zeta in C.
    set (count := if (ramAddr <? 128) &&
                     (usize (ramAddr + (if dataLen >? 31 then 31 else dataLen)) >? 128)
                  then usize (128 - ramAddr)
                  else if dataLen >? 31 then 31 else dataLen) in *.
    assert (Hc : 1 <= count <= dataLen) by (apply C; lia).
    mnorm.
    match goal with
    | |- context [result (writeRegisters ?a ?d ?l ?x)] =>
        destruct (result (writeRegisters a d l x))
    end; [|discriminate].
    apply IH; [apply usize_range | apply usize_range |].
    rewrite usize_small by lia. lia.
Qed.

(** [readRam] and [writeRam] return for every address and length a
    [size_t] can hold, on every transport: the fuel of the model never
    runs out. *)
Lemma ram_loops_return ramAddr dataLen lock s :
  0 <= ramAddr < 2 ^ 32 -> 0 <= dataLen < 2 ^ 32 ->
  result (readRam ramAddr dataLen lock s) <> None
  /\ forall data, result (writeRam ramAddr data dataLen lock s) <> None.
Proof.
  intros Ha Hl. split; [|intros data].
  - unfold readRam. mnorm. apply readRam_loop_total; auto.
  - unfold writeRam. mnorm. apply writeRam_loop_total; auto.
Qed.

(** * Further properties *)

(** ** Time codec, both directions *)

Lemma is_bcd_range b : is_bcd b = true -> 0 <= b < 256.
Proof.
  unfold is_bcd. rewrite !andb_true_iff. intros [[[H1 H2] _] _].
  apply Z.leb_le in H1. apply Z.ltb_lt in H2. lia.
Qed.

Lemma bcd_decode_encode b : is_bcd b = true -> valueToBcd (bcdToValue b) = b.
Proof.
  intros H. pose proof (is_bcd_range b H) as Hr.
  apply (checked_below (fun x =>
    implb (is_bcd x) (valueToBcd (bcdToValue x) =? x)) 256) in Hr;
    [|vm_compute; reflexivity].
  rewrite H in Hr. cbn [implb] in Hr. apply Z.eqb_eq. exact Hr.
Qed.

Lemma bcd_decode_range b : is_bcd b = true -> 0 <= bcdToValue b <= 99.
Proof.
  intros H. pose proof (is_bcd_range b H) as Hr.
  apply (checked_below (fun x =>
    implb (is_bcd x) ((0 <=? bcdToValue x) && (bcdToValue x <=? 99))) 256) in Hr;
    [|vm_compute; reflexivity].
  rewrite H in Hr. cbn [implb] in Hr.
  apply andb_true_iff in Hr. destruct Hr as [H1 H2].
  apply Z.leb_le in H1. apply Z.leb_le in H2. lia.
Qed.

(** Only the last two decimal digits of a value reach the encoding. *)
Lemma valueToBcd_mod_100 v : 0 <= v -> valueToBcd v = valueToBcd (v mod 100).
Proof.
  intros Hv.
  pose proof (Z.mod_pos_bound v 100 ltac:(lia)) as Hr.
  unfold valueToBcd.
  rewrite !Z.quot_div_nonneg, !Z.rem_mod_nonneg by
    (try apply Z.div_pos; lia).
  assert (E1 : v mod 10 = (v mod 100) mod 10).
  { rewrite (Z.div_mod v 100) at 1 by lia.
    replace (100 * (v / 100) + v mod 100)
      with (v mod 100 + (v / 100 * 10) * 10) by ring.
    apply Z.mod_add. lia. }
  assert (E2 : (v / 10) mod 10 = (v mod 100 / 10) mod 10).
  { rewrite (Z.div_mod v 100) at 1 by lia.
    replace (100 * (v / 100) + v mod 100)
      with (v mod 100 + (v / 100 * 10) * 10) by ring.
    rewrite Z.div_add by lia. apply Z.mod_add. lia. }
  rewrite E1, E2. reflexivity.
Qed.

Lemma valueToBcd_is_bcd v : 0 <= v -> is_bcd (valueToBcd v) = true.
Proof.
  intros Hv. rewrite valueToBcd_mod_100 by exact Hv.
  apply (checked_below (fun x => is_bcd (valueToBcd x)) 100);
    [vm_compute; reflexivity | apply Z.mod_pos_bound; lia].
Qed.

(** X1: decoding a byte that holds two decimal digits and encoding the
    value again gives the byte back. *)
Theorem valueToBcd_bcdToValue (bcd : Z) :
  is_bcd bcd = true ->
  0 <= bcdToValue bcd <= 99 /\ valueToBcd (bcdToValue bcd) = bcd.
Proof.
  intros H. split; [apply bcd_decode_range | apply bcd_decode_encode]; exact H.
Qed.

Lemma valueToBcd_bcdToValue_witness :
  is_bcd 0x59 = true /\ valueToBcd (bcdToValue 0x59) = 0x59.
Proof.
  assert (H : is_bcd 0x59 = true) by reflexivity.
  split; [exact H | apply (valueToBcd_bcdToValue 0x59 H)].
Defined.

(** X2: for every non-negative value the encoding is a byte of two
    decimal digits that decodes to the value modulo 100: the hundreds
    are dropped. *)
Theorem bcdToValue_valueToBcd_wraps (v : Z) :
  0 <= v ->
  is_bcd (valueToBcd v) = true /\ bcdToValue (valueToBcd v) = v mod 100.
Proof.
  intros Hv. split; [apply valueToBcd_is_bcd; exact Hv|].
  rewrite valueToBcd_mod_100 by exact Hv.
  apply bcd_inverse.
  pose proof (Z.mod_pos_bound v 100 ltac:(lia)). lia.
Qed.

Lemma bcdToValue_valueToBcd_wraps_witness :
  0 <= 2024 /\ valueToBcd 2024 = 0x24 /\ bcdToValue (valueToBcd 2024) = 24.
Proof.
  split; [lia | split; [reflexivity|]].
  destruct (bcdToValue_valueToBcd_wraps 2024) as [_ E]; [lia | exact E].
Defined.

(** What decoding an encoded time gives, field by field. *)
Lemma registersToTm_encoded t t0 includeYear :
  tm_documented t -> 100 <= tm_year t <= 199 \/ includeYear = false ->
  registersToTm (tmToRegisters t includeYear) t0 includeYear =
    mkTm (tm_sec t) (tm_min t) (tm_hour t) (tm_mday t) (tm_mon t)
         (if includeYear then tm_year t else tm_year t0)
         (tm_wday t) (tm_yday t0) (tm_isdst t0).
Proof.
  intros (Hs & Hmi & Hh & Hd & Hmo & Hw & _) Hy.
  unfold registersToTm, tmToRegisters.
  destruct includeYear; cbn [app nth].
  - destruct Hy as [Hy|Hy]; [|discriminate Hy].
    rewrite (rem_100_century _ Hy), !bcd_inverse by lia.
    f_equal; lia.
  - rewrite !bcd_inverse by lia. f_equal; lia.
Qed.

(** X3: the alarm form of the codec (no year byte): encoding a calendar
    time whose fields are in the documented ranges gives six bytes, and
    decoding them restores second, minute, hour, day of month, month and
    weekday while the year of the struct decoded into is left alone. *)
Theorem registersToTm_tmToRegisters_alarm (t t0 : tm) :
  tm_documented t ->
  length (tmToRegisters t false) = 6%nat
  /\ registersToTm (tmToRegisters t false) t0 false =
       mkTm (tm_sec t) (tm_min t) (tm_hour t) (tm_mday t) (tm_mon t)
            (tm_year t0) (tm_wday t) (tm_yday t0) (tm_isdst t0).
Proof.
  intros H. split; [reflexivity|].
  apply (registersToTm_encoded t t0 false H). right. reflexivity.
Qed.

Lemma registersToTm_tmToRegisters_alarm_witness :
  tm_documented tm_leap
  /\ registersToTm (tmToRegisters tm_leap false) tm_epoch false =
       mkTm 58 59 23 29 1 70 4 0 0.
Proof.
  assert (Hd : tm_documented tm_leap) by (unfold tm_documented; simpl; lia).
  split; [exact Hd|].
  destruct (registersToTm_tmToRegisters_alarm tm_leap tm_epoch Hd) as [_ E].
  exact E.
Defined.

(** X4: the calendar registers survive decoding and encoding: seven
    bytes of two decimal digits each are reproduced by [registersToTm]
    followed by [tmToRegisters], both with the year. *)
Theorem tmToRegisters_registersToTm (array : list Z) (t0 : tm) :
  length array = 7%nat -> forallb is_bcd array = true ->
  tmToRegisters (registersToTm array t0 true) true = array.
Proof.
  intros Hlen Hall.
  destruct array as [|sec [|mi [|hour [|date [|month [|year [|wday rest]]]]]]];
    try discriminate Hlen.
  destruct rest; [|discriminate Hlen]. clear Hlen.
  cbn [forallb] in Hall. rewrite !andb_true_iff in Hall.
  destruct Hall as (H0 & H1 & H2 & H3 & H4 & H5 & H6 & _).
  unfold tmToRegisters, registersToTm. cbn [nth app tm_sec tm_min tm_hour
    tm_mday tm_mon tm_year tm_wday].
  pose proof (bcd_decode_range _ H5) as R5.
  replace (bcdToValue month - 1 + 1) with (bcdToValue month) by ring.
  replace (Z.rem (bcdToValue year + 100) 100) with (bcdToValue year).
  2:{ rewrite rem_100_century by lia. ring. }
  rewrite !bcd_decode_encode by assumption. reflexivity.
Qed.

Lemma tmToRegisters_registersToTm_witness :
  tmToRegisters
    (registersToTm [0x58; 0x59; 0x23; 0x29; 0x02; 0x24; 0x04] tm_zero true) true
  = [0x58; 0x59; 0x23; 0x29; 0x02; 0x24; 0x04].
Proof.
  apply (tmToRegisters_registersToTm
           [0x58; 0x59; 0x23; 0x29; 0x02; 0x24; 0x04] tm_zero);
    reflexivity.
Defined.

(** ** Register access layer: failures, composition, locking *)

(** Compare two bytes bit by bit. *)
Ltac bitwise :=
  unfold u8; change 256 with (2 ^ 8); rewrite <- ?Z.land_ones by lia;
  apply Z.bits_inj'; intros n Hn;
  repeat first
    [ rewrite Z.land_spec | rewrite Z.lor_spec | rewrite Z.lnot_spec by exact Hn
    | rewrite Z.bits_0 ];
  repeat match goal with
  | |- context [Z.testbit ?a n] =>
      let b := fresh "b" in
      generalize (Z.testbit a n); intros b
  end;
  repeat match goal with b : bool |- _ => destruct b end;
  reflexivity.




(** X5: when the transport fails on the first transaction, every yes/no
    query of the driver answers [false] (and [getRtcAsTm] zeroes the
    struct) after that single failed read: a failure of the bus cannot
    be told from the answer "no". *)
Theorem queries_answer_false_on_failure (s : AB1805) :
  next_ack (wire s) = false ->
  (forall regAddr bitMask lock,
      isBitSet regAddr bitMask lock s
        = (false, pop_ack s, [Rd (u8 regAddr) 1 false])
      /\ isBitClear regAddr bitMask lock s
        = (false, pop_ack s, [Rd (u8 regAddr) 1 false]))
  /\ isRTCSet s = (false, pop_ack s, [Rd REG_CTRL_1 1 false])
  /\ usingRCOscillator s = (false, pop_ack s, [Rd REG_OSC_STATUS 1 false])
  /\ (forall fout,
        detectChip fout s = (false, pop_ack s, [Rd REG_ID0 1 false]))
  /\ (forall mask,
        checkVBAT mask s = ((false, false), pop_ack s, [Rd REG_TRICKLE 1 false]))
  /\ isVBATAboveMin s = (false, pop_ack s, [Rd REG_TRICKLE 1 false])
  /\ isVBATAboveBREF s = (false, pop_ack s, [Rd REG_TRICKLE 1 false])
  /\ (forall timeptr,
        getRtcAsTm timeptr s
          = ((false, tm_zero), pop_ack s, [Rd REG_CTRL_1 1 false])).
Proof.
  intros H.
  assert (R : forall regAddr lock,
            readRegister regAddr lock s
              = (None, pop_ack s, [Rd (u8 regAddr) 1 false])).
  { intros. rewrite readRegister_run, H. reflexivity. }
  repeat match goal with
         | |- _ /\ _ => split
         | |- forall _, _ => intro
         end;
    unfold isRTCSet, isBitSet, isBitClear, usingRCOscillator, detectChip,
      isVBATAboveMin, isVBATAboveBREF, checkVBAT, getRtcAsTm, isBitClear, bind;
    cbv zeta; rewrite R; reflexivity.
Qed.

Lemma queries_answer_false_on_failure_witness :
  next_ack (wire first_fails) = false
  /\ result (isRTCSet first_fails) = false
  /\ result (detectChip None first_fails) = false.
Proof.
  assert (H : next_ack (wire first_fails) = false) by reflexivity.
  destruct (queries_answer_false_on_failure first_fails H)
    as (_ & E1 & _ & E2 & _).
  split; [exact H | split].
  - rewrite E1. reflexivity.
  - rewrite (E2 None). reflexivity.
Defined.

(** *** What a completed register operation leaves behind *)

Lemma store_ext r1 r2 a data :
  (forall y, r1 y = r2 y) -> forall x, store r1 a data x = store r2 a data x.
Proof.
  revert r1 r2 a. induction data as [|v rest IH]; intros r1 r2 a H x.
  - apply H.
  - cbn [store]. apply IH. intros y. rewrite H. reflexivity.
Qed.

Lemma reg_store r a data x :
  u8 (store r a data x) = store (fun y => u8 (r y)) a data x.
Proof.
  revert r a. induction data as [|v rest IH]; intros r a.
  - reflexivity.
  - cbn [store]. rewrite IH. apply store_ext.
    intros y. destruct (y =? a); [apply u8_idem | reflexivity].
Qed.

Lemma members_set_regs r s : members (set_regs r s) = members s.
Proof. destruct s as [[r0 a d] ws wp wr]. reflexivity. Qed.

Lemma reg_pop_ack s x : reg (pop_ack s) x = reg s x.
Proof. unfold reg. rewrite regs_pop_ack. reflexivity. Qed.

Lemma stored_nothing a s : healthy s -> stored a [] s s.
Proof. intros H. split; [exact H | split; reflexivity]. Qed.

Lemma writeRegisters_stored regAddr array lock s :
  healthy s ->
  let run := writeRegisters regAddr array lock s in
  result run = true /\ stored (u8 regAddr) array s (final run)
  /\ trace run = [Wr (u8 regAddr) array true].
Proof.
  intros H. cbv zeta. rewrite writeRegisters_healthy by exact H.
  unfold result, final, trace; cbn [fst snd].
  split; [reflexivity | split; [|reflexivity]].
  split; [auto with drv | split; [apply members_set_regs|]].
  intros x. rewrite reg_set_regs. apply reg_store.
Qed.

Lemma writeRegister_stored regAddr value lock s :
  healthy s ->
  let run := writeRegister regAddr value lock s in
  result run = true /\ stored (u8 regAddr) [u8 value] s (final run)
  /\ trace run = [Wr (u8 regAddr) [u8 value] true].
Proof. apply writeRegisters_stored. Qed.

Lemma maskRegister_stored regAddr andValue orValue lock s :
  healthy s ->
  let new := u8 (Z.lor (Z.land (reg s (u8 regAddr)) (u8 andValue)) (u8 orValue)) in
  let run := maskRegister regAddr andValue orValue lock s in
  result run = true /\ stored (u8 regAddr) [new] s (final run).
Proof.
  intros H. cbv zeta. rewrite maskRegister_healthy by exact H. cbv zeta.
  destruct (Z.eqb_spec
    (u8 (Z.lor (Z.land (reg s (u8 regAddr)) (u8 andValue)) (u8 orValue)))
    (reg s (u8 regAddr))) as [E|E]; cbn [negb];
    unfold result, final; cbn [fst snd]; (split; [reflexivity|]).
  - split; [exact H | split; [reflexivity|]].
    intros x. rewrite store_one.
    destruct (Z.eqb_spec x (u8 regAddr)) as [->|]; [|reflexivity].
    rewrite u8_idem. symmetry. exact E.
  - split; [auto with drv | split; [apply members_set_regs|]].
    intros x. rewrite reg_set_regs. apply reg_store.
Qed.





(** *** The I2C lock is given back *)

Lemma lock_effect_ret {A} (a : A) : lock_effect (fun d => d) (ret a).
Proof. intros s. reflexivity. Qed.

Lemma lock_effect_bind {A B} f g (m : M A) (k : A -> M B) :
  lock_effect f m -> (forall a, lock_effect g (k a)) ->
  lock_effect (fun d => g (f d)) (bind m k).
Proof. intros Hm Hk s. rewrite final_bind, Hk, Hm. reflexivity. Qed.

Lemma lock_effect_ext {A} f g (m : M A) :
  lock_effect f m -> (forall d, f d = g d) -> lock_effect g m.
Proof. intros Hm E s. rewrite Hm. apply E. Qed.

Lemma lock_effect_bus_write regAddr array :
  lock_effect (fun d => d) (bus_write regAddr array).
Proof.
  intros s. unfold bus_write, final; cbn [fst snd].
  destruct (next_ack (wire s)); reflexivity.
Qed.

(** Follow a method step by step and collect what it does to a counter
    of the driver: [bind_rule] composes two steps, [ext_rule] brings the
    branches of a test to one form, and a step that is not compound is
    closed by a fact of the context. *)
Ltac follow bind_rule ext_rule :=
  lazymatch goal with
  | |- _ _ (bind _ _) =>
      eapply bind_rule;
      [follow bind_rule ext_rule | intros ?; follow bind_rule ext_rule]
  | |- _ _ (orFail _ _ _) => unfold orFail; follow bind_rule ext_rule
  | |- _ _ (if ?c then _ else _) =>
      destruct c;
      (eapply ext_rule; [follow bind_rule ext_rule | intros ?; reflexivity])
  | |- _ _ (match ?r with Some _ => _ | None => _ end) =>
      destruct r;
      (eapply ext_rule; [follow bind_rule ext_rule | intros ?; reflexivity])
  | |- _ _ (when _ _) => unfold when; follow bind_rule ext_rule
  | |- _ => match goal with H : _ |- _ => simple apply H end
  end.

Ltac followed bind_rule ext_rule :=
  eapply ext_rule; [follow bind_rule ext_rule | intros ?; reflexivity].

(** X8: every method gives the I2C lock back as often as it takes it,
    on every path, the early returns after a failure included: the
    nesting depth of the lock is the same after the call as before. *)
Theorem methods_keep_lock :
  (forall regAddr num lock, keeps_lock (readRegisters regAddr num lock))
  /\ (forall regAddr array lock, keeps_lock (writeRegisters regAddr array lock))
  /\ (forall regAddr andValue orValue lock,
        keeps_lock (maskRegister regAddr andValue orValue lock))
  /\ (forall flags, keeps_lock (resetConfig flags))
  /\ keeps_lock updateWakeReason
  /\ (forall seconds, keeps_lock (setWDT seconds))
  /\ (forall timeptr lock, keeps_lock (setRtcFromTm timeptr lock))
  /\ (forall timeptr, keeps_lock (getRtcAsTm timeptr))
  /\ (forall timeptr rptValue, keeps_lock (repeatingInterrupt timeptr rptValue))
  /\ keeps_lock clearRepeatingInterrupt
  /\ (forall value minutes, keeps_lock (interruptCountdownTimer value minutes))
  /\ (forall seconds polls, keeps_lock (deepPowerDown seconds polls))
  /\ (forall mask, keeps_lock (checkVBAT mask))
  /\ (forall fout, keeps_lock (detectChip fout))
  /\ (forall ramAddr dataLen lock, keeps_lock (readRam ramAddr dataLen lock))
  /\ (forall ramAddr data dataLen lock,
        keeps_lock (writeRam ramAddr data dataLen lock))
  /\ (forall lock, keeps_lock (eraseRam lock)).
Proof.
  (* the steps every method is made of *)
  pose proof (fun A => @lock_effect_ret A) as Lret.
  assert (Llock : lock_effect S wire_lock) by (intros s; reflexivity).
  assert (Lunlock : lock_effect pred wire_unlock) by (intros s; reflexivity).
  assert (Lread : forall a n, lock_effect (fun d => d) (bus_read a n))
    by (intros a n s; reflexivity).
  pose proof lock_effect_bus_write as Lwrite.
  assert (Lwd : forall a b, lock_effect (fun d => d) (modify (set_watchdog a b)))
    by (intros a b s; reflexivity).
  assert (Lwr : forall r, lock_effect (fun d => d) (modify (set_wakeReason r)))
    by (intros r s; reflexivity).
  (* the register access layer *)
  assert (L1 : forall regAddr num lock,
            lock_effect (fun d => d) (readRegisters regAddr num lock)).
  { intros. unfold readRegisters.
    destruct lock; followed @lock_effect_bind @lock_effect_ext. }
  assert (L2 : forall regAddr array lock,
            lock_effect (fun d => d) (writeRegisters regAddr array lock)).
  { intros. unfold writeRegisters.
    destruct lock; followed @lock_effect_bind @lock_effect_ext. }
  assert (L3 : forall regAddr lock,
            lock_effect (fun d => d) (readRegister regAddr lock)).
  { intros. unfold readRegister. followed @lock_effect_bind @lock_effect_ext. }
  assert (L4 : forall regAddr value lock,
            lock_effect (fun d => d) (writeRegister regAddr value lock)).
  { intros. apply L2. }
  assert (L5 : forall regAddr andValue orValue lock,
            lock_effect (fun d => d) (maskRegister regAddr andValue orValue lock)).
  { intros. unfold maskRegister.
    destruct lock; followed @lock_effect_bind @lock_effect_ext. }
  assert (L6 : forall regAddr bitMask lock,
            lock_effect (fun d => d) (isBitSet regAddr bitMask lock)).
  { intros. unfold isBitSet. followed @lock_effect_bind @lock_effect_ext. }
  assert (L7 : forall regAddr bitMask lock,
            lock_effect (fun d => d) (isBitClear regAddr bitMask lock)).
  { intros. unfold isBitClear. followed @lock_effect_bind @lock_effect_ext. }
  assert (L8 : forall regAddr bitMask lock,
            lock_effect (fun d => d) (clearRegisterBit regAddr bitMask lock)).
  { intros. apply L5. }
  assert (L9 : forall regAddr bitMask lock,
            lock_effect (fun d => d) (setRegisterBit regAddr bitMask lock)).
  { intros. apply L5. }
  (* the methods that are not a plain sequence *)
  assert (L10 : forall seconds, lock_effect (fun d => d) (setWDT seconds)).
  { intros seconds s. unfold setWDT.
    destruct (_ =? 0);
      match goal with
      | |- lockDepth (wire (final (?m s))) = _ =>
          assert (H : lock_effect (fun d => d) m)
            by followed @lock_effect_bind @lock_effect_ext;
          apply H
      end. }
  assert (L11 : forall polls, lock_effect (fun d => d) (pollSleepCtrl polls)).
  { induction polls as [|k IH]; cbn [pollSleepCtrl]; [apply Lret|].
    unfold readRegisterValue. followed @lock_effect_bind @lock_effect_ext. }
  assert (L12 : forall fuel ramAddr dataLen data,
            lock_effect (fun d => d) (readRam_loop fuel ramAddr dataLen data)).
  { induction fuel as [|fuel IH]; intros ramAddr dataLen data;
      cbn [readRam_loop]; cbv zeta;
      followed @lock_effect_bind @lock_effect_ext. }
  assert (L13 : forall fuel ramAddr data dataLen,
            lock_effect (fun d => d) (writeRam_loop fuel ramAddr data dataLen)).
  { induction fuel as [|fuel IH]; intros ramAddr data dataLen;
      cbn [writeRam_loop]; cbv zeta;
      followed @lock_effect_bind @lock_effect_ext. }
  assert (L14 : forall ramAddr data dataLen lock,
            lock_effect (fun d => d) (writeRam ramAddr data dataLen lock)).
  { intros. unfold writeRam.
    destruct lock; followed @lock_effect_bind @lock_effect_ext. }
  assert (L15 : forall rounds ii,
            lock_effect (fun d => d) (eraseRam_loop rounds ii)).
  { induction rounds as [|k IH]; intros ii; cbn [eraseRam_loop];
      [apply Lret|].
    eapply lock_effect_ext;
      [eapply lock_effect_bind; [apply L14 | intros [[|]|]];
       [apply IH | apply Lret | apply Lret]
      | intros d; reflexivity]. }
  assert (L16 : forall value minutes,
            lock_effect (fun d => d) (setCountdownTimer value minutes)).
  { intros. unfold setCountdownTimer. cbv zeta.
    followed @lock_effect_bind @lock_effect_ext. }
  assert (L17 : forall diodeAndRout,
            lock_effect (fun d => d) (setTrickle diodeAndRout)).
  { intros. unfold setTrickle. cbv zeta.
    followed @lock_effect_bind @lock_effect_ext. }
  (* the methods of the statement *)
  repeat match goal with
         | |- _ /\ _ => split
         | |- forall _, _ => intro
         end;
    match goal with
    | |- keeps_lock ?m => change (lock_effect (fun d => d) m)
    end;
    try solve [match goal with H : _ |- _ => simple apply H end].
  - unfold resetConfig. cbv zeta. followed @lock_effect_bind @lock_effect_ext.
  - unfold updateWakeReason. followed @lock_effect_bind @lock_effect_ext.
  - unfold setRtcFromTm. cbv zeta.
    destruct lock; followed @lock_effect_bind @lock_effect_ext.
  - unfold getRtcAsTm. followed @lock_effect_bind @lock_effect_ext.
  - unfold repeatingInterrupt. cbv zeta.
    followed @lock_effect_bind @lock_effect_ext.
  - unfold clearRepeatingInterrupt. followed @lock_effect_bind @lock_effect_ext.
  - unfold interruptCountdownTimer. followed @lock_effect_bind @lock_effect_ext.
  - unfold deepPowerDown. cbv zeta. followed @lock_effect_bind @lock_effect_ext.
  - unfold checkVBAT. cbv zeta. followed @lock_effect_bind @lock_effect_ext.
  - unfold detectChip. cbv zeta. followed @lock_effect_bind @lock_effect_ext.
  - unfold readRam. destruct lock; followed @lock_effect_bind @lock_effect_ext.
  - unfold eraseRam. destruct lock; followed @lock_effect_bind @lock_effect_ext.
Qed.

(** ** Chip detection and battery check *)

(** X9: [detectChip] reads the first identification register and goes
    on to the second only when the first read completed and gave 0x18;
    it answers [true] exactly when both reads completed and gave 0x18
    and 0x05.  It writes nothing, and what the FOUT pin did during the
    wait at its head has no influence on the probe. *)
Theorem detectChip_probes_ids (fout : option (list bool)) (s : AB1805) :
  let ack1 := hd true (acks (wire s)) in
  let ack2 := hd true (tl (acks (wire s))) in
  let first := ack1 && (reg s REG_ID0 =? REG_ID0_AB18XX) in
  let run := detectChip fout s in
  result run = first && (ack2 && (reg s REG_ID1 =? REG_ID1_ABXX05))
  /\ trace run = Rd REG_ID0 1 ack1 :: (if first then [Rd REG_ID1 1 ack2] else [])
  /\ regs (wire (final run)) = regs (wire s).
Proof.
  cbv zeta. unfold detectChip. cbv zeta. unfold bind.
  rewrite readRegister_run.
  change (hd true (acks (wire s))) with (next_ack (wire s)).
  change (hd true (tl (acks (wire s)))) with (next_ack (wire (pop_ack s))).
  change (u8 REG_ID0) with REG_ID0.
  destruct (next_ack (wire s)); cbn [andb];
    [|unfold result, trace, final, ret; cbn [fst snd app];
      rewrite regs_pop_ack; repeat split; reflexivity].
  destruct (reg s REG_ID0 =? REG_ID0_AB18XX);
    [|unfold result, trace, final, ret; cbn [fst snd app];
      rewrite regs_pop_ack; repeat split; reflexivity].
  rewrite readRegister_run. change (u8 REG_ID1) with REG_ID1.
  rewrite reg_pop_ack.
  destruct (next_ack (wire (pop_ack s)));
    unfold result, trace, final, ret; cbn [fst snd andb app];
    rewrite !regs_pop_ack; repeat split; reflexivity.
Qed.

(** *** Running a sequence of operations that complete *)

(** Drop the conversion to a byte in front of a constant byte. *)
Ltac u8_const :=
  repeat match goal with
  | |- context [u8 ?a] => progress change (u8 a) with a
  end.

Ltac u8_const_all :=
  repeat match goal with
  | |- context [u8 ?a] => progress change (u8 a) with a
  | H : context [u8 ?a] |- _ => progress change (u8 a) with a in H
  end.

Lemma orFail_run {A} (failed : A) (step : M bool) (rest : M A) s :
  result (step s) = true ->
  result (orFail failed step rest s) = result (rest (final (step s)))
  /\ final (orFail failed step rest s) = final (rest (final (step s)))
  /\ trace (orFail failed step rest s)
     = trace (step s) ++ trace (rest (final (step s))).
Proof.
  intros H. unfold orFail. mnorm. rewrite H. repeat split; reflexivity.
Qed.

Lemma stored_one a v s s' x :
  stored a [v] s s' -> reg s' x = if x =? a then u8 v else reg s x.
Proof. intros (_ & _ & R). rewrite R. apply store_one. Qed.

Lemma stored_healthy a data s s' : stored a data s s' -> healthy s'.
Proof. intros (H & _). exact H. Qed.

Lemma stored_members a data s s' : stored a data s s' -> members s' = members s.
Proof. intros (_ & H & _). exact H. Qed.

(** [setTrickle] when nothing fails: the key, then the value. *)
Lemma setTrickle_healthy diodeAndRout s :
  healthy s ->
  let regValue := if negb (u8 diodeAndRout =? 0)
                  then u8 (Z.lor REG_TRICKLE_TCS_ENABLE (u8 diodeAndRout))
                  else 0x00 in
  let run := setTrickle diodeAndRout s in
  result run = true /\ healthy (final run)
  /\ members (final run) = members s
  /\ trace run = [Wr REG_CONFIG_KEY [REG_CONFIG_KEY_OTHER] true;
                  Wr REG_TRICKLE [regValue] true]
  /\ forall x, reg (final run) x =
       if x =? REG_TRICKLE then regValue
       else if x =? REG_CONFIG_KEY then REG_CONFIG_KEY_OTHER else reg s x.
Proof.
  intros H. cbv zeta. unfold setTrickle. cbv zeta.
  set (regValue := if negb (u8 diodeAndRout =? 0)
                   then u8 (Z.lor REG_TRICKLE_TCS_ENABLE (u8 diodeAndRout))
                   else 0x00).
  assert (Hv : u8 regValue = regValue).
  { unfold regValue. destruct (negb _); [apply u8_idem | reflexivity]. }
  destruct (writeRegister_stored REG_CONFIG_KEY REG_CONFIG_KEY_OTHER true s H)
    as (R1 & S1 & T1). cbv zeta in R1, S1, T1.
  destruct (orFail_run false _
              (must! writeRegister REG_TRICKLE regValue true ;; ret true) s R1)
    as (E1 & E2 & E3).
  rewrite E1, E2, E3, T1. clear E1 E2 E3.
  set (s1 := final (writeRegister REG_CONFIG_KEY REG_CONFIG_KEY_OTHER true s)) in *.
  destruct (writeRegister_stored REG_TRICKLE regValue true s1
              (stored_healthy _ _ _ _ S1)) as (R2 & S2 & T2).
  cbv zeta in R2, S2, T2.
  destruct (orFail_run false _ (ret true) s1 R2) as (E1 & E2 & E3).
  rewrite E1, E2, E3, T2. clear E1 E2 E3.
  set (s2 := final (writeRegister REG_TRICKLE regValue true s1)) in *.
  mnorm. rewrite Hv in *. u8_const_all.
  split; [reflexivity | split; [exact (stored_healthy _ _ _ _ S2) | split]].
  - rewrite (stored_members _ _ _ _ S2). exact (stored_members _ _ _ _ S1).
  - split; [reflexivity|].
    intros x. rewrite (stored_one _ _ _ _ x S2), (stored_one _ _ _ _ x S1).
    rewrite Hv. reflexivity.
Qed.

(** X10: [checkVBAT] reports success as soon as its first read, of the
    trickle register, has completed, whatever happens to the
    transactions after it.  With the charger off (the register reads
    zero) it only reads: the analog status register is read next and
    [isAbove] is [true] only when that read completed with a bit of
    [mask] set, so a failed measurement is reported as "not above". *)
Theorem checkVBAT_reports_first_read (mask : Z) (s : AB1805) :
  let ack1 := hd true (acks (wire s)) in
  let ack2 := hd true (tl (acks (wire s))) in
  let run := checkVBAT mask s in
  fst (result run) = ack1
  /\ (reg s REG_TRICKLE = 0 ->
      snd (result run) = ack1 && ack2 && bit_set (reg s REG_ASTAT) (u8 mask)
      /\ trace run =
           Rd REG_TRICKLE 1 ack1 :: (if ack1 then [Rd REG_ASTAT 1 ack2] else [])
      /\ regs (wire (final run)) = regs (wire s)).
Proof.
  cbv zeta.
  change (hd true (acks (wire s))) with (next_ack (wire s)).
  change (hd true (tl (acks (wire s)))) with (next_ack (wire (pop_ack s))).
  unfold checkVBAT. split.
  - rewrite result_bind, readRegister_run. cbn [result final fst snd].
    destruct (next_ack (wire s)); [|reflexivity].
    cbv zeta. mnorm. reflexivity.
  - intros Hoff.
    assert (E : checkVBAT mask s =
      if next_ack (wire s)
      then ((true, next_ack (wire (pop_ack s))
                   && bit_set (reg s REG_ASTAT) (u8 mask)),
            pop_ack (pop_ack s),
            [Rd REG_TRICKLE 1 true;
             Rd REG_ASTAT 1 (next_ack (wire (pop_ack s)))])
      else ((false, false), pop_ack s, [Rd REG_TRICKLE 1 false])).
    { unfold checkVBAT, bind. rewrite readRegister_run.
      u8_const. rewrite Hoff.
      destruct (next_ack (wire s)); [|reflexivity].
      cbv zeta. change (negb (0 =? 0)) with false. cbv iota.
      unfold ret at 1. cbv iota beta.
      rewrite readRegister_run. u8_const. rewrite reg_pop_ack.
      unfold bit_set, ret.
      destruct (next_ack (wire (pop_ack s))); reflexivity. }
    fold (checkVBAT mask s). rewrite E.
    destruct (next_ack (wire s)); cbn [result final trace fst snd andb];
      rewrite !regs_pop_ack; repeat split; reflexivity.
Qed.

Lemma checkVBAT_reports_first_read_witness :
  reg second_fails REG_TRICKLE = 0
  /\ result (checkVBAT REG_ASTAT_BMIN second_fails) = (true, false)
  /\ trace (checkVBAT REG_ASTAT_BMIN second_fails)
     = [Rd REG_TRICKLE 1 true; Rd REG_ASTAT 1 false].
Proof.
  assert (H : reg second_fails REG_TRICKLE = 0) by reflexivity.
  destruct (checkVBAT_reports_first_read REG_ASTAT_BMIN second_fails)
    as (E1 & K).
  destruct (K H) as (E2 & E3 & _).
  split; [exact H | split; [|exact E3]].
  destruct (result (checkVBAT REG_ASTAT_BMIN second_fails)) as [b a].
  cbn [fst snd] in E1, E2. rewrite E1, E2. reflexivity.
Defined.

Lemma lor_byte a b : u8 (Z.lor (u8 a) (u8 b)) = Z.lor (u8 a) (u8 b).
Proof. bitwise. Qed.

Lemma lor_tcs_enabled old :
  Z.land old 0xf0 = REG_TRICKLE_TCS_ENABLE ->
  Z.lor REG_TRICKLE_TCS_ENABLE old = old.
Proof.
  intros H. rewrite <- H.
  apply Z.bits_inj'; intros n Hn.
  rewrite Z.lor_spec, Z.land_spec.
  destruct (Z.testbit old n), (Z.testbit 240 n); reflexivity.
Qed.

(** X11: on a transport where no failure is scheduled, [checkVBAT]
    answers with the bit of the analog status register selected by
    [mask].  A charger that was off is left alone; one that was on is
    switched off for the measurement and back on afterwards, the
    register then holding the enable code 0xA0 or-ed with the value it
    had, which is the same value when the charger was enabled with that
    code.  No register besides the trickle register and the
    configuration key changes. *)
Theorem checkVBAT_restores_trickle (mask : Z) (s : AB1805) :
  healthy s ->
  let old := reg s REG_TRICKLE in
  let run := checkVBAT mask s in
  result run = (true, bit_set (reg s REG_ASTAT) (u8 mask))
  /\ result (isVBATAboveMin s) = bit_set (reg s REG_ASTAT) REG_ASTAT_BMIN
  /\ result (isVBATAboveBREF s) = bit_set (reg s REG_ASTAT) REG_ASTAT_BBOD
  /\ reg (final run) REG_TRICKLE
     = (if old =? 0 then 0 else Z.lor REG_TRICKLE_TCS_ENABLE old)
  /\ (Z.land old 0xf0 = REG_TRICKLE_TCS_ENABLE ->
      reg (final run) REG_TRICKLE = old)
  /\ (old = 0 ->
      trace run = [Rd REG_TRICKLE 1 true; Rd REG_ASTAT 1 true])
  /\ (old <> 0 ->
      trace run =
        [Rd REG_TRICKLE 1 true;
         Wr REG_CONFIG_KEY [REG_CONFIG_KEY_OTHER] true; Wr REG_TRICKLE [0] true;
         Rd REG_ASTAT 1 true;
         Wr REG_CONFIG_KEY [REG_CONFIG_KEY_OTHER] true;
         Wr REG_TRICKLE [Z.lor REG_TRICKLE_TCS_ENABLE old] true])
  /\ (forall x, x <> REG_TRICKLE -> x <> REG_CONFIG_KEY ->
        reg (final run) x = reg s x).
Proof.
  intros H. cbv zeta.
  assert (Hrun : forall m,
    let old := reg s REG_TRICKLE in
    let run := checkVBAT m s in
    result run = (true, bit_set (reg s REG_ASTAT) (u8 m))
    /\ trace run =
         (if old =? 0
          then [Rd REG_TRICKLE 1 true; Rd REG_ASTAT 1 true]
          else [Rd REG_TRICKLE 1 true;
                Wr REG_CONFIG_KEY [REG_CONFIG_KEY_OTHER] true;
                Wr REG_TRICKLE [0] true;
                Rd REG_ASTAT 1 true;
                Wr REG_CONFIG_KEY [REG_CONFIG_KEY_OTHER] true;
                Wr REG_TRICKLE [Z.lor REG_TRICKLE_TCS_ENABLE old] true])
    /\ forall x, reg (final run) x =
         if old =? 0 then reg s x
         else if x =? REG_TRICKLE then Z.lor REG_TRICKLE_TCS_ENABLE old
         else if x =? REG_CONFIG_KEY then REG_CONFIG_KEY_OTHER else reg s x).
  { intros m. cbv zeta. unfold checkVBAT.
    mnorm. rewrite readRegister_healthy by exact H.
    cbn [result final trace fst snd]. u8_const. cbv zeta.
    destruct (Z.eqb_spec (reg s REG_TRICKLE) 0) as [E0|E0]; cbn [negb].
    - mnorm. rewrite readRegister_healthy by exact H. u8_const.
      cbn [result final trace fst snd app].
      repeat split; reflexivity.
    - destruct (setTrickle_healthy 0 s H) as (R1 & H1 & _ & T1 & G1).
      cbv zeta in R1, H1, T1, G1.
      set (s1 := final (setTrickle 0 s)) in *.
      destruct (setTrickle_healthy (reg s REG_TRICKLE) s1 H1)
        as (R2 & H2 & _ & T2 & G2).
      cbv zeta in R2, H2, T2, G2.
      rewrite u8_small in T2, G2 by apply reg_range.
      destruct (Z.eqb_spec (reg s REG_TRICKLE) 0) as [|_]; [contradiction|].
      cbn [negb] in T2, G2.
      assert (Hl : u8 (Z.lor REG_TRICKLE_TCS_ENABLE (reg s REG_TRICKLE))
                   = Z.lor REG_TRICKLE_TCS_ENABLE (reg s REG_TRICKLE)).
      { change REG_TRICKLE_TCS_ENABLE with (u8 REG_TRICKLE_TCS_ENABLE).
        unfold reg. apply lor_byte. }
      rewrite Hl in T2, G2.
      mnorm. fold s1.
      rewrite (readRegister_healthy REG_ASTAT true s1 H1).
      cbn [result final trace fst snd]. fold s1. mnorm.
      rewrite T1, T2. u8_const.
      split; [|split].
      + unfold bit_set. rewrite G1.
        change (REG_ASTAT =? REG_TRICKLE) with false.
        change (REG_ASTAT =? REG_CONFIG_KEY) with false. reflexivity.
      + reflexivity.
      + intros x. rewrite G2, G1.
        destruct (x =? REG_TRICKLE); [reflexivity|].
        destruct (x =? REG_CONFIG_KEY); reflexivity. }
  destruct (Hrun mask) as (E1 & E2 & E3). cbv zeta in E1, E2, E3.
  split; [exact E1 | split; [|split]].
  - unfold isVBATAboveMin. rewrite result_bind.
    destruct (Hrun REG_ASTAT_BMIN) as (E & _). cbv zeta in E. rewrite E.
    reflexivity.
  - unfold isVBATAboveBREF. rewrite result_bind.
    destruct (Hrun REG_ASTAT_BBOD) as (E & _). cbv zeta in E. rewrite E.
    reflexivity.
  - split; [|split; [|split; [|split]]].
    + rewrite E3. destruct (Z.eqb_spec (reg s REG_TRICKLE) 0) as [E0|E0];
        [exact E0 | rewrite Z.eqb_refl; reflexivity].
    + intros Hen. rewrite E3.
      destruct (Z.eqb_spec (reg s REG_TRICKLE) 0) as [E0|E0]; [reflexivity|].
      rewrite Z.eqb_refl. apply lor_tcs_enabled. exact Hen.
    + intros E0. rewrite E2, E0. reflexivity.
    + intros E0. rewrite E2.
      destruct (Z.eqb_spec (reg s REG_TRICKLE) 0); [contradiction | reflexivity].
    + intros x Hx Hk. rewrite E3.
      destruct (reg s REG_TRICKLE =? 0); [reflexivity|].
      destruct (Z.eqb_spec x REG_TRICKLE); [contradiction|].
      destruct (Z.eqb_spec x REG_CONFIG_KEY); [contradiction | reflexivity].
Qed.

Lemma checkVBAT_restores_trickle_witness :
  healthy trickle_on
  /\ result (checkVBAT REG_ASTAT_BMIN trickle_on) = (true, true)
  /\ reg (final (checkVBAT REG_ASTAT_BMIN trickle_on)) REG_TRICKLE = 0xa5.
Proof.
  assert (H : healthy trickle_on) by reflexivity.
  destruct (checkVBAT_restores_trickle REG_ASTAT_BMIN trickle_on H)
    as (E1 & _ & _ & _ & E2 & _).
  split; [exact H | split; [exact E1 | apply E2; reflexivity]].
Defined.

(** ** Watchdog: stopping, resuming, the reset event *)

(** [setWDT] with a positive period, on any transport. *)
Lemma setWDT_positive seconds s :
  0 < seconds ->
  let fourSecs := Z.min 31 (Z.max 1 (seconds / 4)) in
  let value := 0x80 + 4 * fourSecs + 0x03 in
  setWDT seconds s =
    (next_ack (wire s),
     set_watchdog seconds (fourSecs * 2000)
       (pop_ack (if next_ack (wire s)
                 then set_regs (store (regs (wire s)) REG_WDT [value]) s
                 else s)),
     [Wr REG_WDT [value] (next_ack (wire s))]).
Proof.
  intros Hpos. cbv zeta.
  set (fourSecs := Z.min 31 (Z.max 1 (seconds / 4))).
  assert (Hf : 1 <= fourSecs <= 31) by (unfold fourSecs; lia).
  destruct (wdt_byte fourSecs Hf) as (Hb & _). cbv zeta in Hb.
  unfold setWDT.
  destruct (Z.ltb_spec seconds 0); [lia|].
  destruct (Z.eqb_spec seconds 0); [lia|].
  rewrite (wdtFourSecs_clamp seconds Hpos). fold fourSecs.
  unfold bind. rewrite writeRegister_run, Hb. reflexivity.
Qed.

(** [setWDT(0)], on any transport. *)
Lemma setWDT_zero s :
  setWDT 0 s =
    (next_ack (wire s),
     set_watchdog 0 0
       (pop_ack (if next_ack (wire s)
                 then set_regs (store (regs (wire s)) REG_WDT [0]) s
                 else s)),
     [Wr REG_WDT [0] (next_ack (wire s))]).
Proof.
  unfold setWDT. change (0 <? 0) with false. change (0 =? 0) with true.
  cbv iota. unfold bind. rewrite writeRegister_run. reflexivity.
Qed.

(** [setWDT(-1)] stands for [setWDT] of the period on record. *)
Lemma setWDT_recorded seconds s :
  seconds < 0 -> 0 <= watchdogSecs s -> setWDT seconds s = setWDT (watchdogSecs s) s.
Proof.
  intros Hn Hw. unfold setWDT.
  destruct (Z.ltb_spec seconds 0); [|lia].
  destruct (Z.ltb_spec (watchdogSecs s) 0); [lia | reflexivity].
Qed.

Lemma watchdog_set_watchdog a b s :
  watchdogSecs (set_watchdog a b s) = a
  /\ watchdogUpdatePeriod (set_watchdog a b s) = b.
Proof. split; reflexivity. Qed.

(** X12: [resumeWDT] (that is [setWDT(-1)]) after [setWDT] with a
    positive period writes the watchdog register with the very byte the
    first call sent, and keeps the period and the service interval on
    record; this holds whether or not the first write completed. *)
Theorem resumeWDT_rearms (seconds : Z) (s : AB1805) :
  0 < seconds ->
  let value := 0x80 + 4 * Z.min 31 (Z.max 1 (seconds / 4)) + 0x03 in
  let s1 := final (setWDT seconds s) in
  let s2 := final (resumeWDT s1) in
  trace (setWDT seconds s) = [Wr REG_WDT [value] (next_ack (wire s))]
  /\ trace (resumeWDT s1) = [Wr REG_WDT [value] (next_ack (wire s1))]
  /\ result (resumeWDT s1) = next_ack (wire s1)
  /\ watchdogSecs s2 = seconds
  /\ watchdogUpdatePeriod s2 = watchdogUpdatePeriod s1.
Proof.
  intros Hpos. cbv zeta.
  pose proof (setWDT_positive seconds s Hpos) as E1. cbv zeta in E1.
  rewrite E1. cbn [final trace fst snd].
  set (s1 := set_watchdog seconds _ _).
  assert (Hw : watchdogSecs s1 = seconds) by reflexivity.
  unfold resumeWDT. rewrite setWDT_recorded by (rewrite ?Hw; lia).
  rewrite Hw.
  pose proof (setWDT_positive seconds s1 Hpos) as E2. cbv zeta in E2.
  rewrite E2. cbn [result final trace fst snd].
  repeat split; reflexivity.
Qed.

Lemma resumeWDT_rearms_witness :
  0 < 60
  /\ trace (setWDT 60 idle) = [Wr REG_WDT [0xbf] true]
  /\ trace (resumeWDT (final (setWDT 60 idle))) = [Wr REG_WDT [0xbf] true].
Proof.
  split; [lia|].
  destruct (resumeWDT_rearms 60 idle) as (E1 & E2 & _); [lia|].
  split; [exact E1 | exact E2].
Defined.

(** X13: [stopWDT] forgets the period: a [resumeWDT] after it writes
    0x00 to the watchdog register again and leaves the watchdog
    disabled, the period and the service interval on record staying
    zero. *)
Theorem resumeWDT_after_stopWDT_stays_off (s : AB1805) :
  let s1 := final (stopWDT s) in
  let s2 := final (resumeWDT s1) in
  trace (stopWDT s) = [Wr REG_WDT [0x00] (next_ack (wire s))]
  /\ watchdogSecs s1 = 0
  /\ trace (resumeWDT s1) = [Wr REG_WDT [0x00] (next_ack (wire s1))]
  /\ watchdogSecs s2 = 0 /\ watchdogUpdatePeriod s2 = 0
  /\ (next_ack (wire s1) = true -> reg s2 REG_WDT = 0).
Proof.
  cbv zeta. unfold stopWDT, resumeWDT.
  rewrite (setWDT_zero s). cbn [final trace fst snd].
  set (s1 := set_watchdog 0 0 _).
  rewrite (setWDT_recorded (-1) s1) by (cbn; lia).
  change (watchdogSecs s1) with 0.
  rewrite (setWDT_zero s1). cbn [final trace fst snd].
  split; [reflexivity | split; [reflexivity | split; [reflexivity |]]].
  split; [reflexivity | split; [reflexivity |]].
  intros ->. unfold reg.
  destruct s1 as [[r a d] ws wp wr]. reflexivity.
Qed.

Lemma resumeWDT_after_stopWDT_stays_off_witness :
  trace (resumeWDT (final (stopWDT (final (setWDT 60 idle)))))
    = [Wr REG_WDT [0x00] true]
  /\ reg (final (resumeWDT (final (stopWDT (final (setWDT 60 idle)))))) REG_WDT
     = 0.
Proof.
  destruct (resumeWDT_after_stopWDT_stays_off (final (setWDT 60 idle)))
    as (_ & _ & E & _ & _ & K).
  split; [exact E | apply K; reflexivity].
Defined.

(** X14: the reset event stops a watchdog that is on record as running
    with one write of 0x00, and any other event, or a reset event while
    no watchdog is on record, touches neither the bus nor the driver.
    The record is cleared whether or not the write completed, so after
    a failed attempt a further reset event does not try again. *)
Theorem systemEvent_stops_watchdog_once
    (event : system_event_t) (param param' : Z) (s : AB1805) :
  let run := systemEvent event param s in
  (match event with
   | reset =>
       if watchdogSecs s =? 0 then run = (tt, s, [])
       else trace run = [Wr REG_WDT [0x00] (next_ack (wire s))]
            /\ watchdogSecs (final run) = 0
            /\ watchdogUpdatePeriod (final run) = 0
            /\ regs (wire (final run))
               = (if next_ack (wire s)
                  then store (regs (wire s)) REG_WDT [0x00]
                  else regs (wire s))
   | other_event => run = (tt, s, [])
   end)
  /\ trace (systemEvent reset param' (final (systemEvent reset param s))) = [].
Proof.
  cbv zeta.
  assert (E : systemEvent reset param s =
              if watchdogSecs s =? 0 then (tt, s, [])
              else (tt, final (setWDT 0 s), trace (setWDT 0 s))).
  { unfold systemEvent. destruct (watchdogSecs s =? 0); cbn [negb];
      [reflexivity|].
    unfold bind, ret, final, trace.
    destruct (setWDT 0 s) as [[b s1] t1]. cbn [fst snd].
    rewrite app_nil_r. reflexivity. }
  split.
  - destruct event; [|reflexivity].
    rewrite E. destruct (watchdogSecs s =? 0); [reflexivity|].
    rewrite setWDT_zero. cbn [final trace fst snd].
    split; [reflexivity | split; [reflexivity | split; [reflexivity |]]].
    destruct s as [[r a d] ws wp wr]. destruct a as [|[] a']; reflexivity.
  - rewrite E.
    destruct (Z.eqb_spec (watchdogSecs s) 0) as [E0|E0]; cbn [final fst snd].
    + unfold systemEvent. rewrite E0. reflexivity.
    + rewrite setWDT_zero. cbn [final fst snd]. reflexivity.
Qed.

(** ** Bursts over consecutive registers *)

(** A burst write that does not run past register 0xff, register by
    register. *)
Lemma store_nth data : forall r a x,
  0 <= a -> a + Z.of_nat (length data) <= 256 ->
  store r a data x =
    if (a <=? x) && (x <? a + Z.of_nat (length data))
    then u8 (nth (Z.to_nat (x - a)) data 0) else r x.
Proof.
  induction data as [|v rest IH]; intros r a x Ha Hfit.
  - cbn [store length]. destruct (Z.leb_spec a x), (Z.ltb_spec x (a + Z.of_nat 0));
      cbn [andb]; try reflexivity; lia.
  - cbn [store]. cbn [length] in Hfit. rewrite Nat2Z.inj_succ in Hfit.
    destruct rest as [|w rest'].
    + cbn [store length]. 
      destruct (Z.eqb_spec x a) as [->|Hne].
      * rewrite Z.leb_refl. destruct (Z.ltb_spec a (a + Z.of_nat 1)); [|lia].
        rewrite Z.sub_diag. reflexivity.
      * destruct (Z.leb_spec a x), (Z.ltb_spec x (a + Z.of_nat 1));
          cbn [andb]; try reflexivity; lia.
    + assert (Hl : Z.of_nat (length (w :: rest')) >= 1)
        by (cbn [length]; lia).
      rewrite (u8_small (a + 1)) by lia.
      rewrite IH by lia.
      cbn [length] in *. rewrite !Nat2Z.inj_succ in *.
      destruct (Z.eqb_spec x a) as [->|Hne].
      * destruct (Z.leb_spec (a + 1) a); [lia|]. cbn [andb].
        rewrite Z.leb_refl.
        destruct (Z.ltb_spec a (a + Z.succ (Z.succ (Z.of_nat (length rest')))));
          [|lia].
        rewrite Z.sub_diag. reflexivity.
      * destruct (Z.leb_spec (a + 1) x), (Z.leb_spec a x); try lia;
          destruct (Z.ltb_spec x (a + 1 + Z.succ (Z.of_nat (length rest')))),
                   (Z.ltb_spec x (a + Z.succ (Z.succ (Z.of_nat (length rest')))));
          try lia; cbn [andb]; try reflexivity.
        replace (Z.to_nat (x - a)) with (S (Z.to_nat (x - (a + 1)))) by lia.
        reflexivity.
Qed.

(** A burst read that does not run past register 0xff. *)
Lemma burst_nth n : forall r a,
  0 <= a -> a + Z.of_nat n <= 256 ->
  burst r a n = map (fun i => u8 (r (a + Z.of_nat i))) (seq 0 n).
Proof.
  induction n as [|n IH]; intros r a Ha Hfit.
  - reflexivity.
  - cbn [burst seq map]. rewrite Z.add_0_r. f_equal.
    destruct n as [|n'].
    + reflexivity.
    + rewrite (u8_small (a + 1)) by lia.
      rewrite IH by lia.
      rewrite <- seq_shift, map_map.
      apply map_ext. intros i. f_equal. f_equal. lia.
Qed.

(** Reading back what a burst write stored. *)
Lemma burst_store r a data :
  0 <= a -> a + Z.of_nat (length data) <= 256 ->
  burst (store r a data) a (length data) = map u8 data.
Proof.
  intros Ha Hfit. rewrite burst_nth by assumption.
  apply nth_ext with (d := 0) (d' := u8 0).
  - rewrite !length_map, length_seq. reflexivity.
  - intros i Hi. rewrite length_map, length_seq in Hi.
    rewrite (map_nth u8).
    rewrite (nth_indep _ 0 (u8 (store r a data (a + Z.of_nat 0)))) 
      by (rewrite length_map, length_seq; exact Hi).
    rewrite (map_nth (fun i => u8 (store r a data (a + Z.of_nat i))) (seq 0 (length data)) 0%nat).
    rewrite seq_nth by exact Hi. cbn [Nat.add].
    rewrite store_nth by assumption.
    destruct (Z.leb_spec a (a + Z.of_nat i)); [|lia].
    destruct (Z.ltb_spec (a + Z.of_nat i) (a + Z.of_nat (length data))); [|lia].
    cbn [andb]. replace (Z.to_nat (a + Z.of_nat i - a)) with i by lia.
    apply u8_idem.
Qed.

(** What a burst read finds where a burst write went. *)
Lemma burst_of_stored r r' a data :
  0 <= a -> a + Z.of_nat (length data) <= 256 ->
  (forall x, a <= x < a + Z.of_nat (length data) -> u8 (r' x) = store r a data x) ->
  burst r' a (length data) = map u8 data.
Proof.
  intros Ha Hfit Hr. rewrite <- (burst_store r a data Ha Hfit).
  rewrite !burst_nth by assumption.
  apply map_ext_in. intros i Hi. apply in_seq in Hi.
  rewrite Hr by lia. rewrite !store_nth by assumption.
  destruct (Z.leb_spec a (a + Z.of_nat i)); [|lia].
  destruct (Z.ltb_spec (a + Z.of_nat i) (a + Z.of_nat (length data))); [|lia].
  cbn [andb]. rewrite u8_idem. reflexivity.
Qed.

Lemma tmToRegisters_bytes timeptr includeYear :
  map u8 (tmToRegisters timeptr includeYear) = tmToRegisters timeptr includeYear.
Proof.
  unfold tmToRegisters, valueToBcd.
  destruct includeYear; cbn [app map]; rewrite !u8_idem; reflexivity.
Qed.

(** ** Setting and reading the clock on a responsive chip *)

Lemma when_lock_stored c m s :
  m = wire_lock \/ m = wire_unlock -> healthy s ->
  stored 0 [] s (final (when c m s)) /\ trace (when c m s) = [].
Proof.
  intros Hm H.
  destruct (when_lock_bus c m s Hm) as (R & _ & T).
  split; [|exact T].
  split; [exact (healthy_when_lock c m s Hm H) | split].
  - destruct s as [[r a d] ws wp wr].
    destruct Hm as [-> | ->]; destruct c; reflexivity.
  - intros x. cbn [store]. unfold reg. rewrite R. reflexivity.
Qed.

Lemma wrtc_set_then_cleared old :
  Z.land (Z.lor old REG_CTRL_1_WRTC) (Z.lnot REG_CTRL_1_WRTC)
    = Z.land old (Z.lnot REG_CTRL_1_WRTC).
Proof.
  apply Z.bits_inj'; intros n Hn.
  rewrite !Z.land_spec, Z.lor_spec, Z.lnot_spec by exact Hn.
  destruct (Z.testbit old n), (Z.testbit REG_CTRL_1_WRTC n); reflexivity.
Qed.

Lemma wrtc_cleared old :
  bit_set (Z.land old (Z.lnot REG_CTRL_1_WRTC)) REG_CTRL_1_WRTC = false.
Proof.
  unfold bit_set. apply negb_false_iff, Z.eqb_eq.
  apply Z.bits_inj'; intros n Hn.
  rewrite !Z.land_spec, Z.lnot_spec, Z.bits_0 by exact Hn.
  destruct (Z.testbit old n), (Z.testbit REG_CTRL_1_WRTC n); reflexivity.
Qed.

(** [setRtcFromTm] when nothing fails: the chip afterwards. *)
Lemma setRtcFromTm_healthy timeptr lock s :
  healthy s ->
  let array := 0x00 :: tmToRegisters timeptr true in
  let run := setRtcFromTm timeptr lock s in
  result run = true /\ healthy (final run)
  /\ members (final run) = members s
  /\ forall x, reg (final run) x =
       if x =? REG_CTRL_1
       then Z.land (reg s REG_CTRL_1) (Z.lnot REG_CTRL_1_WRTC)
       else store (reg s) REG_HUNDREDTH array x.
Proof.
  intros H. cbv zeta. unfold setRtcFromTm. cbv zeta.
  set (array := 0x00 :: tmToRegisters timeptr true).
  assert (Hlen : length array = 8%nat) by reflexivity.
  destruct (when_lock_stored lock wire_lock s (or_introl eq_refl) H)
    as ((H0 & M0 & G0) & _).
  set (s0 := final (when lock wire_lock s)) in *.
  destruct (maskRegister_stored REG_CTRL_1 0xff REG_CTRL_1_WRTC true s0 H0)
    as (R1 & H1 & M1 & G1).
  cbv zeta in R1, H1, M1, G1. fold (setRegisterBit REG_CTRL_1 REG_CTRL_1_WRTC true s0)
    in R1, H1, M1, G1.
  set (s1 := final (setRegisterBit REG_CTRL_1 REG_CTRL_1_WRTC true s0)) in *.
  destruct (writeRegisters_stored REG_HUNDREDTH array false s1 H1)
    as (R2 & (H2 & M2 & G2) & _).
  set (s2 := final (writeRegisters REG_HUNDREDTH array false s1)) in *.
  destruct (maskRegister_stored REG_CTRL_1 (Z.lnot (u8 REG_CTRL_1_WRTC)) 0x00
              true s2 H2) as (R3 & H3 & M3 & G3).
  cbv zeta in R3, H3, M3, G3.
  fold (clearRegisterBit REG_CTRL_1 REG_CTRL_1_WRTC true s2) in R3, H3, M3, G3.
  set (s3 := final (clearRegisterBit REG_CTRL_1 REG_CTRL_1_WRTC true s2)) in *.
  destruct (when_lock_stored lock wire_unlock s3 (or_intror eq_refl) H3)
    as ((H4 & M4 & G4) & _).
  mnorm. fold s0. fold s1. rewrite R1. mnorm. fold s2. rewrite R2. mnorm.
  fold s3.
  split; [reflexivity | split; [exact H4 | split]].
  { rewrite M4, M3, M2, M1, M0. reflexivity. }
  assert (Hm : 0 <= REG_CTRL_1_WRTC < 256) by (vm_compute; intuition discriminate).
  pose proof (fun old Ho => set_bit_byte old REG_CTRL_1_WRTC Ho Hm) as Hset.
  pose proof (fun old Ho => clear_bit_byte old REG_CTRL_1_WRTC Ho Hm) as Hclr.
  u8_const_all.
  assert (E2 : forall y, reg s2 y =
            if y =? REG_CTRL_1 then Z.lor (reg s REG_CTRL_1) REG_CTRL_1_WRTC
            else store (reg s) REG_HUNDREDTH array y).
  { intros y. rewrite G2.
    rewrite !store_nth by (rewrite ?Hlen; unfold REG_HUNDREDTH; cbn; lia).
    rewrite Hlen.
    destruct (Z.eqb_spec y REG_CTRL_1) as [->|Hne].
    - change (REG_HUNDREDTH <=? REG_CTRL_1) with true.
      change (REG_CTRL_1 <? REG_HUNDREDTH + Z.of_nat 8) with false.
      cbn [andb]. rewrite G1, store_one.
      rewrite Z.eqb_refl, u8_idem, G0. cbn [store].
      apply Hset. apply reg_range.
    - destruct ((REG_HUNDREDTH <=? y) && (y <? REG_HUNDREDTH + Z.of_nat 8));
        [reflexivity|].
      rewrite G1, store_one.
      destruct (Z.eqb_spec y REG_CTRL_1); [contradiction|].
      rewrite G0. reflexivity. }
  intros x. rewrite G4. cbn [store]. rewrite G3, store_one.
  destruct (Z.eqb_spec x REG_CTRL_1) as [->|Hne].
  - rewrite u8_idem, E2, Z.eqb_refl.
    assert (Hb : 0 <= Z.lor (reg s REG_CTRL_1) REG_CTRL_1_WRTC < 256).
    { rewrite <- Hset by apply reg_range. apply u8_range. }
    rewrite (Hclr _ Hb). apply wrtc_set_then_cleared.
  - rewrite E2. destruct (Z.eqb_spec x REG_CTRL_1); [contradiction|].
    reflexivity.
Qed.

(** [getRtcAsTm] once the clock has been set (WRTC clear), on any
    transport. *)
Lemma getRtcAsTm_run timeptr s :
  wrtc s = false ->
  getRtcAsTm timeptr s =
    if next_ack (wire s) then
      if next_ack (wire (pop_ack s)) then
        ((true, registersToTm (burst (regs (wire s)) 1 7) timeptr true),
         pop_ack (pop_ack s),
         [Rd REG_CTRL_1 1 true; Rd REG_HUNDREDTH 8 true])
      else
        ((false, tm_zero), pop_ack (pop_ack s),
         [Rd REG_CTRL_1 1 true; Rd REG_HUNDREDTH 8 false])
    else ((false, tm_zero), pop_ack s, [Rd REG_CTRL_1 1 false]).
Proof.
  unfold wrtc, bit_set. intros Hw. apply negb_false_iff in Hw.
  unfold getRtcAsTm, isBitClear, bind. rewrite readRegister_run.
  u8_const.
  destruct (next_ack (wire s)); [|reflexivity].
  rewrite Hw. unfold ret at 1. cbv iota beta.
  rewrite readRegisters_run. u8_const. rewrite regs_pop_ack.
  destruct (next_ack (wire (pop_ack s))); reflexivity.
Qed.

(** X15: once the clock has been set (WRTC clear), [getRtcAsTm] reads
    control register 1 and then the eight calendar registers in one
    burst; when both reads complete it decodes registers 1 to 7 (the
    hundredths are skipped) into the caller's struct, leaving [tm_yday]
    and [tm_isdst] alone; when either fails it returns [false] and the
    caller's struct is zeroed.  It never writes. *)
Theorem getRtcAsTm_reads_calendar (timeptr : tm) (s : AB1805) :
  wrtc s = false ->
  let ack1 := hd true (acks (wire s)) in
  let ack2 := hd true (tl (acks (wire s))) in
  let run := getRtcAsTm timeptr s in
  result run =
    (if ack1 && ack2
     then (true, registersToTm (burst (regs (wire s)) 1 7) timeptr true)
     else (false, tm_zero))
  /\ trace run =
       Rd REG_CTRL_1 1 ack1 :: (if ack1 then [Rd REG_HUNDREDTH 8 ack2] else [])
  /\ regs (wire (final run)) = regs (wire s).
Proof.
  intros Hw. cbv zeta. rewrite (getRtcAsTm_run timeptr s Hw).
  change (hd true (acks (wire s))) with (next_ack (wire s)).
  change (hd true (tl (acks (wire s)))) with (next_ack (wire (pop_ack s))).
  destruct (next_ack (wire s)); [destruct (next_ack (wire (pop_ack s)))|];
    cbn [result final trace fst snd andb]; rewrite !regs_pop_ack;
    repeat split; reflexivity.
Qed.

Lemma getRtcAsTm_reads_calendar_witness :
  wrtc set_before_then_fault = false
  /\ result (getRtcAsTm tm_leap set_before_then_fault) = (false, tm_zero)
  /\ trace (getRtcAsTm tm_leap set_before_then_fault) = [Rd REG_CTRL_1 1 false].
Proof.
  assert (H : wrtc set_before_then_fault = false) by reflexivity.
  destruct (getRtcAsTm_reads_calendar tm_leap set_before_then_fault H)
    as (E1 & E2 & _).
  split; [exact H | split; [exact E1 | exact E2]].
Defined.

(** X16: on a transport where no failure is scheduled, [setRtcFromTm]
    succeeds from whatever state the chip is in: the eight calendar
    registers then hold 0x00 (hundredths) followed by the encoding of
    the time, WRTC is clear while the other bits of control register 1
    are as before, no other register has changed, and [isRTCSet]
    answers [true]. *)
Theorem setRtcFromTm_sets_clock (timeptr : tm) (lock : bool) (s : AB1805) :
  healthy s ->
  let run := setRtcFromTm timeptr lock s in
  result run = true
  /\ burst (regs (wire (final run))) REG_HUNDREDTH 8
     = 0x00 :: tmToRegisters timeptr true
  /\ reg (final run) REG_CTRL_1
     = Z.land (reg s REG_CTRL_1) (Z.lnot REG_CTRL_1_WRTC)
  /\ (forall x, ~ 0 <= x <= 7 -> x <> REG_CTRL_1 -> reg (final run) x = reg s x)
  /\ wrtc (final run) = false
  /\ result (isRTCSet (final run)) = true.
Proof.
  intros H. cbv zeta.
  destruct (setRtcFromTm_healthy timeptr lock s H) as (R & Hf & _ & G).
  cbv zeta in R, Hf, G.
  set (sf := final (setRtcFromTm timeptr lock s)) in *.
  assert (Hc : reg sf REG_CTRL_1
               = Z.land (reg s REG_CTRL_1) (Z.lnot REG_CTRL_1_WRTC)).
  { rewrite G. reflexivity. }
  assert (Hw : wrtc sf = false).
  { unfold wrtc. rewrite Hc. apply wrtc_cleared. }
  split; [exact R | split; [|split; [exact Hc | split; [|split]]]].
  - assert (Hb : burst (regs (wire sf)) REG_HUNDREDTH
                   (length (0x00 :: tmToRegisters timeptr true))
                 = map u8 (0x00 :: tmToRegisters timeptr true)).
    { apply (burst_of_stored (reg s)); unfold REG_HUNDREDTH, tmToRegisters;
        cbn [length app]; try lia.
      intros x Hx. fold (reg sf x). rewrite G.
      destruct (Z.eqb_spec x REG_CTRL_1) as [->|]; [|reflexivity].
      vm_compute in Hx. destruct Hx as [_ Hx]. discriminate Hx. }
    cbn [map] in Hb. rewrite tmToRegisters_bytes in Hb. exact Hb.
  - intros x Hx Hne. rewrite G.
    destruct (Z.eqb_spec x REG_CTRL_1); [contradiction|].
    rewrite store_nth
      by (unfold REG_HUNDREDTH, tmToRegisters; cbn [length app]; lia).
    unfold REG_HUNDREDTH, tmToRegisters. cbn [length app].
    destruct (Z.leb_spec 0 x), (Z.ltb_spec x (0 + Z.of_nat 8)); cbn [andb];
      try reflexivity; lia.
  - exact Hw.
  - rewrite isRTCSet_result, Hw, (healthy_next_ack sf Hf). reflexivity.
Qed.

Lemma setRtcFromTm_sets_clock_witness :
  healthy cold
  /\ result (setRtcFromTm tm_leap true cold) = true
  /\ burst (regs (wire (final (setRtcFromTm tm_leap true cold)))) REG_HUNDREDTH 8
     = [0x00; 0x58; 0x59; 0x23; 0x29; 0x02; 0x24; 0x04]
  /\ reg (final (setRtcFromTm tm_leap true cold)) REG_CTRL_1 = 0x12.
Proof.
  assert (H : healthy cold) by reflexivity.
  destruct (setRtcFromTm_sets_clock tm_leap true cold H) as (E1 & E2 & E3 & _).
  split; [exact H | split; [exact E1 | split; [exact E2 | exact E3]]].
Defined.

(** X17: setting the clock and reading it back, on a transport where
    no failure is scheduled: for a calendar time in the documented
    ranges with a year in 2000..2099, [getRtcAsTm] after [setRtcFromTm]
    succeeds and gives back second, minute, hour, day, month, year and
    weekday as they were set; [tm_yday] and [tm_isdst] are those of the
    struct read into. *)
Theorem getRtcAsTm_after_setRtcFromTm (t t0 : tm) (lock : bool) (s : AB1805) :
  healthy s -> tm_documented t -> 100 <= tm_year t <= 199 ->
  let s' := final (setRtcFromTm t lock s) in
  result (setRtcFromTm t lock s) = true
  /\ result (getRtcAsTm t0 s') =
       (true,
        mkTm (tm_sec t) (tm_min t) (tm_hour t) (tm_mday t) (tm_mon t)
             (tm_year t) (tm_wday t) (tm_yday t0) (tm_isdst t0)).
Proof.
  intros H Hd Hy. cbv zeta.
  destruct (setRtcFromTm_healthy t lock s H) as (R & Hf & _ & G).
  cbv zeta in R, Hf, G.
  set (sf := final (setRtcFromTm t lock s)) in *.
  split; [exact R|].
  assert (Hw : wrtc sf = false).
  { unfold wrtc. rewrite G. apply wrtc_cleared. }
  rewrite (getRtcAsTm_run t0 sf Hw).
  rewrite (healthy_pop_ack sf Hf), (healthy_next_ack sf Hf).
  cbn [result fst snd]. f_equal.
  assert (Hb : burst (regs (wire sf)) REG_HUNDREDTH
                 (length (0x00 :: tmToRegisters t true))
               = map u8 (0x00 :: tmToRegisters t true)).
  { apply (burst_of_stored (reg s)); unfold REG_HUNDREDTH, tmToRegisters;
      cbn [length app]; try lia.
    intros x Hx. fold (reg sf x). rewrite G.
    destruct (Z.eqb_spec x REG_CTRL_1) as [->|]; [|reflexivity].
    vm_compute in Hx. destruct Hx as [_ Hx]. discriminate Hx. }
  cbn [map] in Hb. rewrite tmToRegisters_bytes in Hb.
  apply (f_equal (@tl Z)) in Hb. cbn [tl] in Hb.
  change (tl (burst (regs (wire sf)) REG_HUNDREDTH
                (length (0 :: tmToRegisters t true))))
    with (burst (regs (wire sf)) 1 7) in Hb.
  rewrite Hb.
  rewrite (registersToTm_encoded t t0 true Hd (or_introl Hy)). reflexivity.
Qed.

Lemma getRtcAsTm_after_setRtcFromTm_witness :
  healthy cold /\ tm_documented tm_leap /\ 100 <= tm_year tm_leap <= 199
  /\ result (getRtcAsTm tm_zero (final (setRtcFromTm tm_leap false cold)))
     = (true, mkTm 58 59 23 29 1 124 4 0 0).
Proof.
  assert (H : healthy cold) by reflexivity.
  assert (Hd : tm_documented tm_leap) by (unfold tm_documented; simpl; lia).
  assert (Hy : 100 <= tm_year tm_leap <= 199) by (simpl; lia).
  split; [exact H | split; [exact Hd | split; [exact Hy |]]].
  destruct (getRtcAsTm_after_setRtcFromTm tm_leap tm_zero false cold H Hd Hy)
    as (_ & E).
  exact E.
Defined.

(** ** Restoring the configuration *)

Lemma members_pop_ack s : members (pop_ack s) = members s.
Proof. destruct s as [[r a d] ws wp wr]. reflexivity. Qed.

Lemma writeRegister_after regAddr value lock s :
  healthy s ->
  let s' := final (writeRegister regAddr value lock s) in
  healthy s' /\ members s' = members s
  /\ forall x, reg s' x = if x =? u8 regAddr then u8 value else reg s x.
Proof.
  intros H. cbv zeta.
  destruct (writeRegister_stored regAddr value lock s H) as (_ & (H1 & M1 & G1) & _).
  split; [exact H1 | split; [exact M1|]].
  intros x. rewrite G1, store_one, u8_idem. reflexivity.
Qed.

Lemma maskRegister_after regAddr andValue orValue lock s :
  healthy s ->
  let s' := final (maskRegister regAddr andValue orValue lock s) in
  healthy s' /\ members s' = members s
  /\ forall x, reg s' x =
       if x =? u8 regAddr
       then u8 (Z.lor (Z.land (reg s (u8 regAddr)) (u8 andValue)) (u8 orValue))
       else reg s x.
Proof.
  intros H. cbv zeta.
  destruct (maskRegister_stored regAddr andValue orValue lock s H)
    as (_ & H1 & M1 & G1).
  cbv zeta in H1, M1, G1.
  split; [exact H1 | split; [exact M1|]].
  intros x. rewrite G1, store_one, u8_idem. reflexivity.
Qed.


(** *** Reasoning forward through a method *)

Lemma after_ret {A} (a : A) s (Q : A -> AB1805 -> list Txn -> Prop) :
  Q a s [] -> after (ret a) s Q.
Proof. intros H. exact H. Qed.

Lemma after_bind {A B} (m : M A) (k : A -> M B) s
    (Q : B -> AB1805 -> list Txn -> Prop) :
  after m s (fun a s1 t1 => after (k a) s1 (fun b s2 t2 => Q b s2 (t1 ++ t2))) ->
  after (bind m k) s Q.
Proof.
  unfold after. rewrite result_bind, final_bind, trace_bind. intros H. exact H.
Qed.

Lemma after_orFail {A} (failed : A) (step : M bool) (rest : M A) s
    (Q : A -> AB1805 -> list Txn -> Prop) :
  after step s (fun b s1 t1 =>
    if b then after rest s1 (fun r s2 t2 => Q r s2 (t1 ++ t2))
    else Q failed s1 t1) ->
  after (orFail failed step rest) s Q.
Proof.
  intros H. unfold orFail. apply after_bind.
  unfold after in *. destruct (result (step s)).
  - exact H.
  - cbn [result final trace fst snd ret]. rewrite app_nil_r. exact H.
Qed.

Lemma after_lock c m s (Q : unit -> AB1805 -> list Txn -> Prop) :
  m = wire_lock \/ m = wire_unlock -> healthy s ->
  (forall s1, stored 0 [] s s1 -> Q tt s1 []) ->
  after (when c m) s Q.
Proof.
  intros Hm H K. unfold after.
  destruct (when_lock_stored c m s Hm H) as (S1 & T1).
  rewrite T1. destruct (result (when c m s)). apply K. exact S1.
Qed.

Lemma after_writeRegisters regAddr array lock s
    (Q : bool -> AB1805 -> list Txn -> Prop) :
  healthy s ->
  (forall s1, stored (u8 regAddr) array s s1 ->
              Q true s1 [Wr (u8 regAddr) array true]) ->
  after (writeRegisters regAddr array lock) s Q.
Proof.
  intros H K. unfold after.
  destruct (writeRegisters_stored regAddr array lock s H) as (R & S1 & T).
  rewrite R, T. apply K. exact S1.
Qed.

Lemma after_writeRegister regAddr value lock s
    (Q : bool -> AB1805 -> list Txn -> Prop) :
  healthy s ->
  (forall s1, stored (u8 regAddr) [u8 value] s s1 ->
              Q true s1 [Wr (u8 regAddr) [u8 value] true]) ->
  after (writeRegister regAddr value lock) s Q.
Proof. apply after_writeRegisters. Qed.

Lemma after_maskRegister regAddr andValue orValue lock s
    (Q : bool -> AB1805 -> list Txn -> Prop) :
  healthy s ->
  (forall s1 t,
      stored (u8 regAddr)
        [u8 (Z.lor (Z.land (reg s (u8 regAddr)) (u8 andValue)) (u8 orValue))]
        s s1 ->
      Forall (fun x => txn_addr x = u8 regAddr /\ txn_ok x = true) t ->
      Q true s1 t) ->
  after (maskRegister regAddr andValue orValue lock) s Q.
Proof.
  intros H K. unfold after.
  destruct (maskRegister_stored regAddr andValue orValue lock s H) as (R & S1).
  cbv zeta in R, S1. rewrite R. apply K; [exact S1|].
  rewrite maskRegister_healthy by exact H. cbv zeta.
  destruct (negb _); cbn [trace snd]; repeat constructor.
Qed.

Lemma after_readRegister regAddr lock s
    (Q : option Z -> AB1805 -> list Txn -> Prop) :
  healthy s ->
  Q (Some (reg s (u8 regAddr))) s [Rd (u8 regAddr) 1 true] ->
  after (readRegister regAddr lock) s Q.
Proof.
  intros H K. unfold after. rewrite readRegister_healthy by exact H. exact K.
Qed.

Lemma after_readRegisters regAddr num lock s
    (Q : option (list Z) -> AB1805 -> list Txn -> Prop) :
  healthy s ->
  Q (Some (burst (regs (wire s)) (u8 regAddr) (Z.to_nat num))) s
    [Rd (u8 regAddr) num true] ->
  after (readRegisters regAddr num lock) s Q.
Proof.
  intros H K. unfold after. rewrite readRegisters_healthy by exact H. exact K.
Qed.

(** State a property of a run of [m] from [s] as what holds after it. *)
Ltac forward m s :=
  let r := fresh "r" in
  let s' := fresh "s'" in
  set (r := result (m s)); set (s' := final (m s));
  pattern r, s';
  lazymatch goal with
  | |- ?P _ _ => change (after m s (fun a b _ => P a b))
  end;
  clear r s'.

(** The transport is still free of failures after the steps so far. *)
Ltac still_healthy :=
  first [ assumption
        | match goal with
          | S : _ _ _ _ ?b |- healthy ?b => destruct S as (S & _); exact S
          end ].

(** The register [x] after a chain of completed writes. *)
Ltac through_writes :=
  repeat match goal with
  | S : _ _ (_ :: nil) _ ?b |- context [reg ?b ?x] =>
      let E := fresh "E" in
      pose proof S as (_ & _ & E); rewrite (E x), store_one, ?u8_idem; clear E
  | S : _ _ nil _ ?b |- context [reg ?b ?x] =>
      let E := fresh "E" in
      pose proof S as (_ & _ & E); rewrite (E x); cbn [store]; clear E
  | G : forall y, reg ?b y = _ |- context [reg ?b ?x] => rewrite (G x)
  end.

(** The members of the driver object after a chain of completed writes. *)
Ltac through_members :=
  repeat match goal with
  | S : _ _ _ _ ?b |- context [members ?b] =>
      let E := fresh "E" in
      pose proof S as (_ & E & _); rewrite E; clear E
  end.



(** ** Alarm, countdown timer and deep power down on a responsive chip *)

Lemma after_setWDT_zero s (Q : bool -> AB1805 -> list Txn -> Prop) :
  healthy s ->
  (forall s1,
      healthy s1 -> members s1 = (0, 0, wakeReason s) ->
      (forall x, reg s1 x = if x =? REG_WDT then 0 else reg s x) ->
      Q true s1 [Wr REG_WDT [0x00] true]) ->
  after (setWDT 0) s Q.
Proof.
  intros H K. unfold after. rewrite setWDT_zero.
  rewrite (healthy_next_ack s H).
  rewrite (healthy_pop_ack (set_regs _ s)) by auto with drv.
  cbn [result final trace fst snd]. apply K.
  - auto with drv.
  - destruct s as [[r a d] ws wp wr]. reflexivity.
  - intros x. unfold reg at 1.
    destruct s as [[r a d] ws wp wr]. cbn.
    destruct (x =? REG_WDT); reflexivity.
Qed.


(** Bit fields of one byte, checked on every byte. *)
Lemma byte_fields old :
  0 <= old < 256 ->
  (* OUT1S of control register 2 *)
  u8 (Z.lor (Z.land old (u8 (Z.lnot REG_CTRL_2_OUT1S_MASK))) (u8 REG_CTRL_2_OUT1S_nAIRQ))
    = Z.lor old REG_CTRL_2_OUT1S_nAIRQ
  /\ u8 (Z.lor (Z.land old (u8 (Z.lnot REG_CTRL_2_OUT1S_MASK))) (u8 REG_CTRL_2_OUT1S_nIRQ))
    = Z.land old (Z.lnot REG_CTRL_2_OUT1S_MASK)
  (* the repeat field of the timer control register *)
  /\ u8 (Z.lor (Z.land old (u8 (Z.lnot REG_TIMER_CTRL_RPT_MASK))) (u8 REG_TIMER_CTRL_RPT_DIS))
    = Z.land old (Z.lnot REG_TIMER_CTRL_RPT_MASK)
  /\ Z.land (Z.land old (Z.lnot REG_TIMER_CTRL_RPT_MASK)) REG_TIMER_CTRL_RPT_MASK = 0
  /\ Z.land (Z.land old (Z.lnot REG_CTRL_2_OUT1S_MASK)) REG_CTRL_2_OUT1S_MASK = 0.
Proof.
  intros H.
  apply (checked_below (fun o =>
    (u8 (Z.lor (Z.land o (u8 (Z.lnot REG_CTRL_2_OUT1S_MASK))) (u8 REG_CTRL_2_OUT1S_nAIRQ))
       =? Z.lor o REG_CTRL_2_OUT1S_nAIRQ)
    && (u8 (Z.lor (Z.land o (u8 (Z.lnot REG_CTRL_2_OUT1S_MASK))) (u8 REG_CTRL_2_OUT1S_nIRQ))
       =? Z.land o (Z.lnot REG_CTRL_2_OUT1S_MASK))
    && (u8 (Z.lor (Z.land o (u8 (Z.lnot REG_TIMER_CTRL_RPT_MASK))) (u8 REG_TIMER_CTRL_RPT_DIS))
       =? Z.land o (Z.lnot REG_TIMER_CTRL_RPT_MASK))
    && (Z.land (Z.land o (Z.lnot REG_TIMER_CTRL_RPT_MASK)) REG_TIMER_CTRL_RPT_MASK =? 0)
    && (Z.land (Z.land o (Z.lnot REG_CTRL_2_OUT1S_MASK)) REG_CTRL_2_OUT1S_MASK =? 0))
    256) in H; [|vm_compute; reflexivity].
  rewrite !andb_true_iff, !Z.eqb_eq in H. tauto.
Qed.

(** The repeat field takes the bits of [rptValue] and the rest of the
    timer control register stays. *)
Lemma rpt_field old rptValue :
  let new := u8 (Z.lor (Z.land (u8 old) (u8 (Z.lnot REG_TIMER_CTRL_RPT_MASK)))
                       (u8 (Z.land (u8 rptValue) REG_TIMER_CTRL_RPT_MASK))) in
  Z.land new REG_TIMER_CTRL_RPT_MASK = Z.land (u8 rptValue) REG_TIMER_CTRL_RPT_MASK
  /\ Z.land new 0xe3 = Z.land (u8 old) 0xe3.
Proof.
  cbv zeta.
  pose (p := fun r => forallb (fun i =>
    let new := u8 (Z.lor (Z.land (Z.of_nat i) (u8 (Z.lnot REG_TIMER_CTRL_RPT_MASK)))
                         (u8 (Z.land r REG_TIMER_CTRL_RPT_MASK))) in
    (Z.land new REG_TIMER_CTRL_RPT_MASK =? Z.land r REG_TIMER_CTRL_RPT_MASK)
    && (Z.land new 0xe3 =? Z.land (Z.of_nat i) 0xe3)) (seq 0 256)).
  assert (Hp : p (u8 rptValue) = true).
  { apply (checked_below p 256); [vm_compute; reflexivity | apply u8_range]. }
  pose proof (checked_below (fun o =>
    let new := u8 (Z.lor (Z.land o (u8 (Z.lnot REG_TIMER_CTRL_RPT_MASK)))
                         (u8 (Z.land (u8 rptValue) REG_TIMER_CTRL_RPT_MASK))) in
    (Z.land new REG_TIMER_CTRL_RPT_MASK
       =? Z.land (u8 rptValue) REG_TIMER_CTRL_RPT_MASK)
    && (Z.land new 0xe3 =? Z.land o 0xe3)) 256 Hp (u8 old) (u8_range old)) as Hq.
  cbv zeta beta in Hq. rewrite andb_true_iff, !Z.eqb_eq in Hq. exact Hq.
Qed.

(** X19: on a transport where no failure is scheduled,
    [repeatingInterrupt] succeeds and leaves the alarm registers holding
    0x00 (hundredths) followed by the encoding of the time without the
    year, the alarm flag of the status register cleared, FOUT/nIRQ
    driven by the alarm interrupt (OUT1S = 3), the alarm interrupt
    enabled, and the repeat field of the timer control register set from
    [rptValue] with the other bits of that register kept.  It also
    stops the watchdog and clears the period on record.
    [interruptAtTm] is the same with the repeat field "once per month"
    (match on date and time). *)
Theorem repeatingInterrupt_arms_alarm
    (timeptr : tm) (rptValue : Z) (s : AB1805) :
  healthy s ->
  let run := repeatingInterrupt timeptr rptValue s in
  let s' := final run in
  result run = true
  /\ burst (regs (wire s')) REG_HUNDREDTH_ALARM 7
     = 0x00 :: tmToRegisters timeptr false
  /\ reg s' REG_STATUS = Z.land (reg s REG_STATUS) (Z.lnot REG_STATUS_ALM)
  /\ reg s' REG_CTRL_2 = Z.lor (reg s REG_CTRL_2) REG_CTRL_2_OUT1S_nAIRQ
  /\ reg s' REG_INT_MASK = Z.lor (reg s REG_INT_MASK) REG_INT_MASK_AIE
  /\ Z.land (reg s' REG_TIMER_CTRL) REG_TIMER_CTRL_RPT_MASK
     = Z.land (u8 rptValue) REG_TIMER_CTRL_RPT_MASK
  /\ Z.land (reg s' REG_TIMER_CTRL) 0xe3 = Z.land (reg s REG_TIMER_CTRL) 0xe3
  /\ reg s' REG_WDT = 0
  /\ members s' = (0, 0, wakeReason s)
  /\ (rptValue = REG_TIMER_CTRL_RPT_DATE ->
      result (interruptAtTm timeptr s) = true
      /\ Z.land (reg (final (interruptAtTm timeptr s)) REG_TIMER_CTRL)
                REG_TIMER_CTRL_RPT_MASK = REG_TIMER_CTRL_RPT_DATE).
Proof.
  intros H. cbv zeta.
  assert (Main :
    after (repeatingInterrupt timeptr rptValue) s (fun r s' _ =>
      r = true
      /\ burst (regs (wire s')) REG_HUNDREDTH_ALARM 7
         = 0x00 :: tmToRegisters timeptr false
      /\ reg s' REG_STATUS = Z.land (reg s REG_STATUS) (Z.lnot REG_STATUS_ALM)
      /\ reg s' REG_CTRL_2 = Z.lor (reg s REG_CTRL_2) REG_CTRL_2_OUT1S_nAIRQ
      /\ reg s' REG_INT_MASK = Z.lor (reg s REG_INT_MASK) REG_INT_MASK_AIE
      /\ Z.land (reg s' REG_TIMER_CTRL) REG_TIMER_CTRL_RPT_MASK
         = Z.land (u8 rptValue) REG_TIMER_CTRL_RPT_MASK
      /\ Z.land (reg s' REG_TIMER_CTRL) 0xe3 = Z.land (reg s REG_TIMER_CTRL) 0xe3
      /\ reg s' REG_WDT = 0
      /\ members s' = (0, 0, wakeReason s))).
  { unfold repeatingInterrupt, clearRegisterBit, setRegisterBit. cbv zeta.
    apply after_orFail. apply after_setWDT_zero; [exact H|].
    intros s1 H1 M1 G1. cbv beta iota.
    apply after_orFail. apply after_maskRegister; [still_healthy|].
    intros s2 t2 S2 _. cbv beta iota.
    apply after_orFail. apply after_writeRegisters; [still_healthy|].
    intros s3 S3. cbv beta iota.
    apply after_bind. apply after_readRegisters; [still_healthy|].
    apply after_bind. apply after_readRegisters; [still_healthy|].
    apply after_orFail. apply after_maskRegister; [still_healthy|].
    intros s4 t4 S4 _. cbv beta iota.
    apply after_orFail. apply after_maskRegister; [still_healthy|].
    intros s5 t5 S5 _. cbv beta iota.
    apply after_orFail. apply after_maskRegister; [still_healthy|].
    intros s6 t6 S6 _. cbv beta iota.
    apply after_ret.
    (* the registers outside the alarm block pass through its write *)
    assert (E3 : forall x, ~ 8 <= x < 15 -> reg s3 x = reg s2 x).
    { intros x Hx. pose proof S3 as (_ & _ & E). rewrite (E x).
      change (u8 REG_HUNDREDTH_ALARM) with 8.
      rewrite store_nth by (unfold tmToRegisters; cbn [length app]; lia).
      unfold tmToRegisters. cbn [length app].
      destruct (Z.leb_spec 8 x), (Z.ltb_spec x (8 + Z.of_nat 7)); cbn [andb];
        try reflexivity; lia. }
    pose proof (byte_fields (reg s REG_CTRL_2) (reg_range _ _)) as (B1 & _).
    pose proof (rpt_field (regs (wire s) REG_TIMER_CTRL) rptValue) as (B2 & B3).
    cbv zeta in B2, B3. fold (reg s REG_TIMER_CTRL) in B2, B3.
    split; [reflexivity | split; [|split; [|split; [|split; [|split; [|split; [|split]]]]]]].
    - assert (Hb : burst (regs (wire s6)) REG_HUNDREDTH_ALARM
                     (length (0x00 :: tmToRegisters timeptr false))
                   = map u8 (0x00 :: tmToRegisters timeptr false)).
      { apply (burst_of_stored (reg s2));
          unfold REG_HUNDREDTH_ALARM, tmToRegisters; cbn [length app]; try lia.
        intros x Hx. fold (reg s6 x). through_writes. u8_const.
        destruct (Z.eqb_spec x REG_TIMER_CTRL) as [->|];
          [vm_compute in Hx; destruct Hx as [_ Hx]; discriminate Hx|].
        destruct (Z.eqb_spec x REG_INT_MASK) as [->|];
          [vm_compute in Hx; destruct Hx as [_ Hx]; discriminate Hx|].
        destruct (Z.eqb_spec x REG_CTRL_2) as [->|];
          [vm_compute in Hx; destruct Hx as [_ Hx]; discriminate Hx|].
        pose proof S3 as (_ & _ & E). rewrite (E x). reflexivity. }
      cbn [map] in Hb. rewrite tmToRegisters_bytes in Hb. exact Hb.
    - through_writes. u8_const. eval_eqb.
      rewrite E3
        by (unfold REG_STATUS, REG_CTRL_2, REG_INT_MASK, REG_TIMER_CTRL, REG_WDT;
            lia).
      through_writes. u8_const. eval_eqb.
      apply (clear_bit_byte _ REG_STATUS_ALM (reg_range _ _)).
      vm_compute. intuition discriminate.
    - through_writes. u8_const. eval_eqb.
      rewrite E3
        by (unfold REG_STATUS, REG_CTRL_2, REG_INT_MASK, REG_TIMER_CTRL, REG_WDT;
            lia).
      through_writes. u8_const. eval_eqb. exact B1.
    - through_writes. u8_const. eval_eqb.
      rewrite E3
        by (unfold REG_STATUS, REG_CTRL_2, REG_INT_MASK, REG_TIMER_CTRL, REG_WDT;
            lia).
      through_writes. u8_const. eval_eqb.
      apply (set_bit_byte _ REG_INT_MASK_AIE (reg_range _ _)).
      vm_compute. intuition discriminate.
    - through_writes. u8_const. eval_eqb.
      rewrite E3
        by (unfold REG_STATUS, REG_CTRL_2, REG_INT_MASK, REG_TIMER_CTRL, REG_WDT;
            lia).
      through_writes. u8_const. eval_eqb. exact B2.
    - through_writes. u8_const. eval_eqb.
      rewrite E3
        by (unfold REG_STATUS, REG_CTRL_2, REG_INT_MASK, REG_TIMER_CTRL, REG_WDT;
            lia).
      through_writes. u8_const. eval_eqb. exact B3.
    - through_writes. u8_const. eval_eqb.
      rewrite E3
        by (unfold REG_STATUS, REG_CTRL_2, REG_INT_MASK, REG_TIMER_CTRL, REG_WDT;
            lia).
      through_writes. u8_const. eval_eqb. reflexivity.
    - through_members. exact M1. }
  unfold after in Main.
  destruct Main as (M1 & M2 & M3 & M4 & M5 & M6 & M7 & M8 & M9).
  repeat (split; [assumption|]).
  intros ->. unfold interruptAtTm. split; [exact M1|].
  rewrite M6. reflexivity.
Qed.

Lemma repeatingInterrupt_arms_alarm_witness :
  healthy idle
  /\ result (interruptAtTm tm_leap idle) = true
  /\ burst (regs (wire (final (repeatingInterrupt tm_leap REG_TIMER_CTRL_RPT_DATE
                                 idle)))) REG_HUNDREDTH_ALARM 7
     = [0x00; 0x58; 0x59; 0x23; 0x29; 0x02; 0x04]
  /\ reg (final (repeatingInterrupt tm_leap REG_TIMER_CTRL_RPT_DATE idle))
         REG_CTRL_2 = 0x03.
Proof.
  assert (H : healthy idle) by reflexivity.
  destruct (repeatingInterrupt_arms_alarm tm_leap REG_TIMER_CTRL_RPT_DATE idle H)
    as (_ & E1 & _ & E2 & _ & _ & _ & _ & _ & K).
  destruct (K eq_refl) as (E3 & _).
  split; [exact H | split; [exact E3 | split; [exact E1 | exact E2]]].
Defined.

(** X20: on a transport where no failure is scheduled,
    [clearRepeatingInterrupt] succeeds and clears three fields, leaving
    every other bit of the chip as it was: OUT1S of control register 2
    (FOUT/nIRQ back to its default source), the alarm interrupt enable,
    and the repeat field of the timer control register (alarm
    disabled).  The members of the driver object are untouched, so a
    watchdog stopped by [repeatingInterrupt] is not started again. *)
Theorem clearRepeatingInterrupt_disarms (s : AB1805) :
  healthy s ->
  let run := clearRepeatingInterrupt s in
  let s' := final run in
  result run = true
  /\ reg s' REG_CTRL_2 = Z.land (reg s REG_CTRL_2) (Z.lnot REG_CTRL_2_OUT1S_MASK)
  /\ reg s' REG_INT_MASK = Z.land (reg s REG_INT_MASK) (Z.lnot REG_INT_MASK_AIE)
  /\ reg s' REG_TIMER_CTRL
     = Z.land (reg s REG_TIMER_CTRL) (Z.lnot REG_TIMER_CTRL_RPT_MASK)
  /\ Z.land (reg s' REG_CTRL_2) REG_CTRL_2_OUT1S_MASK = 0
  /\ bit_set (reg s' REG_INT_MASK) REG_INT_MASK_AIE = false
  /\ Z.land (reg s' REG_TIMER_CTRL) REG_TIMER_CTRL_RPT_MASK = 0
  /\ (forall x, x <> REG_CTRL_2 -> x <> REG_INT_MASK -> x <> REG_TIMER_CTRL ->
        reg s' x = reg s x)
  /\ members s' = members s.
Proof.
  intros H. cbv zeta.
  forward clearRepeatingInterrupt s.
  unfold clearRepeatingInterrupt, clearRegisterBit.
  apply after_orFail. apply after_maskRegister; [exact H|].
  intros s1 t1 S1 _. cbv beta iota.
  apply after_orFail. apply after_maskRegister; [still_healthy|].
  intros s2 t2 S2 _. cbv beta iota.
  apply after_orFail. apply after_maskRegister; [still_healthy|].
  intros s3 t3 S3 _. cbv beta iota.
  apply after_ret.
  pose proof (byte_fields (reg s REG_CTRL_2) (reg_range _ _))
    as (_ & B1 & _ & _ & B4).
  pose proof (byte_fields (reg s REG_TIMER_CTRL) (reg_range _ _))
    as (_ & _ & B2 & B3 & _).
  assert (E1 : reg s3 REG_CTRL_2
               = Z.land (reg s REG_CTRL_2) (Z.lnot REG_CTRL_2_OUT1S_MASK)).
  { through_writes. u8_const. eval_eqb. exact B1. }
  assert (E2 : reg s3 REG_INT_MASK
               = Z.land (reg s REG_INT_MASK) (Z.lnot REG_INT_MASK_AIE)).
  { through_writes. u8_const. eval_eqb.
    apply (clear_bit_byte _ REG_INT_MASK_AIE (reg_range _ _)).
    vm_compute. intuition discriminate. }
  assert (E3 : reg s3 REG_TIMER_CTRL
               = Z.land (reg s REG_TIMER_CTRL) (Z.lnot REG_TIMER_CTRL_RPT_MASK)).
  { through_writes. u8_const. eval_eqb. exact B2. }
  split; [reflexivity | split; [exact E1 | split; [exact E2 | split; [exact E3 |]]]].
  split; [rewrite E1; exact B4 | split; [|split; [rewrite E3; exact B3 | split]]].
  - rewrite E2. unfold bit_set. apply negb_false_iff, Z.eqb_eq.
    apply Z.bits_inj'; intros n Hn.
    rewrite !Z.land_spec, Z.lnot_spec, Z.bits_0 by exact Hn.
    destruct (Z.testbit (reg s REG_INT_MASK) n),
             (Z.testbit REG_INT_MASK_AIE n); reflexivity.
  - intros x X1 X2 X3. through_writes. u8_const.
    destruct (Z.eqb_spec x REG_TIMER_CTRL); [contradiction|].
    destruct (Z.eqb_spec x REG_INT_MASK); [contradiction|].
    destruct (Z.eqb_spec x REG_CTRL_2); [contradiction|].
    reflexivity.
  - through_members. reflexivity.
Qed.

Lemma clearRepeatingInterrupt_disarms_witness :
  let armed := final (repeatingInterrupt tm_leap REG_TIMER_CTRL_RPT_DATE idle) in
  healthy armed
  /\ reg armed REG_TIMER_CTRL = 0x08
  /\ reg (final (clearRepeatingInterrupt armed)) REG_TIMER_CTRL = 0x00
  /\ reg (final (clearRepeatingInterrupt armed)) REG_CTRL_2 = 0x00.
Proof.
  cbv zeta.
  assert (H : healthy (final (repeatingInterrupt tm_leap REG_TIMER_CTRL_RPT_DATE
                                idle))) by (vm_compute; reflexivity).
  destruct (clearRepeatingInterrupt_disarms _ H) as (_ & E1 & _ & E2 & _).
  split; [exact H | split; [vm_compute; reflexivity | split]].
  - rewrite E2. vm_compute. reflexivity.
  - rewrite E1. vm_compute. reflexivity.
Defined.

Lemma after_setCountdownTimer (value : Z) (minutes : bool) s
    (Q : bool -> AB1805 -> list Txn -> Prop) :
  healthy s ->
  (forall s1 t,
      healthy s1 -> members s1 = members s ->
      (forall x, reg s1 x =
         if x =? REG_TIMER_CTRL
         then Z.lor REG_TIMER_CTRL_TE
                (if minutes then REG_TIMER_CTRL_TFS_1_60 else REG_TIMER_CTRL_TFS_1)
         else if x =? REG_INT_MASK then Z.lor (reg s REG_INT_MASK) REG_INT_MASK_TIE
         else if x =? REG_TIMER then Z.min 255 (Z.max 1 value)
         else if x =? REG_STATUS then REG_STATUS_DEFAULT
         else reg s x) ->
      Q true s1 t) ->
  after (setCountdownTimer value minutes) s Q.
Proof.
  intros H K.
  pose proof (countdown_clamp value) as Hc. cbv zeta in Hc.
  unfold setCountdownTimer, setRegisterBit. rewrite Hc.
  apply after_orFail. apply after_writeRegister; [exact H|].
  intros s1 S1. cbv beta iota.
  apply after_orFail. apply after_writeRegister; [still_healthy|].
  intros s2 S2. cbv beta iota.
  apply after_orFail. apply after_writeRegister; [still_healthy|].
  intros s3 S3. cbv beta iota.
  apply after_orFail. apply after_maskRegister; [still_healthy|].
  intros s4 t4 S4 _. cbv beta iota.
  apply after_orFail. apply after_writeRegister; [still_healthy|].
  intros s5 S5. cbv beta iota.
  apply after_ret. apply K.
  - still_healthy.
  - through_members. reflexivity.
  - intros x. through_writes. u8_const.
    destruct (x =? REG_TIMER_CTRL).
    { destruct minutes; reflexivity. }
    destruct (x =? REG_INT_MASK).
    { eval_eqb. apply (set_bit_byte _ REG_INT_MASK_TIE (reg_range _ _)).
      vm_compute. intuition discriminate. }
    destruct (x =? REG_TIMER); [apply u8_small; lia|].
    reflexivity.
Qed.

(** X21: on a transport where no failure is scheduled,
    [interruptCountdownTimer] succeeds and leaves the timer register at
    [value] clamped to 1..255, the timer control register at 0x83
    (minutes) or 0x82 (seconds), which also zeroes the alarm repeat
    field, every flag of the status register cleared, the timer
    interrupt enabled, OUT1S of control register 2 at its default, and
    the watchdog stopped with the period on record cleared; no other
    register changes. *)
Theorem interruptCountdownTimer_arms_timer
    (value : Z) (minutes : bool) (s : AB1805) :
  healthy s ->
  let run := interruptCountdownTimer value minutes s in
  let s' := final run in
  result run = true
  /\ reg s' REG_TIMER = Z.min 255 (Z.max 1 value)
  /\ reg s' REG_TIMER_CTRL = (if minutes then 0x83 else 0x82)
  /\ reg s' REG_STATUS = 0
  /\ reg s' REG_INT_MASK = Z.lor (reg s REG_INT_MASK) REG_INT_MASK_TIE
  /\ reg s' REG_CTRL_2 = Z.land (reg s REG_CTRL_2) (Z.lnot REG_CTRL_2_OUT1S_MASK)
  /\ reg s' REG_WDT = 0
  /\ members s' = (0, 0, wakeReason s)
  /\ (forall x,
        ~ In x [REG_WDT; REG_CTRL_2; REG_STATUS; REG_TIMER_CTRL; REG_TIMER;
                REG_INT_MASK] ->
        reg s' x = reg s x).
Proof.
  intros H. cbv zeta.
  forward (interruptCountdownTimer value minutes) s.
  unfold interruptCountdownTimer.
  apply after_orFail. apply after_setWDT_zero; [exact H|].
  intros s1 H1 M1 G1. cbv beta iota.
  apply after_orFail. apply after_maskRegister; [still_healthy|].
  intros s2 t2 S2 _. cbv beta iota.
  apply after_orFail. apply after_setCountdownTimer; [still_healthy|].
  intros s3 t3 H3 M3 G3. cbv beta iota.
  apply after_ret.
  pose proof (byte_fields (reg s REG_CTRL_2) (reg_range _ _)) as (_ & B1 & _).
  split; [reflexivity|].
  repeat match goal with |- _ /\ _ => split end.
  - through_writes. eval_eqb. reflexivity.
  - through_writes. eval_eqb. destruct minutes; reflexivity.
  - through_writes. eval_eqb. reflexivity.
  - through_writes. u8_const. eval_eqb. reflexivity.
  - through_writes. u8_const. eval_eqb. exact B1.
  - through_writes. u8_const. eval_eqb. reflexivity.
  - rewrite M3. through_members. exact M1.
  - intros x Hx. through_writes. u8_const.
    repeat match goal with
    | |- context [x =? ?c] =>
        destruct (Z.eqb_spec x c) as [->|];
        [exfalso; apply Hx; cbn [In]; tauto|]
    end.
    reflexivity.
Qed.

Lemma interruptCountdownTimer_arms_timer_witness :
  healthy in_use
  /\ reg (final (interruptCountdownTimer 0 true in_use)) REG_TIMER = 1
  /\ reg (final (interruptCountdownTimer 0 true in_use)) REG_TIMER_CTRL = 0x83
  /\ watchdogSecs (final (interruptCountdownTimer 0 true in_use)) = 0.
Proof.
  assert (H : healthy in_use) by reflexivity.
  destruct (interruptCountdownTimer_arms_timer 0 true in_use H)
    as (_ & E1 & E2 & _ & _ & _ & _ & M & _).
  split; [exact H | split; [exact E1 | split; [exact E2 |]]].
  apply (f_equal (fun m => fst (fst m))) in M. exact M.
Defined.




(** ** The wake reason on a failing transport *)

Lemma wdt_flag_cleared old :
  0 <= old < 256 -> bit_set old REG_STATUS_WDT = true ->
  Z.land old (Z.lnot REG_STATUS_WDT) <> old
  /\ bit_set (Z.land old (Z.lnot REG_STATUS_WDT)) REG_STATUS_WDT = false.
Proof.
  intros H Hb.
  apply (checked_below (fun o =>
    implb (bit_set o REG_STATUS_WDT)
          (negb (Z.land o (Z.lnot REG_STATUS_WDT) =? o)
           && negb (bit_set (Z.land o (Z.lnot REG_STATUS_WDT)) REG_STATUS_WDT)))
    256) in H; [|vm_compute; reflexivity].
  rewrite Hb in H. cbn [implb] in H.
  apply andb_true_iff in H. destruct H as [H1 H2].
  apply negb_true_iff in H1, H2. apply Z.eqb_neq in H1. split; assumption.
Qed.

(** X23: [updateWakeReason] reports what the first read, of the status
    register, allowed: when that read fails it returns [false] having
    changed nothing; when it completes the call returns [true] whatever
    happens afterwards.  With the watchdog flag set the wake reason
    becomes Watchdog and the flag is then cleared by a read and a write
    whose outcome is not looked at: the flag is gone from the chip only
    when both completed, and stays set otherwise. *)
Theorem updateWakeReason_first_read_decides (s : AB1805) :
  let ack1 := hd true (acks (wire s)) in
  let ack2 := hd true (tl (acks (wire s))) in
  let ack3 := hd true (tl (tl (acks (wire s)))) in
  let run := updateWakeReason s in
  result run = ack1
  /\ (ack1 = false ->
      trace run = [Rd REG_STATUS 1 false]
      /\ wakeReason (final run) = wakeReason s
      /\ regs (wire (final run)) = regs (wire s))
  /\ (ack1 = true -> bit_set (reg s REG_STATUS) REG_STATUS_WDT = true ->
      wakeReason (final run) = WATCHDOG
      /\ trace run =
           Rd REG_STATUS 1 true :: Rd REG_STATUS 1 ack2
           :: (if ack2
               then [Wr REG_STATUS
                       [Z.land (reg s REG_STATUS) (Z.lnot REG_STATUS_WDT)] ack3]
               else [])
      /\ bit_set (reg (final run) REG_STATUS) REG_STATUS_WDT = negb (ack2 && ack3)).
Proof.
  cbv zeta.
  change (hd true (acks (wire s))) with (next_ack (wire s)).
  change (hd true (tl (acks (wire s)))) with (next_ack (wire (pop_ack s))).
  change (hd true (tl (tl (acks (wire s)))))
    with (next_ack (wire (pop_ack (pop_ack s)))).
  split; [|split].
  - unfold updateWakeReason. rewrite result_bind, readRegister_run.
    cbn [result final fst snd].
    destruct (next_ack (wire s)); [|reflexivity].
    rewrite result_bind. reflexivity.
  - intros Hf. unfold updateWakeReason, bind. rewrite readRegister_run, Hf.
    cbn [result final trace fst snd ret app].
    destruct s as [[r a d] ws wp wr]. repeat split; reflexivity.
  - intros Hok Hw.
    destruct (wdt_flag_cleared (reg s REG_STATUS) (reg_range _ _) Hw)
      as (Hne & Hclr).
    assert (E : updateWakeReason s =
      (true,
       final (clearRegisterBit REG_STATUS REG_STATUS_WDT true
                (set_wakeReason WATCHDOG (pop_ack s))),
       Rd REG_STATUS 1 true
       :: trace (clearRegisterBit REG_STATUS REG_STATUS_WDT true
                   (set_wakeReason WATCHDOG (pop_ack s))))).
    { unfold updateWakeReason. unfold bind at 1.
      rewrite readRegister_run, Hok. u8_const.
      unfold bit_set in Hw. rewrite Hw.
      unfold bind, modify, ret, final, trace.
      destruct (clearRegisterBit REG_STATUS REG_STATUS_WDT true
                  (set_wakeReason WATCHDOG (pop_ack s))) as [[b s2] t2].
      cbn [fst snd app]. rewrite !app_nil_r. reflexivity. }
    rewrite E. cbn [result final trace fst snd]. clear E.
    unfold clearRegisterBit.
    pose proof (maskRegister_run REG_STATUS (Z.lnot (u8 REG_STATUS_WDT)) 0x00 true
                  (set_wakeReason WATCHDOG (pop_ack s))) as E.
    cbv zeta in E. rewrite E. clear E.
    assert (R : reg (set_wakeReason WATCHDOG (pop_ack s)) (u8 REG_STATUS)
                = reg s REG_STATUS)
      by (destruct s as [[r a d] ws wp wr]; reflexivity).
    assert (A2 : next_ack (wire (set_wakeReason WATCHDOG (pop_ack s)))
                 = next_ack (wire (pop_ack s)))
      by (destruct s as [[r a d] ws wp wr]; reflexivity).
    assert (A3 : next_ack (wire (pop_ack (set_wakeReason WATCHDOG (pop_ack s))))
                 = next_ack (wire (pop_ack (pop_ack s))))
      by (destruct s as [[r a d] ws wp wr]; reflexivity).
    rewrite R, A2, A3.
    rewrite (clear_bit_byte _ REG_STATUS_WDT (reg_range _ _))
      by (vm_compute; intuition discriminate).
    destruct (Z.eqb_spec (Z.land (reg s REG_STATUS) (Z.lnot REG_STATUS_WDT))
                         (reg s REG_STATUS)) as [Eq|_]; [contradiction|].
    cbn [negb]. u8_const.
    destruct (next_ack (wire (pop_ack s))).
    + destruct (next_ack (wire (pop_ack (pop_ack s))));
        cbn [final trace fst snd andb negb].
      * split; [destruct s as [[r a d] ws wp wr]; reflexivity | split;
                [reflexivity|]].
        rewrite <- Hclr. f_equal.
        rewrite !reg_pop_ack, reg_set_regs, store_one, Z.eqb_refl, u8_idem.
        apply u8_small.
        rewrite <- (clear_bit_byte _ REG_STATUS_WDT (reg_range _ _))
          by (vm_compute; intuition discriminate).
        apply u8_range.
      * split; [destruct s as [[r a d] ws wp wr]; reflexivity | split;
                [reflexivity|]].
        rewrite <- Hw. unfold reg. rewrite !regs_pop_ack.
        destruct s as [[r a d] ws wp wr]; reflexivity.
    + cbn [final trace fst snd andb negb].
      split; [destruct s as [[r a d] ws wp wr]; reflexivity | split;
              [reflexivity|]].
      rewrite <- Hw. unfold reg. rewrite !regs_pop_ack.
      destruct s as [[r a d] ws wp wr]; reflexivity.
Qed.

Lemma updateWakeReason_first_read_decides_witness :
  result (updateWakeReason wdt_then_fault) = true
  /\ wakeReason (final (updateWakeReason wdt_then_fault)) = WATCHDOG
  /\ bit_set (reg (final (updateWakeReason wdt_then_fault)) REG_STATUS)
             REG_STATUS_WDT = true.
Proof.
  destruct (updateWakeReason_first_read_decides wdt_then_fault) as (E1 & _ & K).
  destruct K as (E2 & _ & E3); [reflexivity | reflexivity |].
  split; [exact E1 | split; [exact E2 | exact E3]].
Defined.

(** ** The bytes moved by the RAM store *)

Lemma firstn_more {A} (l : list A) a b :
  firstn a l ++ firstn b (skipn a l) = firstn (a + b) l.
Proof.
  revert l. induction a as [|a IH]; intros l; [reflexivity|].
  destruct l as [|x l]; cbn [firstn skipn Nat.add app].
  - rewrite firstn_nil. reflexivity.
  - rewrite IH. reflexivity.
Qed.

(** The traffic that selects a bank carries nothing into the window. *)
Lemma select_payload a s :
  concat (map ram_payload
    (trace ((if a <? 128
             then clearRegisterBit REG_EXT_ADDR REG_EXT_ADDR_XADA true
             else setRegisterBit REG_EXT_ADDR REG_EXT_ADDR_XADA true) s))) = [].
Proof.
  destruct (select_bank a s) as ((Hsel & _) & _). cbv zeta in Hsel.
  induction Hsel as [|t l Ht _ IH]; [reflexivity|].
  cbn [map concat]. rewrite IH, app_nil_r.
  destruct t as [x n ok | x d ok]; [reflexivity|].
  cbn [txn_addr] in Ht. subst x. destruct ok; reflexivity.
Qed.

(** The loop of [writeRam], on any transport: what reached the window
    is a prefix of the data. *)
Lemma writeRam_loop_payload fuel :
  forall ramAddr dataLen data s,
    0 <= ramAddr -> 0 <= dataLen -> ramAddr + dataLen <= 256 ->
    dataLen <= Z.of_nat (length data) ->
    (Z.to_nat dataLen <= fuel)%nat ->
    let run := writeRam_loop fuel ramAddr data dataLen s in
    exists n,
      0 <= n <= dataLen
      /\ concat (map ram_payload (trace run)) = firstn (Z.to_nat n) data
      /\ (result run = Some true -> n = dataLen)
      /\ (result run = Some false -> n < dataLen)
      /\ result run <> None.
Proof.
  induction fuel as [|fuel IH];
    intros ramAddr dataLen data s Ha Hl Hfit Hdata Hfuel; cbv zeta.
  - assert (dataLen = 0) by lia. subst dataLen.
    exists 0. cbn. repeat split; try lia; discriminate.
  - cbn [writeRam_loop].
    destruct (Z.gtb_spec dataLen 0) as [Hpos|Hzero].
    2:{ assert (dataLen = 0) by lia. subst dataLen.
        exists 0. cbn. repeat split; try lia; discriminate. }
    destruct (chunk_count 31 ramAddr dataLen) as (C1 & C5 & C6); try lia.
    cbv zeta in C1, C5, C6. destruct C1 as (Hc1 & Hc2 & Hc3 & Hc4).
    set (count := if (ramAddr <? 128) &&
                     (usize (ramAddr + (if dataLen >? 31 then 31 else dataLen)) >? 128)
                  then usize (128 - ramAddr)
                  else if dataLen >? 31 then 31 else dataLen) in *.
    pose proof (select_payload ramAddr s) as Hsel.
    rewrite C5, C6. mnorm.
    set (s1 := final ((if ramAddr <? 128
                       then clearRegisterBit REG_EXT_ADDR REG_EXT_ADDR_XADA true
                       else setRegisterBit REG_EXT_ADDR REG_EXT_ADDR_XADA true) s))
      in *.
    rewrite map_app, concat_app, Hsel. cbn [app].
    rewrite writeRegisters_run, ram_window by exact Ha.
    cbn [result final trace fst snd].
    assert (Hw : (REG_ALT_RAM <=? REG_ALT_RAM + ramAddr mod 128) = true).
    { apply Z.leb_le. pose proof (Z.mod_pos_bound ramAddr 128 ltac:(lia)). lia. }
    destruct (next_ack (wire s1)).
    + match goal with
      | |- context [writeRam_loop fuel ?a ?d ?l ?x] =>
          destruct (IH a l d x) as (n & Hn & Hp & Ht & Hf & Hnone);
          try lia; [rewrite length_skipn; lia|]
      end.
      cbv zeta in Hp, Ht, Hf, Hnone.
      exists (count + n).
      split; [lia | split; [|split; [|split]]].
      * rewrite map_app, concat_app. cbn [map concat ram_payload].
        rewrite Hw, Hp, app_nil_r, firstn_more. f_equal. lia.
      * intros E. specialize (Ht E). lia.
      * intros E. specialize (Hf E). lia.
      * exact Hnone.
    + exists 0. cbn [map concat ram_payload app].
      split; [lia | split; [reflexivity | split; [|split]]];
        mnorm; try discriminate.
      intros _. lia.
Qed.

(** X24: for a transfer inside the 256 bytes of RAM, on any transport,
    the bytes [writeRam] delivers into the RAM window, chunk after
    chunk, are the first bytes of [data] in order, none twice and none
    skipped: all [dataLen] of them when the call returns [true], fewer
    when it returns [false]; and the call always returns. *)
Theorem writeRam_delivers_prefix
    (ramAddr : Z) (data : list Z) (dataLen : Z) (lock : bool) (s : AB1805) :
  0 <= ramAddr -> 0 <= dataLen -> ramAddr + dataLen <= 256 ->
  dataLen <= Z.of_nat (length data) ->
  let run := writeRam ramAddr data dataLen lock s in
  exists n,
    0 <= n <= dataLen
    /\ concat (map ram_payload (trace run)) = firstn (Z.to_nat n) data
    /\ (result run = Some true -> n = dataLen)
    /\ (result run = Some false -> n < dataLen)
    /\ result run <> None.
Proof.
  intros Ha Hl Hfit Hdata. cbv zeta.
  destruct (when_lock_bus lock wire_lock s (or_introl eq_refl)) as (_ & _ & T0).
  assert (Tu : forall x, trace (when lock wire_unlock x) = []).
  { intros x. apply (when_lock_bus lock wire_unlock x (or_intror eq_refl)). }
  destruct (writeRam_loop_payload (Z.to_nat dataLen) ramAddr dataLen data
              (final (when lock wire_lock s)) Ha Hl Hfit Hdata (le_n _))
    as (n & Hn & Hp & Ht & Hf & Hnone).
  cbv zeta in Hp, Ht, Hf, Hnone.
  exists n. unfold writeRam. mnorm. rewrite T0, Tu, app_nil_r. cbn [app].
  split; [exact Hn | split; [exact Hp | split; [exact Ht | split; [exact Hf |]]]].
  exact Hnone.
Qed.

Lemma writeRam_delivers_prefix_witness :
  0 <= 100 /\ 0 <= 70 /\ 100 + 70 <= 256 /\ 70 <= Z.of_nat (length (ramp 70))
  /\ result (writeRam 100 (ramp 70) 70 true idle) = Some true
  /\ concat (map ram_payload (trace (writeRam 100 (ramp 70) 70 true idle)))
     = ramp 70.
Proof.
  assert (H1 : 0 <= 100) by lia. assert (H2 : 0 <= 70) by lia.
  assert (H3 : 100 + 70 <= 256) by lia.
  assert (H4 : 70 <= Z.of_nat (length (ramp 70))) by (cbn; lia).
  assert (R : result (writeRam 100 (ramp 70) 70 true idle) = Some true)
    by (vm_compute; reflexivity).
  split; [exact H1 | split; [exact H2 | split; [exact H3 | split; [exact H4 |]]]].
  split; [exact R|].
  destruct (writeRam_delivers_prefix 100 (ramp 70) 70 true idle H1 H2 H3 H4)
    as (n & _ & Hp & Ht & _).
  rewrite Hp, (Ht R). reflexivity.
Defined.

(** *** Erasing the RAM *)

Lemma traffic_elsewhere t :
  Forall (fun x => txn_addr x = REG_EXT_ADDR) t -> filter in_window t = [].
Proof.
  induction 1 as [|x l Hx _ IH]; [reflexivity|].
  cbn [filter]. unfold in_window at 1. rewrite Hx, IH. reflexivity.
Qed.

Lemma window_offset a len :
  0 <= a -> 0 < len -> a + len <= 128 \/ (128 <= a /\ a + len <= 256) ->
  0 <= a mod 128 /\ a mod 128 + len <= 128.
Proof.
  intros Ha Hlen [Hlo|(Hhi & Hfit)].
  - rewrite Z.mod_small by lia. lia.
  - pose proof (Z.div_mod a 128 ltac:(lia)) as E.
    rewrite (bank_of_high a) in E by lia. lia.
Qed.

(** What the two bank selections leave in the bank bit. *)
Lemma xada_selected old :
  0 <= old < 256 ->
  bit_set (u8 (u8 (Z.lor (Z.land old (u8 (Z.lnot (u8 REG_EXT_ADDR_XADA))))
                         (u8 0x00)))) REG_EXT_ADDR_XADA = false
  /\ bit_set (u8 (u8 (Z.lor (Z.land old (u8 0xff)) (u8 REG_EXT_ADDR_XADA))))
             REG_EXT_ADDR_XADA = true.
Proof.
  intros H.
  pose proof (checked_below (fun o =>
    negb (bit_set (u8 (u8 (Z.lor (Z.land o (u8 (Z.lnot (u8 REG_EXT_ADDR_XADA))))
                                 (u8 0x00)))) REG_EXT_ADDR_XADA)
    && bit_set (u8 (u8 (Z.lor (Z.land o (u8 0xff)) (u8 REG_EXT_ADDR_XADA))))
               REG_EXT_ADDR_XADA) 256 ltac:(vm_compute; reflexivity) old H) as E.
  apply andb_true_iff in E. destruct E as (E1 & E2).
  apply negb_true_iff in E1. split; assumption.
Qed.

(** One call of [writeRam] that fits one transfer and one bank, when
    nothing fails. *)
Lemma after_writeRam_chunk a data len s
    (Q : option bool -> AB1805 -> list Txn -> Prop) :
  healthy s -> 0 <= a -> 0 < len <= 31 ->
  a + len <= 128 \/ (128 <= a /\ a + len <= 256) ->
  (forall s1 t,
      healthy s1 -> members s1 = members s ->
      (forall x, x <> REG_EXT_ADDR ->
         reg s1 x = store (reg s) (REG_ALT_RAM + a mod 128)
                      (firstn (Z.to_nat len) data) x) ->
      bit_set (reg s1 REG_EXT_ADDR) REG_EXT_ADDR_XADA = (128 <=? a) ->
      filter in_window t
        = [Wr (REG_ALT_RAM + a mod 128) (firstn (Z.to_nat len) data) true] ->
      Q (Some true) s1 t) ->
  after (writeRam a data len false) s Q.
Proof.
  intros H Ha Hlen Hbank K.
  destruct (window_offset a len Ha ltac:(lia) Hbank) as (Hw0 & Hw1).
  set (w := REG_ALT_RAM + a mod 128) in *.
  set (chunk := firstn (Z.to_nat len) data) in *.
  assert (Hchunk : 0 <= w /\ w + Z.of_nat (length chunk) <= 256).
  { unfold w, chunk, REG_ALT_RAM. rewrite length_firstn. lia. }
  assert (Hloop : writeRam_loop (Z.to_nat len) a data len =
    ((if a <? 128
      then clearRegisterBit REG_EXT_ADDR REG_EXT_ADDR_XADA true
      else setRegisterBit REG_EXT_ADDR REG_EXT_ADDR_XADA true) ;;
     bResult <- writeRegisters w chunk false ;;
     if bResult then ret (Some true) else ret (Some false))%drv).
  { unfold chunk, w. rewrite <- (ram_window a Ha).
    destruct (Z.to_nat len) as [|k] eqn:Ek; [lia|]. cbn [writeRam_loop].
    assert (Hpos : (len >? 0) = true) by (apply Z.gtb_lt; lia).
    assert (Hsmall : (len >? 31) = false)
      by (destruct (Z.gtb_spec len 31); [lia | reflexivity]).
    rewrite Hpos, Hsmall.
    assert (Hc : (if (a <? 128) && (usize (a + len) >? 128)
                  then usize (128 - a) else len) = len).
    { rewrite usize_small by (change (2 ^ 32) with 4294967296; lia).
      destruct (Z.ltb_spec a 128), (Z.gtb_spec (a + len) 128); cbn [andb];
        try reflexivity; lia. }
    rewrite Hc, Z.sub_diag, Ek. change (usize 0) with 0.
    assert (Hend : forall f x d, writeRam_loop f x d 0 = ret (Some true))
      by (intros [|f] x d; reflexivity).
    rewrite Hend. unfold writeRegisters at 2. rewrite u8_idem. reflexivity. }
  assert (Tail : forall v s1 t1 s2,
    stored REG_EXT_ADDR [v] s s1 ->
    Forall (fun x => txn_addr x = REG_EXT_ADDR /\ txn_ok x = true) t1 ->
    stored w chunk s1 s2 ->
    bit_set (u8 v) REG_EXT_ADDR_XADA = (128 <=? a) ->
    Q (Some true) s2 ([] ++ (t1 ++ [Wr w chunk true] ++ []) ++ [] ++ [])).
  { intros v s1 t1 s2 S1 T1 S2 Hv.
    destruct S1 as (_ & M1 & E1), S2 as (H2 & M2 & E2).
    assert (Ew : (w <=? REG_EXT_ADDR) && (REG_EXT_ADDR <? w + Z.of_nat (length chunk))
                 = false).
    { destruct (Z.leb_spec w REG_EXT_ADDR); [|reflexivity].
      unfold w, REG_ALT_RAM, REG_EXT_ADDR in *. lia. }
    apply K.
    - exact H2.
    - rewrite M2. exact M1.
    - intros x Hx. rewrite E2, !store_nth by apply Hchunk.
      destruct ((w <=? x) && (x <? w + Z.of_nat (length chunk))); [reflexivity|].
      rewrite E1, store_one.
      destruct (Z.eqb_spec x REG_EXT_ADDR); [contradiction | reflexivity].
    - rewrite E2, store_nth, Ew, E1, store_one, Z.eqb_refl by apply Hchunk.
      exact Hv.
    - cbn [app]. rewrite app_nil_r, filter_app, traffic_elsewhere.
      + cbn [filter app].
        assert (Hin : in_window (Wr w chunk true) = true)
          by (apply Z.leb_le; unfold w; cbn [txn_addr]; lia).
        rewrite Hin. reflexivity.
      + eapply Forall_impl; [|exact T1]. intros x (Hx & _). exact Hx. }
  assert (Hu : u8 w = w)
    by (apply u8_small; unfold w, REG_ALT_RAM; lia).
  unfold writeRam. cbn [when].
  apply after_bind, after_ret. cbv beta. rewrite Hloop.
  apply after_bind. apply after_bind.
  destruct (Z.ltb_spec a 128) as [Hlo|Hhi];
    [unfold clearRegisterBit | unfold setRegisterBit];
    (apply after_maskRegister; [exact H|]; intros s1 t1 S1 T1; cbv beta;
     apply after_bind; apply after_writeRegisters; [still_healthy|];
     intros s2 S2; cbv beta iota; apply after_ret;
     apply after_bind, after_ret; apply after_ret).
  - rewrite Hu in *. apply (Tail _ s1 t1 s2 S1 T1 S2).
    destruct (Z.leb_spec 128 a); [lia|].
    apply (xada_selected _ (reg_range _ _)).
  - rewrite Hu in *. apply (Tail _ s1 t1 s2 S1 T1 S2).
    destruct (Z.leb_spec 128 a); [|lia].
    apply (xada_selected _ (reg_range _ _)).
Qed.

Lemma after_weaken {A} (m : M A) s (Q1 Q2 : A -> AB1805 -> list Txn -> Prop) :
  after m s Q1 -> (forall r s1 t, Q1 r s1 t -> Q2 r s1 t) -> after m s Q2.
Proof. unfold after. intros H K. apply K. exact H. Qed.

(** One round of [eraseRam] when nothing fails: sixteen zero bytes go
    to the block [ii] of the window. *)
Lemma after_writeRam_zeros ii s
    (Q : option bool -> AB1805 -> list Txn -> Prop) :
  healthy s -> 0 <= ii < 16 ->
  (forall s1 t,
      healthy s1 -> members s1 = members s ->
      (forall x, x <> REG_EXT_ADDR ->
         reg s1 x = if (REG_ALT_RAM + (ii * 16) mod 128 <=? x)
                       && (x <? REG_ALT_RAM + (ii * 16) mod 128 + 16)
                    then 0 else reg s x) ->
      bit_set (reg s1 REG_EXT_ADDR) REG_EXT_ADDR_XADA = (128 <=? ii * 16) ->
      filter in_window t
        = [Wr (REG_ALT_RAM + (ii * 16) mod 128) (repeat 0 16) true] ->
      Q (Some true) s1 t) ->
  after (writeRam (usize (ii * 16)) (repeat 0 16) 16 false) s Q.
Proof.
  intros H Hii K.
  rewrite usize_small by (change (2 ^ 32) with 4294967296; lia).
  assert (Hbank : ii * 16 + 16 <= 128 \/ (128 <= ii * 16 /\ ii * 16 + 16 <= 256))
    by lia.
  destruct (window_offset (ii * 16) 16 ltac:(lia) ltac:(lia) Hbank) as (Hw0 & Hw1).
  apply after_writeRam_chunk; try lia; [exact H|].
  intros s1 t H1 M1 E1 B1 T1. apply K; try assumption.
  intros x Hx. rewrite (E1 x Hx).
  change (firstn (Z.to_nat 16) (repeat 0 16)) with (repeat 0 16).
  rewrite store_nth by (cbn [length repeat]; unfold REG_ALT_RAM; lia).
  change (Z.of_nat (length (repeat 0 16))) with 16.
  rewrite nth_repeat. reflexivity.
Qed.

(** The loop of [eraseRam] when nothing fails. *)
Lemma eraseRam_loop_healthy n : forall ii s,
  healthy s -> 0 <= ii -> ii + Z.of_nat n <= 16 ->
  after (eraseRam_loop n ii) s (fun r s1 t =>
    r = Some true /\ healthy s1 /\ members s1 = members s
    /\ (forall x, x <> REG_EXT_ADDR -> reg s x = 0 -> reg s1 x = 0)
    /\ (forall j x, ii <= j < ii + Z.of_nat n ->
          REG_ALT_RAM + (j * 16) mod 128 <= x
            < REG_ALT_RAM + (j * 16) mod 128 + 16 ->
          reg s1 x = 0)
    /\ (forall x, x <> REG_EXT_ADDR -> ~ REG_ALT_RAM <= x <= 0xff ->
          reg s1 x = reg s x)
    /\ bit_set (reg s1 REG_EXT_ADDR) REG_EXT_ADDR_XADA
       = (if 0 <? Z.of_nat n then 128 <=? (ii + Z.of_nat n - 1) * 16
          else bit_set (reg s REG_EXT_ADDR) REG_EXT_ADDR_XADA)
    /\ filter in_window t
       = map (fun k => Wr (REG_ALT_RAM + ((ii + Z.of_nat k) * 16) mod 128)
                          (repeat 0 16) true) (seq 0 n)).
Proof.
  induction n as [|n IH]; intros ii s H Hii Hn.
  - cbn [eraseRam_loop]. apply after_ret.
    repeat split; try assumption; try reflexivity; lia.
  - cbn [eraseRam_loop]. apply after_bind.
    apply after_writeRam_zeros; [exact H | lia |].
    intros s1 t1 H1 M1 E1 B1 T1. cbv beta iota.
    eapply after_weaken; [apply (IH (ii + 1) s1 H1); lia|].
    cbv beta. intros r s2 t2 (R & H2 & M2 & Z2 & C2 & O2 & B2 & T2).
    assert (Hw : 0 <= (ii * 16) mod 128 /\ (ii * 16) mod 128 + 16 <= 128).
    { apply window_offset; lia. }
    split; [exact R | split; [exact H2 | split; [congruence|]]].
    split; [|split; [|split; [|split]]].
    + intros x Hx E. apply (Z2 x Hx). rewrite (E1 x Hx), E.
      destruct (_ && _); reflexivity.
    + intros j x Hj Hx.
      destruct (Z.eq_dec j ii) as [->|Hne].
      * assert (Hx' : x <> REG_EXT_ADDR)
          by (unfold REG_ALT_RAM, REG_EXT_ADDR in *; lia).
        apply (Z2 x Hx'). rewrite (E1 x Hx').
        destruct (Z.leb_spec (REG_ALT_RAM + (ii * 16) mod 128) x); [|lia].
        destruct (Z.ltb_spec x (REG_ALT_RAM + (ii * 16) mod 128 + 16)); [|lia].
        reflexivity.
      * apply (C2 j x); [lia | exact Hx].
    + intros x Hx Hout. rewrite (O2 x Hx Hout), (E1 x Hx).
      destruct (Z.leb_spec (REG_ALT_RAM + (ii * 16) mod 128) x);
        [|reflexivity].
      destruct (Z.ltb_spec x (REG_ALT_RAM + (ii * 16) mod 128 + 16));
        [|reflexivity].
      exfalso. apply Hout. unfold REG_ALT_RAM in *. lia.
    + rewrite B2, B1.
      destruct (Z.ltb_spec 0 (Z.of_nat (S n))); [|lia].
      destruct (Z.ltb_spec 0 (Z.of_nat n)); f_equal; lia.
    + rewrite filter_app, T1, T2. cbn [seq map app].
      rewrite <- seq_shift, map_map. f_equal.
      * f_equal. f_equal. f_equal. lia.
      * apply map_ext. intros k. f_equal. f_equal. f_equal. lia.
Qed.

(** [eraseRam] when nothing fails. *)
Lemma eraseRam_run (lock : bool) (s : AB1805) :
  healthy s ->
  after (eraseRam lock) s (fun r s1 t =>
    r = Some true
    /\ filter in_window t
       = map (fun k => Wr (REG_ALT_RAM + (Z.of_nat k * 16) mod 128)
                          (repeat 0 16) true) (seq 0 16)
    /\ (forall x, REG_ALT_RAM <= x <= 0xff -> reg s1 x = 0)
    /\ (forall x, x <> REG_EXT_ADDR -> ~ REG_ALT_RAM <= x <= 0xff ->
          reg s1 x = reg s x)
    /\ bit_set (reg s1 REG_EXT_ADDR) REG_EXT_ADDR_XADA = true
    /\ members s1 = members s
    /\ healthy s1).
Proof.
  intros H.
  unfold eraseRam. apply after_bind.
  apply after_lock; [left; reflexivity | exact H |].
  intros s1 (H1 & M1 & E1). cbv beta.
  apply after_bind.
  eapply after_weaken; [apply (eraseRam_loop_healthy 16 0 s1 H1); lia|].
  cbv beta. intros r s2 t2 (R & H2 & M2 & _ & C2 & O2 & B2 & T2).
  apply after_bind.
  apply after_lock; [right; reflexivity | exact H2 |].
  intros s3 (H3 & M3 & E3). cbv beta. apply after_ret.
  cbn [store] in E1, E3. cbn [app]. rewrite app_nil_r.
  split; [exact R | split; [exact T2|]].
  split; [|split; [|split; [|split]]].
  - intros x Hx. rewrite E3.
    pose proof (Z.div_mod (x - 128) 16 ltac:(lia)) as Hd.
    pose proof (Z.mod_pos_bound (x - 128) 16 ltac:(lia)) as Hm.
    unfold REG_ALT_RAM in *.
    assert (Hj : 0 <= (x - 128) / 16 < 8) by lia.
    apply (C2 ((x - 128) / 16) x); [lia|].
    rewrite Z.mod_small by lia. lia.
  - intros x Hx Hout. rewrite E3, (O2 x Hx Hout). apply E1.
  - rewrite E3, B2. reflexivity.
  - congruence.
  - exact H3.
Qed.




(** X25: when nothing fails, [eraseRam] returns [true]; what it sends to
    the RAM window are sixteen completed writes of sixteen zero bytes,
    block after block, the window address wrapping after eight of them;
    afterwards every register of the window reads zero, the upper bank
    is the selected one, every register outside the window but the
    extension-address register is as before, and so are the members of
    the driver object. *)
Theorem eraseRam_zeroes_window (lock : bool) (s : AB1805) :
  healthy s ->
  let run := eraseRam lock s in
  result run = Some true
  /\ filter in_window (trace run)
     = map (fun k => Wr (REG_ALT_RAM + (Z.of_nat k * 16) mod 128)
                        (repeat 0 16) true) (seq 0 16)
  /\ (forall x, REG_ALT_RAM <= x <= 0xff -> reg (final run) x = 0)
  /\ (forall x, x <> REG_EXT_ADDR -> ~ REG_ALT_RAM <= x <= 0xff ->
        reg (final run) x = reg s x)
  /\ bit_set (reg (final run) REG_EXT_ADDR) REG_EXT_ADDR_XADA = true
  /\ members (final run) = members s
  /\ healthy (final run).
Proof. intros H. exact (eraseRam_run lock s H). Qed.

Lemma eraseRam_zeroes_window_witness :
  healthy in_use
  /\ reg in_use REG_ALT_RAM = 0x5a
  /\ result (eraseRam true in_use) = Some true
  /\ reg (final (eraseRam true in_use)) REG_ALT_RAM = 0.
Proof.
  assert (H : healthy in_use) by reflexivity.
  destruct (eraseRam_zeroes_window true in_use H) as (R & _ & W & _).
  split; [exact H | split; [reflexivity | split; [exact R|]]].
  apply W. unfold REG_ALT_RAM. lia.
Defined.



(** ** The service routine *)

Lemma setWDT_trace seconds s :
  exists v ok, trace (setWDT seconds s) = [Wr REG_WDT [v] ok].
Proof.
  unfold setWDT.
  destruct ((if seconds <? 0 then watchdogSecs s else seconds) =? 0);
    unfold bind, modify, ret; rewrite writeRegister_run;
    cbn [result final trace fst snd app]; eauto.
Qed.

Lemma setWDT_elsewhere seconds s x :
  x <> REG_WDT -> reg (final (setWDT seconds s)) x = reg s x.
Proof.
  intros Hx. unfold setWDT.
  destruct ((if seconds <? 0 then watchdogSecs s else seconds) =? 0);
    unfold bind, modify, ret; rewrite writeRegister_run;
    cbn [result final trace fst snd app];
    unfold reg, set_watchdog; cbn [wire]; rewrite regs_pop_ack;
    (destruct (next_ack (wire s)); [|reflexivity]);
    rewrite regs_set_regs, store_one;
    (destruct (Z.eqb_spec x (u8 REG_WDT)) as [E|_]; [|reflexivity]);
    exfalso; apply Hx; exact E.
Qed.

Lemma getRtcAsTm_regs timeptr s :
  regs (wire (final (getRtcAsTm timeptr s))) = regs (wire s).
Proof.
  unfold getRtcAsTm, isBitClear, bind, ret.
  rewrite readRegister_run. cbn [result final trace fst snd].
  destruct (next_ack (wire s)); cbn [result final trace fst snd].
  - destruct (Z.land _ _ =? 0); cbn [result final trace fst snd].
    + rewrite readRegisters_run. cbn [result final trace fst snd].
      destruct (next_ack (wire (pop_ack s))); cbn [final fst snd];
        rewrite !regs_pop_ack; reflexivity.
    + apply regs_pop_ack.
  - apply regs_pop_ack.
Qed.

Lemma elapsed_ticks last elapsed :
  0 <= elapsed < 2 ^ 32 ->
  ulong ((last + elapsed) mod 2 ^ 32 - last) = elapsed.
Proof.
  intros H. unfold ulong. rewrite Zminus_mod_idemp_l.
  replace (last + elapsed - last) with elapsed by lia.
  apply Z.mod_small. exact H.
Qed.

(** X27: once the clock has been set, a call of [loop] after
    [setWDT(seconds)] with a positive period does nothing while fewer
    than [fourSecs * 2000] milliseconds have passed since the last
    service, and otherwise writes the watchdog register once, with the
    byte [setWDT] wrote, and records the second reading of [millis()],
    whether that write completes or not; the elapsed time is measured
    modulo 2^32, so a roll-over of [millis()] between two services does
    not disturb it. *)
Theorem loop_taps_watchdog_on_time
    (env : Surroundings) (seconds last elapsed : Z) (s : AB1805) :
  0 < seconds -> 0 <= elapsed < 2 ^ 32 ->
  millisFirst env = (last + elapsed) mod 2 ^ 32 ->
  let fourSecs := Z.min 31 (Z.max 1 (seconds / 4)) in
  let armed := final (setWDT seconds s) in
  let l := mkService armed true last in
  (elapsed < fourSecs * 2000 -> loop env l = (l, []))
  /\ (fourSecs * 2000 <= elapsed ->
      snd (loop env l)
      = [Wr REG_WDT [0x80 + 4 * fourSecs + 0x03] (next_ack (wire armed))]
      /\ lastWatchdogMillis (fst (loop env l)) = millisSecond env
      /\ timeSet (fst (loop env l)) = true
      /\ watchdogSecs (object (fst (loop env l))) = seconds
      /\ watchdogUpdatePeriod (object (fst (loop env l))) = fourSecs * 2000).
Proof.
  intros Hpos He Hm. cbv zeta.
  set (fourSecs := Z.min 31 (Z.max 1 (seconds / 4))).
  assert (Hf : 1 <= fourSecs <= 31) by (unfold fourSecs; lia).
  assert (Hs : watchdogSecs (final (setWDT seconds s)) = seconds
               /\ watchdogUpdatePeriod (final (setWDT seconds s))
                  = fourSecs * 2000).
  { pose proof (setWDT_positive seconds s Hpos) as E. cbv zeta in E.
    rewrite E. split; reflexivity. }
  destruct Hs as (Hs & Hp).
  generalize dependent (final (setWDT seconds s)). intros armed Hs Hp.
  unfold loop. cbn [timeSet object lastWatchdogMillis fst snd negb andb].
  rewrite Hp, Hm, elapsed_ticks by exact He.
  destruct (Z.eqb_spec (fourSecs * 2000) 0) as [E0|_]; [lia|]. cbn [negb].
  rewrite Z.geb_leb.
  destruct (Z.leb_spec (fourSecs * 2000) elapsed) as [Hdue|Hearly].
  - split; [intros; lia | intros _].
    rewrite (setWDT_recorded (-1) armed) by lia. rewrite Hs.
    pose proof (setWDT_positive seconds armed Hpos) as E. cbv zeta in E.
    fold fourSecs in E. rewrite E.
    cbn [fst snd final trace timeSet object lastWatchdogMillis app].
    repeat split; reflexivity.
  - split; [intros _; reflexivity | intros; lia].
Qed.

Lemma loop_taps_watchdog_on_time_witness :
  snd (loop (synced_at 1000)
            (mkService (final (setWDT 60 idle)) true (2 ^ 32 - 29000)))
  = [Wr REG_WDT [0xbf] true].
Proof.
  assert (H1 : 0 < 60) by lia.
  assert (H2 : 0 <= 30000 < 2 ^ 32) by (change (2 ^ 32) with 4294967296; lia).
  assert (H3 : millisFirst (synced_at 1000)
               = (2 ^ 32 - 29000 + 30000) mod 2 ^ 32) by reflexivity.
  destruct (loop_taps_watchdog_on_time (synced_at 1000) 60 (2 ^ 32 - 29000)
              30000 idle H1 H2 H3) as (_ & K).
  destruct K as (T & _); [vm_compute; discriminate|].
  exact T.
Defined.

(** X28: the first call of [loop] that finds the time valid and
    synchronised sets the chip's clock from it and marks it as set,
    whether or not the transport worked; on a transport without
    failures the calendar registers then hold the encoding of the time
    and WRTC is clear.  No later call of [loop] addresses anything but
    the watchdog register. *)
Theorem loop_sets_clock_once (env : Surroundings) (l : Service) :
  timeSet l = false -> timeValid env = true -> timeSyncedLast env <> 0 ->
  let l1 := fst (loop env l) in
  timeSet l1 = true
  /\ (healthy (object l) ->
      burst (regs (wire (object l1))) REG_HUNDREDTH 8
      = 0x00 :: tmToRegisters (timeNow env) true
      /\ wrtc (object l1) = false)
  /\ (forall env',
      timeSet (fst (loop env' l1)) = true
      /\ Forall (fun t => txn_addr t = REG_WDT) (snd (loop env' l1))).
Proof.
  intros Hset Hvalid Hsync. cbv zeta.
  assert (Hcond : negb (timeSet l) && timeValid env
                  && negb (timeSyncedLast env =? 0) = true).
  { rewrite Hset, Hvalid.
    destruct (Z.eqb_spec (timeSyncedLast env) 0); [contradiction | reflexivity]. }
  set (sf := final (setRtcFromTm (timeNow env) true (object l))).
  set (sg := final (getRtcAsTm (tmstruct env) sf)).
  assert (Hl1 : timeSet (fst (loop env l)) = true
                /\ forall x, x <> REG_WDT ->
                     reg (object (fst (loop env l))) x = reg sf x).
  { assert (Eg : final (getRtcAsTime (tmstruct env) sf) = sg)
      by (unfold getRtcAsTime; rewrite final_bind; reflexivity).
    assert (Hg : forall x, reg sg x = reg sf x).
    { intros x. unfold reg, sg. rewrite getRtcAsTm_regs. reflexivity. }
    unfold loop. rewrite Hcond. cbv zeta. unfold setRtcFromTime. fold sf.
    rewrite !Eg. cbn [fst snd object lastWatchdogMillis timeSet].
    destruct (negb (watchdogUpdatePeriod sg =? 0)).
    - destruct (_ >=? _); cbn [fst snd timeSet object]; (split; [reflexivity|]).
      + intros x Hx. rewrite setWDT_elsewhere by exact Hx. apply Hg.
      + intros x _. apply Hg.
    - cbn [fst snd timeSet object]. split; [reflexivity|].
      intros x _. apply Hg. }
  destruct Hl1 as (Ht & Hr).
  generalize dependent (fst (loop env l)). intros l1 Ht Hr.
  split; [exact Ht | split].
  - intros H.
    destruct (setRtcFromTm_healthy (timeNow env) true (object l) H)
      as (_ & _ & _ & G).
    cbv zeta in G. fold sf in G.
    assert (Hc : reg (object l1) REG_CTRL_1
                 = Z.land (reg (object l) REG_CTRL_1) (Z.lnot REG_CTRL_1_WRTC)).
    { rewrite Hr by (vm_compute; discriminate). rewrite G. reflexivity. }
    split; [|unfold wrtc; rewrite Hc; apply wrtc_cleared].
    assert (Hb : burst (regs (wire (object l1))) REG_HUNDREDTH
                   (length (0x00 :: tmToRegisters (timeNow env) true))
                 = map u8 (0x00 :: tmToRegisters (timeNow env) true)).
    { apply (burst_of_stored (reg (object l)));
        unfold REG_HUNDREDTH, tmToRegisters; cbn [length app]; try lia.
      intros x Hx. fold (reg (object l1) x).
      rewrite Hr by (unfold REG_WDT; lia). rewrite G.
      destruct (Z.eqb_spec x REG_CTRL_1) as [->|]; [|reflexivity].
      vm_compute in Hx. destruct Hx as [_ Hx]. discriminate Hx. }
    cbn [map] in Hb. rewrite tmToRegisters_bytes in Hb. exact Hb.
  - intros env'. unfold loop. rewrite Ht. cbn [negb andb fst snd].
    destruct (negb (watchdogUpdatePeriod (object l1) =? 0)).
    + destruct (_ >=? _); cbn [fst snd timeSet].
      * split; [exact Ht|]. cbn [app].
        destruct (setWDT_trace (-1) (object l1)) as (v & ok & E).
        rewrite E. repeat constructor.
      * split; [exact Ht | constructor].
    + split; [exact Ht | constructor].
Qed.

Lemma loop_sets_clock_once_witness :
  timeSet (fst (loop (synced_at 0) (mkService cold false 0))) = true
  /\ burst (regs (wire (object (fst (loop (synced_at 0)
                                          (mkService cold false 0))))))
           REG_HUNDREDTH 8
     = 0x00 :: tmToRegisters tm_leap true.
Proof.
  assert (H1 : timeSet (mkService cold false 0) = false) by reflexivity.
  assert (H2 : timeValid (synced_at 0) = true) by reflexivity.
  assert (H3 : timeSyncedLast (synced_at 0) <> 0) by (vm_compute; discriminate).
  destruct (loop_sets_clock_once (synced_at 0) (mkService cold false 0)
              H1 H2 H3) as (T & K & _).
  split; [exact T|].
  destruct K as (B & _); [reflexivity | exact B].
Defined.
